(** * Trust boundary of the Gitea coding-agent action

    A shallow embedding of the security-relevant core of the action:
    - [validateBranchName] and [setupBranch]  (src/github/operations/branch.ts)
    - the local git tool server               (src/mcp/local-git-ops-server.ts)
    - [checkWritePermissions]                 (src/github/validation/permissions.ts)
    - the prepare entry point [run]           (src/entrypoints/prepare.ts)
    - the comment actor filter and
      [fetchGitHubData]                       (src/github/data/fetcher.ts)
    - [parseGitHubContext] and the parsers
      of the list and permission inputs       (src/github/context.ts)
    - [createInitialComment]                  (src/github/operations/comments/create-initial.ts)

    JavaScript strings are sequences of UTF-16 code units; a code unit is a
    number [N].  Functions that throw return a [Completion]; code that talks
    to git, to the forge API or to the process runs in the monad [M] over an
    explicit host state with a log of everything it did.  The git binary,
    the HTTP endpoint, the API client and the regular-expression engine are
    interfaces ([HostOps], [Collaborators], [RegExpEngine],
    [GiteaApiClient], [GitHubClient]); results hold
    for every implementation of them unless a concrete one is named.
    Console output is not recorded. *)

From Stdlib Require Import List NArith ZArith Bool Ascii String Lia.
From Stdlib Require Import DecimalString.
Import ListNotations.

Set Implicit Arguments.
Local Open Scope N_scope.

(* ================================================================== *)
(** * JavaScript strings *)

Module JS.

Definition jsstring := list N.

Definition unit_of_ascii (a : ascii) : N := N_of_ascii a.

(** A literal of the source, as code units (ASCII literals only). *)
Definition str (s : string) : jsstring := map unit_of_ascii (list_ascii_of_string s).

(** The double quote character, U+0022. *)
Definition dq : jsstring := [34].

(** [String(n)] for a non-negative integer. *)
Definition of_N (n : N) : jsstring := str (NilZero.string_of_uint (N.to_uint n)).

Definition unit_eqb (a b : N) : bool := N.eqb a b.

Fixpoint eqb (a b : jsstring) : bool :=
  match a, b with
  | [], [] => true
  | x :: a', y :: b' => unit_eqb x y && eqb a' b'
  | _, _ => false
  end.

(** [s.startsWith(p)] *)
Fixpoint startsWith (p s : jsstring) : bool :=
  match p, s with
  | [], _ => true
  | _ :: _, [] => false
  | x :: p', y :: s' => unit_eqb x y && startsWith p' s'
  end.

(** [s.endsWith(p)] *)
Definition endsWith (p s : jsstring) : bool := startsWith (rev p) (rev s).

(** [s.includes(p)] *)
Fixpoint includes (p s : jsstring) : bool :=
  startsWith p s ||
  match s with
  | [] => false
  | _ :: s' => includes p s'
  end.

(** WhiteSpace and LineTerminator code points, the ones [trim] strips. *)
Definition isWhiteSpace (c : N) : bool :=
  ((9 <=? c) && (c <=? 13)) || (c =? 32) || (c =? 160) || (c =? 5760) ||
  ((8192 <=? c) && (c <=? 8202)) || (c =? 8232) || (c =? 8233) ||
  (c =? 8239) || (c =? 8287) || (c =? 12288) || (c =? 65279).

Fixpoint trimStart (s : jsstring) : jsstring :=
  match s with
  | [] => []
  | c :: s' => if isWhiteSpace c then trimStart s' else s
  end.

Definition trimEnd (s : jsstring) : jsstring := rev (trimStart (rev s)).

Definition trim (s : jsstring) : jsstring := trimEnd (trimStart s).

(** [s.slice(1)] *)
Definition slice1 (s : jsstring) : jsstring := tl s.

(** Truthiness of a string: only the empty string is falsy. *)
Definition truthy (s : jsstring) : bool :=
  match s with [] => false | _ => true end.

(** [parts.join(sep)] *)
Fixpoint join (sep : jsstring) (parts : list jsstring) : jsstring :=
  match parts with
  | [] => []
  | [p] => p
  | p :: rest => p ++ sep ++ join sep rest
  end.

(** Character classes used by the regular expressions of the source. *)
Definition isDigit (c : N) : bool := (48 <=? c) && (c <=? 57).
Definition isUpper (c : N) : bool := (65 <=? c) && (c <=? 90).
Definition isLower (c : N) : bool := (97 <=? c) && (c <=? 122).
Definition isAlnum (c : N) : bool := isLower c || isUpper c || isDigit c.

(** An [Error] object: its [name] and its [message]. *)
Record Error := mkErr { name : jsstring; message : jsstring }.

(** [new Error(msg)] *)
Definition newError (msg : jsstring) : Error := mkErr (str "Error") msg.

(** [String(e)] / [`${e}`] for an Error, as Error.prototype.toString does. *)
Definition errorToString (e : Error) : jsstring :=
  match name e, message e with
  | [], m => m
  | n, [] => n
  | n, m => n ++ str ": " ++ m
  end.

(** The outcome of evaluating code that may throw. *)
Inductive Completion (A : Type) : Type :=
| Normal (a : A)
| Throws (e : Error).
Arguments Normal {A} a.
Arguments Throws {A} e.

End JS.
Import JS.

Declare Scope js_scope.
Delimit Scope js_scope with js.
Notation "a +++ b" := (a ++ b)%list (at level 60, right associativity, only parsing) : js_scope.
Local Open Scope js_scope.

(* ================================================================== *)
(** * Branch name validator (branch.ts) *)

Module Branch.

(** [/[\x00-\x1F\x7F ~^:?*[\]\\]/] : one forbidden code unit. *)
Definition isForbiddenChar (c : N) : bool :=
  (c <=? 31) || (c =? 127) || (c =? 32) ||
  (c =? 126) (* ~ *) || (c =? 94) (* ^ *) || (c =? 58) (* : *) ||
  (c =? 63) (* ? *) || (c =? 42) (* * *) || (c =? 91) (* [ *) ||
  (c =? 93) (* ] *) || (c =? 92) (* \ *).

Definition hasForbiddenChar (s : jsstring) : bool := existsb isForbiddenChar s.

(** [[a-zA-Z0-9/_.-]] *)
Definition isBranchChar (c : N) : bool :=
  isAlnum c || (c =? 47) (* / *) || (c =? 95) (* _ *) ||
  (c =? 46) (* . *) || (c =? 45) (* - *).

(** [/^[a-zA-Z0-9][a-zA-Z0-9/_.-]*$/.test(s)] *)
Definition validPattern (s : jsstring) : bool :=
  match s with
  | [] => false
  | c :: rest => isAlnum c && forallb isBranchChar rest
  end.

Definition invalidName (branchName tail : jsstring) : Error :=
  newError (str "Invalid branch name: " +++ dq +++ branchName +++ dq +++ str ". " +++ tail).

Definition validateBranchName (branchName : jsstring) : Completion unit :=
  if negb (truthy branchName) || (N.of_nat (List.length (trim branchName)) =? 0) then
    Throws (newError (str "Branch name cannot be empty"))
  else if startsWith (str "-") branchName then
    Throws (invalidName branchName (str "Branch names cannot start with a dash."))
  else if hasForbiddenChar branchName then
    Throws (invalidName branchName
      (str "Branch names cannot contain control characters, spaces, or special git characters (~^:?*[\])."))
  else if negb (validPattern branchName) then
    Throws (invalidName branchName
      (str "Branch names must start with an alphanumeric character and contain only alphanumeric characters, forward slashes, hyphens, underscores, or periods."))
  else if startsWith (str ".") branchName || endsWith (str ".") branchName then
    Throws (invalidName branchName (str "Branch names cannot start or end with a period."))
  else if endsWith (str "/") branchName then
    Throws (invalidName branchName (str "Branch names cannot end with a slash."))
  else if includes (str "//") branchName then
    Throws (invalidName branchName (str "Branch names cannot contain consecutive slashes."))
  else if includes (str "..") branchName then
    Throws (invalidName branchName (str "Branch names cannot contain '..'"))
  else if endsWith (str ".lock") branchName then
    Throws (invalidName branchName (str "Branch names cannot end with '.lock'"))
  else if includes (str "@{") branchName then
    Throws (invalidName branchName (str "Branch names cannot contain '@{'"))
  else Normal tt.

(** The validator as a decision. *)
Definition accepts (s : jsstring) : bool :=
  match validateBranchName s with Normal _ => true | Throws _ => false end.

End Branch.
Import Branch.

(* ================================================================== *)
(** * The outside world and the monad of effects *)

Module Host.

(** [permissions] of the repository response. *)
Record Permissions := { admin : bool; push : bool; pull : bool }.

(** The part of the repository-metadata response that is read. *)
Record RepoData := { default_branch : jsstring; permissions : option Permissions }.

(** The JSON body of the pull-request creation request. *)
Record PullPayload := { pr_title : jsstring; pr_body : jsstring; base : jsstring; head : jsstring }.

Record HttpRequest :=
  { url : jsstring; method : jsstring; authorization : jsstring;
    contentType : jsstring; payload : PullPayload }.

(** [number] and [html_url] of the created pull request, as a template
    literal renders them. *)
Record PullData := { number : jsstring; html_url : jsstring }.

Record HttpResponse :=
  { ok : bool; status : N;
    text : Completion jsstring;      (* [await response.text()] *)
    json : Completion PullData }.    (* [await response.json()] *)

(** What the program cannot see into: the git binary working on the
    checkout, the HTTP endpoint and the forge API client.  Each answers a
    request in a world and leaves a world. *)
Class HostOps := {
  World : Type;
  git : list jsstring -> World -> Completion jsstring * World;
  fetch : HttpRequest -> World -> Completion HttpResponse * World;
  getRepo : jsstring -> jsstring -> World -> Completion RepoData * World
}.

(** Functions of the prepare flow. *)
Inductive Step :=
| SetupGitHubToken | ParseGitHubContext | CheckWritePermissions
| CheckTriggerAction | CheckHumanActor | CreateInitialComment
| FetchGitHubData | SetupBranch | UpdateTrackingComment
| CreatePrompt | PrepareMcpConfig.

(** Everything observable the program does, in order. *)
Inductive Event :=
| Git (argv : list jsstring)
| Http (req : HttpRequest)
| GetRepo (owner repo : jsstring)
| Call (f : Step)
| SetOutput (key value : jsstring)
| SetFailed (msg : jsstring).

Inductive Outcome (A : Type) : Type :=
| Returned (a : A)
| Thrown (e : Error)
| Exited (code : Z).      (* [process.exit(code)] *)
Arguments Returned {A} a.
Arguments Thrown {A} e.
Arguments Exited {A} code.

Section Monad.
Context `{HostOps}.

Record State := mkState { world : World; log : list Event }.

Definition M (A : Type) : Type := State -> Outcome A * State.

Definition ret {A} (a : A) : M A := fun s => (Returned a, s).

Definition bind {A B} (m : M A) (k : A -> M B) : M B :=
  fun s =>
    match m s with
    | (Returned a, s') => k a s'
    | (Thrown e, s') => (Thrown e, s')
    | (Exited c, s') => (Exited c, s')
    end.

Definition throw {A} (e : Error) : M A := fun s => (Thrown e, s).

Definition exit {A} (code : Z) : M A := fun s => (Exited code, s).

(** [try { body } catch (e) { handler e }]; a process exit is not caught. *)
Definition tryCatch {A} (body : M A) (handler : Error -> M A) : M A :=
  fun s =>
    match body s with
    | (Thrown e, s') => handler e s'
    | r => r
    end.

Definition emit (e : Event) : M unit :=
  fun s => (Returned tt, mkState (world s) (log s ++ [e])).

(** Ask the host; a failure of the host is thrown. *)
Definition ask {A} (q : World -> Completion A * World) : M A :=
  fun s =>
    match q (world s) with
    | (Normal a, w) => (Returned a, mkState w (log s))
    | (Throws e, w) => (Thrown e, mkState w (log s))
    end.

(** A pure computation that may throw. *)
Definition lift {A} (c : Completion A) : M A :=
  match c with
  | Normal a => ret a
  | Throws e => throw e
  end.

(** A computation that never ends the process. *)
Definition NoExit {A} (m : M A) : Prop := forall s c s', m s <> (Exited c, s').

Definition when (b : bool) (m : M unit) : M unit := if b then m else ret tt.

End Monad.

Declare Scope monad_scope.
Delimit Scope monad_scope with monad.
Notation "x <- m ;; k" := (bind m (fun x => k))
  (at level 61, m at next level, right associativity) : monad_scope.
Notation "m ;; k" := (bind m (fun _ => k))
  (at level 61, right associativity) : monad_scope.

(** [for (const x of xs) body x] *)
Fixpoint forEach `{HostOps} {A} (xs : list A) (body : A -> M unit) : M unit :=
  match xs with
  | [] => ret tt
  | x :: rest => (body x ;; forEach rest body)%monad
  end.

End Host.
Import Host.
Local Open Scope monad_scope.

(* ================================================================== *)
(** * The local git tool server (local-git-ops-server.ts) *)

Module Gateway.

Record Env :=
  { REPO_OWNER : jsstring; REPO_NAME : jsstring; BRANCH_NAME : jsstring;
    GITHUB_TOKEN : option jsstring; GITEA_API_URL : jsstring;
    CLAUDE_GIT_NAME : option jsstring; CLAUDE_GIT_EMAIL : option jsstring }.

(** [process.env.X || dflt] *)
Definition orElse (v : option jsstring) (dflt : jsstring) : jsstring :=
  match v with
  | Some s => if truthy s then s else dflt
  | None => dflt
  end.

Record ToolResult :=
  { content : list jsstring;       (* the [text] of each content item *)
    error : option jsstring;
    isError : bool }.

Definition success (text : jsstring) : ToolResult :=
  {| content := [text]; error := None; isError := false |}.

Definition failure (what errorMessage : jsstring) : ToolResult :=
  {| content := [what +++ errorMessage]; error := Some errorMessage; isError := true |}.

(** [/^[a-zA-Z0-9_\/][a-zA-Z0-9_\/-]*$/.test(s)] *)
Definition isRefHead (c : N) : bool := isAlnum c || (c =? 95) (* _ *) || (c =? 47) (* / *).
Definition isRefTail (c : N) : bool := isRefHead c || (c =? 45) (* - *).
Definition refPattern (s : jsstring) : bool :=
  match s with
  | [] => false
  | c :: rest => isRefHead c && forallb isRefTail rest
  end.

Section Handlers.
Context `{HostOps}.
Variable env : Env.

Definition runGitCommand (args : list jsstring) : M jsstring :=
  emit (Git args) ;;
  result <- ask (git args) ;;
  ret (trim result).

Definition ensureGitUserConfigured : M unit :=
  let gitName := orElse (CLAUDE_GIT_NAME env) (str "Claude") in
  let gitEmail := orElse (CLAUDE_GIT_EMAIL env) (str "claude@anthropic.com") in
  tryCatch (runGitCommand [str "config"; str "user.email"] ;; ret tt)
           (fun _ => runGitCommand [str "config"; str "user.email"; gitEmail] ;; ret tt) ;;
  tryCatch (runGitCommand [str "config"; str "user.name"] ;; ret tt)
           (fun _ => runGitCommand [str "config"; str "user.name"; gitName] ;; ret tt).

(** The [catch] block every handler ends with. *)
Definition onError (what : jsstring) (e : Error) : M ToolResult :=
  ret (failure what (message e)).

Definition create_branch_body (branch_name base_branch : jsstring) : M ToolResult :=
  when (negb (refPattern base_branch))
       (throw (newError (str "Invalid base branch name: " +++ base_branch))) ;;
  runGitCommand [str "checkout"; base_branch] ;;
  runGitCommand [str "pull"; str "origin"; base_branch] ;;
  when (negb (refPattern branch_name))
       (throw (newError (str "Invalid branch name: " +++ branch_name))) ;;
  runGitCommand [str "checkout"; str "-b"; branch_name] ;;
  ret (success (str "Successfully created and checked out branch: " +++ branch_name)).

Definition create_branch (branch_name base_branch : jsstring) : M ToolResult :=
  tryCatch (create_branch_body branch_name base_branch)
           (onError (str "Error creating branch: ")).

Definition checkout_branch_body (branch_name : jsstring)
    (create_if_missing fetch_remote : bool) : M ToolResult :=
  when (negb (refPattern branch_name))
       (throw (newError (str "Invalid branch name: " +++ branch_name))) ;;
  branchExists <-
    tryCatch (runGitCommand [str "rev-parse"; str "--verify"; branch_name] ;; ret true)
             (fun _ => ret false) ;;
  branchExists <-
    (if negb branchExists && fetch_remote then
       tryCatch (runGitCommand [str "fetch"; str "origin"; branch_name +++ str ":" +++ branch_name] ;;
                 ret true)
                (fun _ => ret branchExists)
     else ret branchExists) ;;
  if negb branchExists && create_if_missing then
    runGitCommand [str "checkout"; str "-b"; branch_name] ;;
    ret (success (str "Successfully created and checked out new branch: " +++ branch_name))
  else if negb branchExists then
    throw (newError (str "Branch '" +++ branch_name +++
      str "' does not exist locally or on remote. Use create_if_missing=true to create it."))
  else
    runGitCommand [str "checkout"; branch_name] ;;
    ret (success (str "Successfully checked out branch: " +++ branch_name)).

(** Omitted optional arguments take their defaults: [create_if_missing = false],
    [fetch_remote = true]. *)
Definition checkout_branch (branch_name : jsstring)
    (create_if_missing fetch_remote : option bool) : M ToolResult :=
  tryCatch (checkout_branch_body branch_name
              (match create_if_missing with Some b => b | None => false end)
              (match fetch_remote with Some b => b | None => true end))
           (onError (str "Error checking out branch: ")).

Definition filePath (file : jsstring) : jsstring :=
  if startsWith (str "/") file then slice1 file else file.

Definition fileCount (files : list jsstring) : jsstring := of_N (N.of_nat (List.length files)).

Definition commit_files_body (files : list jsstring) (msg : jsstring) : M ToolResult :=
  ensureGitUserConfigured ;;
  forEach files (fun file => runGitCommand [str "add"; str "--"; filePath file] ;; ret tt) ;;
  runGitCommand [str "commit"; str "-m"; msg] ;;
  ret (success (str "Successfully committed " +++ fileCount files +++ str " file(s): " +++
                join (str ", ") files)).

Definition commit_files (files : list jsstring) (msg : jsstring) : M ToolResult :=
  tryCatch (commit_files_body files msg) (onError (str "Error committing files: ")).

Definition push_branch_body (force : bool) : M ToolResult :=
  currentBranch <- runGitCommand [str "rev-parse"; str "--abbrev-ref"; str "HEAD"] ;;
  (if force then runGitCommand [str "push"; str "-f"; str "origin"; currentBranch]
   else runGitCommand [str "push"; str "origin"; currentBranch]) ;;
  ret (success (str "Successfully pushed branch: " +++ currentBranch)).

Definition push_branch (force : option bool) : M ToolResult :=
  tryCatch (push_branch_body (match force with Some b => b | None => false end))
           (onError (str "Error pushing branch: ")).

Definition pullsRequest (token title body base_branch currentBranch : jsstring) : HttpRequest :=
  {| url := GITEA_API_URL env +++ str "/repos/" +++ REPO_OWNER env +++ str "/" +++
            REPO_NAME env +++ str "/pulls";
     method := str "POST";
     authorization := str "token " +++ token;
     contentType := str "application/json";
     payload := {| pr_title := title; pr_body := body; base := base_branch; head := currentBranch |} |}.

Definition create_pull_request_body (title body base_branch : jsstring)
    (head_branch : option jsstring) : M ToolResult :=
  match GITHUB_TOKEN env with
  | Some ((_ :: _) as token) =>
      currentBranch <-
        match head_branch with
        | Some ((_ :: _) as h) => ret h
        | _ => runGitCommand [str "rev-parse"; str "--abbrev-ref"; str "HEAD"]
        end ;;
      let req := pullsRequest token title body base_branch currentBranch in
      emit (Http req) ;;
      response <- ask (fetch req) ;;
      if negb (ok response) then
        errorText <- ask (fun w => (text response, w)) ;;
        throw (newError (str "Failed to create PR: " +++ of_N (status response) +++ str " " +++ errorText))
      else
        prData <- ask (fun w => (json response, w)) ;;
        ret (success (str "Successfully created pull request #" +++ number prData +++ str ": " +++
                      html_url prData))
  | _ => throw (newError (str "GITHUB_TOKEN environment variable is required for PR creation"))
  end.

Definition create_pull_request (title body base_branch : jsstring)
    (head_branch : option jsstring) : M ToolResult :=
  tryCatch (create_pull_request_body title body base_branch head_branch)
           (onError (str "Error creating pull request: ")).

Definition delete_files_body (files : list jsstring) (msg : jsstring) : M ToolResult :=
  forEach files (fun file => runGitCommand [str "rm"; str "--"; filePath file] ;; ret tt) ;;
  runGitCommand [str "commit"; str "-m"; msg] ;;
  ret (success (str "Successfully deleted and committed " +++ fileCount files +++
                str " file(s): " +++ join (str ", ") files)).

Definition delete_files (files : list jsstring) (msg : jsstring) : M ToolResult :=
  tryCatch (delete_files_body files msg) (onError (str "Error deleting files: ")).

Definition lf : jsstring := [10].

Definition git_status_body : M ToolResult :=
  status <- runGitCommand [str "status"; str "--porcelain"] ;;
  currentBranch <- runGitCommand [str "rev-parse"; str "--abbrev-ref"; str "HEAD"] ;;
  ret (success (str "Current branch: " +++ currentBranch +++ lf +++ str "Status:" +++ lf +++
                (if truthy status then status else str "Working tree clean"))).

Definition git_status : M ToolResult :=
  tryCatch git_status_body (onError (str "Error getting git status: ")).

(** The declared catalogue of operations with their arguments. *)
Inductive ToolInvocation :=
| CreateBranch (branch_name base_branch : jsstring)
| CheckoutBranch (branch_name : jsstring) (create_if_missing fetch_remote : option bool)
| CommitFiles (files : list jsstring) (msg : jsstring)
| PushBranch (force : option bool)
| CreatePullRequest (title body base_branch : jsstring) (head_branch : option jsstring)
| DeleteFiles (files : list jsstring) (msg : jsstring)
| GitStatus.

(** The [try] block of the handler registered for an operation. *)
Definition handlerBody (call : ToolInvocation) : M ToolResult :=
  match call with
  | CreateBranch b base => create_branch_body b base
  | CheckoutBranch b c f =>
      checkout_branch_body b (match c with Some x => x | None => false end)
                             (match f with Some x => x | None => true end)
  | CommitFiles fs m => commit_files_body fs m
  | PushBranch f => push_branch_body (match f with Some b => b | None => false end)
  | CreatePullRequest t b base h => create_pull_request_body t b base h
  | DeleteFiles fs m => delete_files_body fs m
  | GitStatus => git_status_body
  end.

(** The prefix of the text the [catch] block of that handler reports. *)
Definition handlerWhat (call : ToolInvocation) : jsstring :=
  match call with
  | CreateBranch _ _ => str "Error creating branch: "
  | CheckoutBranch _ _ _ => str "Error checking out branch: "
  | CommitFiles _ _ => str "Error committing files: "
  | PushBranch _ => str "Error pushing branch: "
  | CreatePullRequest _ _ _ _ => str "Error creating pull request: "
  | DeleteFiles _ _ => str "Error deleting files: "
  | GitStatus => str "Error getting git status: "
  end.

(** The server dispatching a request to the handler registered under its name. *)
Definition handle (call : ToolInvocation) : M ToolResult :=
  match call with
  | CreateBranch b base => create_branch b base
  | CheckoutBranch b c f => checkout_branch b c f
  | CommitFiles fs m => commit_files fs m
  | PushBranch f => push_branch f
  | CreatePullRequest t b base h => create_pull_request t b base h
  | DeleteFiles fs m => delete_files fs m
  | GitStatus => git_status
  end.

End Handlers.

End Gateway.

(* ================================================================== *)
(** * The parsed event context (github/context.ts) *)

Module EventContext.

Record Repository := { owner : jsstring; repo : jsstring }.

Record Inputs :=
  { mode : jsstring;
    triggerPhrase : jsstring;
    baseBranch : option jsstring;          (* [process.env.BASE_BRANCH] *)
    allowedTools : list jsstring;
    includeCommentsByActor : jsstring;
    excludeCommentsByActor : jsstring }.

Record BaseContext :=
  { runId : jsstring; eventName : jsstring; repository : Repository;
    actor : jsstring; inputs : Inputs }.

(** The fields only an issue or pull-request event carries. *)
Record ParsedGitHubContext :=
  { common : BaseContext; entityNumber : N; isPR : bool }.

Inductive GitHubContext :=
| EntityContext (c : ParsedGitHubContext)
| AutomationContext (c : BaseContext).

Definition baseOf (c : GitHubContext) : BaseContext :=
  match c with
  | EntityContext e => common e
  | AutomationContext b => b
  end.

End EventContext.
Import EventContext.

(* ================================================================== *)
(** * Branch setup (branch.ts) *)

Module Setup.

Record BranchInfo :=
  { baseBranch : jsstring; claudeBranch : option jsstring; currentBranch : jsstring }.

(** The fields of [githubData.contextData] that [setupBranch] reads; the two
    ref names are read for pull requests only. *)
Record ContextData :=
  { state : jsstring; baseRefName : jsstring; headRefName : jsstring }.

Record FetchDataResult := { contextData : ContextData }.

Section WithHost.
Context `{HostOps}.

(** A git command line of the Bun shell: one argument per interpolation;
    a non-zero exit throws.  [branch.ts] writes [core.setOutput] without
    importing [core]; it is read as the Actions toolkit that [prepare.ts]
    imports under that name. *)
Definition sh_git (args : list jsstring) : M jsstring :=
  emit (Git args) ;; ask (git args).

Definition setupBranch (githubData : FetchDataResult) (context : ParsedGitHubContext)
  : M BranchInfo :=
  let owner := owner (repository (common context)) in
  let repo := repo (repository (common context)) in
  sourceBranch <-
    match EventContext.baseBranch (inputs (common context)) with
    | Some ((_ :: _) as baseBranch) => ret baseBranch
    | _ =>
        emit (GetRepo owner repo) ;;
        repoResponse <- ask (getRepo owner repo) ;;
        ret (default_branch repoResponse)
    end ;;
  if isPR context then
    let prData := contextData githubData in
    let prState := state prData in
    if JS.eqb prState (str "CLOSED") || JS.eqb prState (str "MERGED") then
      sh_git [str "fetch"; str "origin"; str "--depth=1"; sourceBranch] ;;
      sh_git [str "checkout"; sourceBranch] ;;
      sh_git [str "pull"; str "origin"; sourceBranch] ;;
      ret {| baseBranch := sourceBranch; claudeBranch := None; currentBranch := sourceBranch |}
    else
      let branchName := headRefName prData in
      sh_git [str "fetch"; str "origin"; str "--depth=20"; branchName] ;;
      sh_git [str "checkout"; branchName] ;;
      let baseBranch := baseRefName prData in
      lift (validateBranchName baseBranch) ;;
      ret {| baseBranch := baseBranch; claudeBranch := None; currentBranch := branchName |}
  else
    tryCatch
      (sh_git [str "status"] ;;
       sh_git [str "fetch"; str "origin"; str "--depth=1"; sourceBranch] ;;
       sh_git [str "checkout"; sourceBranch] ;;
       sh_git [str "pull"; str "origin"; sourceBranch] ;;
       currentBranch <- sh_git [str "branch"; str "--show-current"] ;;
       let branchName := trim currentBranch in
       (if JS.eqb branchName sourceBranch then ret tt
        else throw (newError (str "Branch checkout failed. Expected " +++ sourceBranch +++
                              str ", got " +++ branchName))) ;;
       emit (SetOutput (str "BASE_BRANCH") sourceBranch) ;;
       ret {| baseBranch := sourceBranch; claudeBranch := None; currentBranch := sourceBranch |})
      (fun _ => exit 1%Z).

End WithHost.

End Setup.
Import Setup.

(* ================================================================== *)
(** * Permission check (github/validation/permissions.ts) *)

Module Permissions.

Section WithHost.
Context `{HostOps}.

Definition checkWritePermissions (context : BaseContext) : M bool :=
  let repository := repository context in
  let actor := actor context in
  tryCatch
    (emit (GetRepo (owner repository) (repo repository)) ;;
     response <- ask (getRepo (owner repository) (repo repository)) ;;
     match permissions response with
     | None => ret true
     | Some perms =>
         if admin perms || push perms then ret true
         else ret false
     end)
    (fun error =>
       throw (newError (str "Failed to check permissions for " +++ actor +++ str ": " +++
                        errorToString error))).

End WithHost.

End Permissions.
Import Permissions.

(* ================================================================== *)
(** * The prepare entry point (entrypoints/prepare.ts) *)

Module Prepare.

(** What [mode.prepareContext] is given. *)
Record ModeData :=
  { md_commentId : option N; md_baseBranch : jsstring; md_claudeBranch : option jsstring }.

Record Mode := { modeName : jsstring; shouldCreateTrackingComment : bool }.

Record McpParams :=
  { mcp_githubToken : jsstring; mcp_owner : jsstring; mcp_repo : jsstring;
    mcp_branch : jsstring; mcp_baseBranch : jsstring; mcp_allowedTools : list jsstring }.

Record FetchParams :=
  { fp_repository : jsstring; fp_prNumber : jsstring; fp_isPR : bool;
    fp_include : jsstring; fp_exclude : jsstring }.

(** The functions [run] calls whose bodies lie outside this development:
    each answers in a world, may throw, and may end the process. *)
Class Collaborators `{HostOps} := {
  setupGitHubToken : World -> Outcome jsstring * World;
  parseGitHubContext : World -> Outcome GitHubContext * World;
  checkTriggerAction : GitHubContext -> World -> Outcome bool * World;
  checkHumanActor : GitHubContext -> World -> Outcome unit * World;
  getMode : jsstring -> Completion Mode;
  createInitialComment : ParsedGitHubContext -> World -> Outcome N * World;
  fetchGitHubData : FetchParams -> World -> Outcome FetchDataResult * World;
  updateTrackingComment : ParsedGitHubContext -> N -> jsstring -> World -> Outcome unit * World;
  createPrompt : Mode -> GitHubContext -> ModeData -> option FetchDataResult ->
                 World -> Outcome unit * World;
  prepareMcpConfig : McpParams -> GitHubContext -> World -> Outcome jsstring * World
}.

(** [process.env.GITHUB_REF_NAME] and [process.env.GITHUB_HEAD_REF]. *)
Record ProcessEnv := { GITHUB_REF_NAME : option jsstring; GITHUB_HEAD_REF : option jsstring }.

Section WithHost.
Context `{Collaborators}.
Variable penv : ProcessEnv.

(** A call of a collaborator, recorded in the log. *)
Definition call {A} (f : Step) (q : World -> Outcome A * World) : M A :=
  emit (Call f) ;;
  fun s => let (o, w) := q (world s) in (o, mkState w (log s)).

Definition boolToString (b : bool) : jsstring := if b then str "true" else str "false".

Definition firstTruthy (a : option jsstring) (b : jsstring) : jsstring := Gateway.orElse a b.

Definition truthyOpt (a : option jsstring) : bool :=
  match a with Some s => truthy s | None => false end.

Definition entityFlow (githubToken : jsstring) (mode : Mode) (context : GitHubContext)
    (entityContext : ParsedGitHubContext) : M unit :=
  let repository := repository (common entityContext) in
  let inputs := inputs (common entityContext) in
  commentId <-
    (if shouldCreateTrackingComment mode then
       commentId <- call CreateInitialComment (createInitialComment entityContext) ;;
       emit (SetOutput (str "claude_comment_id") (of_N commentId)) ;;
       ret (Some commentId)
     else ret None) ;;
  githubData <- call FetchGitHubData (fetchGitHubData
    {| fp_repository := owner repository +++ str "/" +++ repo repository;
       fp_prNumber := of_N (entityNumber entityContext);
       fp_isPR := isPR entityContext;
       fp_include := includeCommentsByActor inputs;
       fp_exclude := excludeCommentsByActor inputs |}) ;;
  branchInfo <- (emit (Call SetupBranch) ;; setupBranch githubData entityContext) ;;
  emit (SetOutput (str "BASE_BRANCH") (Setup.baseBranch branchInfo)) ;;
  when (truthyOpt (claudeBranch branchInfo))
       (emit (SetOutput (str "CLAUDE_BRANCH")
                (match claudeBranch branchInfo with Some b => b | None => [] end))) ;;
  match commentId, claudeBranch branchInfo with
  | Some id, Some ((_ :: _) as b) =>
      if (id =? 0)%N then ret tt
      else call UpdateTrackingComment (updateTrackingComment entityContext id b)
  | _, _ => ret tt
  end ;;
  call CreatePrompt (createPrompt mode context
    {| md_commentId := commentId; md_baseBranch := Setup.baseBranch branchInfo;
       md_claudeBranch := claudeBranch branchInfo |} (Some githubData)) ;;
  mcpConfig <- call PrepareMcpConfig (prepareMcpConfig
    {| mcp_githubToken := githubToken; mcp_owner := owner repository; mcp_repo := repo repository;
       mcp_branch := currentBranch branchInfo; mcp_baseBranch := Setup.baseBranch branchInfo;
       mcp_allowedTools := allowedTools inputs |} context) ;;
  emit (SetOutput (str "mcp_config") mcpConfig).

Definition automationFlow (githubToken : jsstring) (mode : Mode) (context : GitHubContext) : M unit :=
  let base := baseOf context in
  let baseBranch :=
    firstTruthy (EventContext.baseBranch (inputs base)) (firstTruthy (GITHUB_REF_NAME penv) (str "main")) in
  emit (SetOutput (str "BASE_BRANCH") baseBranch) ;;
  call CreatePrompt (createPrompt mode context
    {| md_commentId := None; md_baseBranch := baseBranch; md_claudeBranch := None |} None) ;;
  let currentBranch :=
    firstTruthy (GITHUB_HEAD_REF penv) (firstTruthy (GITHUB_REF_NAME penv) baseBranch) in
  mcpConfig <- call PrepareMcpConfig (prepareMcpConfig
    {| mcp_githubToken := githubToken; mcp_owner := owner (repository base);
       mcp_repo := repo (repository base); mcp_branch := currentBranch;
       mcp_baseBranch := baseBranch; mcp_allowedTools := allowedTools (inputs base) |} context) ;;
  emit (SetOutput (str "mcp_config") mcpConfig).

(** The [try] block of [run]. *)
Definition runBody : M unit :=
  githubToken <- call SetupGitHubToken setupGitHubToken ;;
  context <- call ParseGitHubContext parseGitHubContext ;;
  hasWritePermissions <- (emit (Call CheckWritePermissions) ;; checkWritePermissions (baseOf context)) ;;
  when (negb hasWritePermissions)
       (throw (newError (str "Actor does not have write permissions to the repository"))) ;;
  containsTrigger <- call CheckTriggerAction (checkTriggerAction context) ;;
  emit (SetOutput (str "contains_trigger") (boolToString containsTrigger)) ;;
  emit (SetOutput (str "GITHUB_TOKEN") githubToken) ;;
  if negb containsTrigger then ret tt
  else
    call CheckHumanActor (checkHumanActor context) ;;
    mode <- lift (getMode (mode (inputs (baseOf context)))) ;;
    match context with
    | EntityContext entityContext => entityFlow githubToken mode context entityContext
    | AutomationContext _ => automationFlow githubToken mode context
    end.

Definition run : M unit :=
  tryCatch runBody
    (fun error =>
       let errorMessage := message error in
       emit (SetFailed (str "Prepare step failed with error: " +++ errorMessage)) ;;
       emit (SetOutput (str "prepare_error") errorMessage) ;;
       exit 1%Z).

End WithHost.

End Prepare.

(* ================================================================== *)
(** * Comment actor filter (github/data/fetcher.ts) *)

Module ActorFilter.

(** [new RegExp(source).test(subject)]: the regular-expression engine of
    the platform.  Constructing the expression can throw a SyntaxError. *)
Class RegExpEngine := { test : jsstring -> jsstring -> Completion bool }.

(** [s.split(",")] *)
Fixpoint splitComma (s : jsstring) : list jsstring :=
  match s with
  | [] => [[]]
  | c :: s' =>
      if c =? 44 then [] :: splitComma s'
      else match splitComma s' with
           | h :: t => (c :: h) :: t
           | [] => [[c]]
           end
  end.

Definition parseActorFilter (filterString : jsstring) : list jsstring :=
  if negb (truthy filterString) || JS.eqb (trim filterString) [] then []
  else filter (fun s => 0 <? N.of_nat (List.length s)) (map trim (splitComma filterString)).

(** [pattern.replace(/\*/g, ".*")] *)
Definition replaceStars (pattern : jsstring) : jsstring :=
  flat_map (fun c => if c =? 42 then str ".*" else [c]) pattern.

Section WithEngine.
Context `{RegExpEngine}.

(** One of the two loops of [shouldIncludeCommentByActor]: does some pattern
    of the list match the login? *)
Fixpoint matchesSome (actorLogin : jsstring) (patterns : list jsstring) : Completion bool :=
  match patterns with
  | [] => Normal false
  | pattern :: rest =>
      if includes (str "*") pattern then
        match test (str "^" +++ replaceStars pattern +++ str "$") actorLogin with
        | Throws e => Throws e
        | Normal true => Normal true
        | Normal false => matchesSome actorLogin rest
        end
      else if JS.eqb actorLogin pattern then Normal true
      else matchesSome actorLogin rest
  end.

Definition shouldIncludeCommentByActor (actorLogin : jsstring)
    (includePatterns excludePatterns : list jsstring) : Completion bool :=
  match matchesSome actorLogin excludePatterns with
  | Throws e => Throws e
  | Normal true => Normal false
  | Normal false =>
      if (N.of_nat (List.length includePatterns) =? 0) then Normal true
      else matchesSome actorLogin includePatterns
  end.

(** [comments.filter(keep)] with a predicate that may throw. *)
Fixpoint filterC {T} (keep : T -> Completion bool) (comments : list T) : Completion (list T) :=
  match comments with
  | [] => Normal []
  | c :: rest =>
      match keep c with
      | Throws e => Throws e
      | Normal b =>
          match filterC keep rest with
          | Throws e => Throws e
          | Normal kept => Normal (if b then c :: kept else kept)
          end
      end
  end.

Definition filterCommentsByActor {T} (login : T -> jsstring) (comments : list T)
    (includeActors excludeActors : jsstring) : Completion (list T) :=
  let includeParsed := parseActorFilter includeActors in
  let excludeParsed := parseActorFilter excludeActors in
  if (N.of_nat (List.length includeParsed) =? 0) && (N.of_nat (List.length excludeParsed) =? 0)
  then Normal comments
  else filterC (fun comment => shouldIncludeCommentByActor (login comment) includeParsed excludeParsed)
               comments.

End WithEngine.

(** ** The fragment of regular expressions the filter patterns produce

    A source [^ item ... item $] where an item is an atom, optionally
    starred, and an atom is [.], a bracket class or an ordinary character. *)

Inductive Atom :=
| AnyChar                                        (* [.] *)
| Class (negated : bool) (ranges : list (N * N)) (* [[...]], inclusive ranges *)
| Literal (c : N).

Inductive Item :=
| One (a : Atom)
| Many (a : Atom).                                (* [a*] *)

Definition isLineTerminator (c : N) : bool :=
  (c =? 10) || (c =? 13) || (c =? 8232) || (c =? 8233).

Definition atomMatches (a : Atom) (c : N) : bool :=
  match a with
  | AnyChar => negb (isLineTerminator c)
  | Class neg ranges =>
      xorb neg (existsb (fun r => (fst r <=? c) && (c <=? snd r)) ranges)
  | Literal x => c =? x
  end.

(** Does the whole subject match the item sequence? *)
Fixpoint matchItems (items : list Item) : jsstring -> bool :=
  match items with
  | [] => fun s => match s with [] => true | _ => false end
  | One a :: rest =>
      fun s => match s with
               | c :: s' => atomMatches a c && matchItems rest s'
               | [] => false
               end
  | Many a :: rest =>
      fix star (s : jsstring) : bool :=
        matchItems rest s ||
        match s with
        | c :: s' => atomMatches a c && star s'
        | [] => false
        end
  end.

(** Syntax characters; outside a class only [.], [*] and [[] are read. *)
Definition isSyntaxChar (c : N) : bool :=
  existsb (N.eqb c) (str "^$\.*+?()[]{}|").

(** The members of a bracket class up to the closing bracket, and the rest
    of the source.  Escapes inside a class are outside the fragment. *)
Fixpoint parseClass (src : jsstring) : option (list (N * N) * jsstring) :=
  match src with
  | [] => None
  | c :: rest =>
      if c =? 93 (* ] *) then Some ([], rest)
      else if c =? 92 (* \ *) then None
      else
        let single :=
          match parseClass rest with
          | Some (ranges, r) => Some ((c, c) :: ranges, r)
          | None => None
          end in
        match rest with
        | d :: hi :: rest' =>
            if (d =? 45) && negb (hi =? 93) then
              if (hi =? 92) || (hi <? c) then None
              else match parseClass rest' with
                   | Some (ranges, r) => Some ((c, hi) :: ranges, r)
                   | None => None
                   end
            else single
        | _ => single
        end
  end.

Definition parseAtom (src : jsstring) : option (Atom * jsstring) :=
  match src with
  | [] => None
  | c :: rest =>
      if c =? 46 (* . *) then Some (AnyChar, rest)
      else if c =? 91 (* [ *) then
        match rest with
        | 94 :: rest' =>
            match parseClass rest' with
            | Some (ranges, r) => Some (Class true ranges, r)
            | None => None
            end
        | _ =>
            match parseClass rest with
            | Some (ranges, r) => Some (Class false ranges, r)
            | None => None
            end
        end
      else if isSyntaxChar c then None
      else Some (Literal c, rest)
  end.

Fixpoint parseItems (fuel : nat) (src : jsstring) : option (list Item) :=
  match fuel with
  | O => None
  | S fuel' =>
      match src with
      | [] => Some []
      | _ =>
          match parseAtom src with
          | None => None
          | Some (a, rest) =>
              match rest with
              | 42 :: rest' => option_map (cons (Many a)) (parseItems fuel' rest')
              | _ => option_map (cons (One a)) (parseItems fuel' rest)
              end
          end
      end
  end.

(** A source [^body$]. *)
Definition parseSource (src : jsstring) : option (list Item) :=
  match src with
  | 94 :: body =>
      match rev body with
      | 36 :: ydob => parseItems (S (List.length body)) (rev ydob)
      | _ => None
      end
  | _ => None
  end.

(** The engine on the fragment.  A source outside the fragment is answered
    with a SyntaxError, which is what the platform does for some of them
    and not for others (groups, alternation, escapes); the results below
    only use sources inside the fragment. *)
#[local] Instance fragmentEngine : RegExpEngine :=
  {| test := fun source subject =>
       match parseSource source with
       | Some items => Normal (matchItems items subject)
       | None => Throws (mkErr (str "SyntaxError")
                               (str "Invalid regular expression: /" +++ source +++ str "/"))
       end |}.

End ActorFilter.
Import ActorFilter.

(* ================================================================== *)
(** * Vocabulary of the specification

    The conditions the specification names, stated on the string itself and
    independently of the helper functions of the implementation. *)

Module Spec.

Definition Prefix (p s : jsstring) : Prop := exists t, s = p ++ t.
Definition Suffix (p s : jsstring) : Prop := exists t, s = t ++ p.
Definition Infix (p s : jsstring) : Prop := exists a b, s = a ++ p ++ b.

Definition Alnum (c : N) : Prop :=
  (48 <= c /\ c <= 57) \/ (65 <= c /\ c <= 90) \/ (97 <= c /\ c <= 122).

(** A control character, a space, or one of [~^:?*[]\]. *)
Definition Unsafe (c : N) : Prop :=
  c <= 31 \/ c = 127 \/ c = 32 \/ In c (str "~^:?*[]\").

(** [^[A-Za-z0-9][A-Za-z0-9/_.-]*$] *)
Definition Whitelisted (s : jsstring) : Prop :=
  exists c rest, s = c :: rest /\ Alnum c /\
                 Forall (fun x => Alnum x \/ In x (str "/_.-")) rest.

(** The clauses of the validator's rejection list, one constructor each. *)
Inductive Malformed (s : jsstring) : Prop :=
| Blank : Forall (fun c => isWhiteSpace c = true) s -> Malformed s
| LeadingDash : Prefix (str "-") s -> Malformed s
| UnsafeChar : forall c, In c s -> Unsafe c -> Malformed s
| OffWhitelist : ~ Whitelisted s -> Malformed s
| LeadingDot : Prefix (str ".") s -> Malformed s
| TrailingDot : Suffix (str ".") s -> Malformed s
| TrailingSlash : Suffix (str "/") s -> Malformed s
| DoubleDot : Infix (str "..") s -> Malformed s
| DotLock : Suffix (str ".lock") s -> Malformed s
| AtBrace : Infix (str "@{") s -> Malformed s.

Definition Rejects (s : jsstring) : Prop := exists e, validateBranchName s = Throws e.
Definition Accepts (s : jsstring) : Prop := validateBranchName s = Normal tt.

End Spec.
Import Spec.

(* ================================================================== *)
(** * Concrete hosts

    Small hosts on which the programs can be run to a value. *)

Module Scenario.

(** A host without memory: every request is answered by a fixed function. *)
Definition scripted (answer : list jsstring -> Completion jsstring)
    (respond : HttpRequest -> Completion HttpResponse)
    (repository : Completion RepoData) : HostOps :=
  {| World := unit;
     git := fun args w => (answer args, w);
     fetch := fun req w => (respond req, w);
     getRepo := fun _ _ w => (repository, w) |}.

Definition created : HttpResponse :=
  {| ok := true; status := 201; text := Normal [];
     json := Normal {| number := str "1"; html_url := str "https://gitea.example/o/r/pulls/1" |} |}.

Definition mainRepo : RepoData := {| default_branch := str "main"; permissions := None |}.

(** Every git command exits with 0 and prints nothing; every request succeeds. *)
Definition obliging : HostOps :=
  scripted (fun _ => Normal []) (fun _ => Normal created) (Normal mainRepo).

(** No repository: every git command exits with 128. *)
Definition broken : HostOps :=
  scripted (fun _ => Throws (newError (str "fatal: not a git repository")))
           (fun _ => Normal created) (Normal mainRepo).

(** A repository without the branch asked for: [checkout] exits with 0,
    every other git command with a non-zero status. *)
Definition unborn : HostOps :=
  scripted (fun args =>
              match args with
              | c :: _ => if JS.eqb c (str "checkout") then Normal []
                          else Throws (newError (str "fatal: no such ref"))
              | [] => Throws (newError (str "usage: git"))
              end)
           (fun _ => Normal created) (Normal mainRepo).

(** A checkout that remembers where HEAD is: [Some b] on branch [b], [None]
    detached.  Checking out one of the [tags] detaches HEAD, as git does for a
    name that is not a branch; [branch --show-current] prints the branch, or
    nothing when detached; all commands exit with 0. *)
Definition tagged (tags : list jsstring) : HostOps :=
  {| World := option jsstring;
     git := fun args head =>
       match args with
       | [c; target] =>
           if JS.eqb c (str "checkout") then
             (Normal [], if existsb (JS.eqb target) tags then None else Some target)
           else if JS.eqb c (str "branch") && JS.eqb target (str "--show-current") then
             (Normal (match head with Some b => b ++ [10] | None => [] end), head)
           else (Normal [], head)
       | _ => (Normal [], head)
       end;
     fetch := fun _ head => (Normal created, head);
     getRepo := fun _ _ head => (Normal mainRepo, head) |}.

Definition start `{HostOps} (w : World) : State := mkState w [].

Definition env0 : Gateway.Env :=
  {| Gateway.REPO_OWNER := str "o"; Gateway.REPO_NAME := str "r";
     Gateway.BRANCH_NAME := str "main"; Gateway.GITHUB_TOKEN := Some (str "t");
     Gateway.GITEA_API_URL := str "https://gitea.example/api/v1";
     Gateway.CLAUDE_GIT_NAME := None; Gateway.CLAUDE_GIT_EMAIL := None |}.

Definition inputs0 : Inputs :=
  {| mode := str "tag"; triggerPhrase := str "@claude"; EventContext.baseBranch := None;
     allowedTools := []; includeCommentsByActor := []; excludeCommentsByActor := [] |}.

Definition base0 : BaseContext :=
  {| runId := str "1"; eventName := str "issue_comment";
     repository := {| owner := str "o"; repo := str "r" |};
     actor := str "tester"; inputs := inputs0 |}.

(** An event on pull request 7, with an optional base-branch override. *)
Definition prEvent (override : option jsstring) : ParsedGitHubContext :=
  {| common := {| runId := str "1"; eventName := str "issue_comment";
                  repository := {| owner := str "o"; repo := str "r" |};
                  actor := str "tester";
                  inputs := {| mode := str "tag"; triggerPhrase := str "@claude";
                               EventContext.baseBranch := override; allowedTools := [];
                               includeCommentsByActor := []; excludeCommentsByActor := [] |} |};
     entityNumber := 7; isPR := true |}.

Definition issueEvent (override : option jsstring) : ParsedGitHubContext :=
  {| common := common (prEvent override); entityNumber := 7; isPR := false |}.

Definition pullRequest (st base head : jsstring) : FetchDataResult :=
  {| contextData := {| state := st; baseRefName := base; headRefName := head |} |}.

(** The repository answers with explicit permissions. *)
Definition withPermissions (p : Permissions) : HostOps :=
  scripted (fun _ => Normal []) (fun _ => Normal created)
           (Normal {| default_branch := str "main"; permissions := Some p |}).

Definition readOnly : Permissions := {| admin := false; push := false; pull := true |}.
Definition writer : Permissions := {| admin := false; push := true; pull := true |}.

(** Collaborators of the prepare flow that all succeed: a comment on issue 7
    that contains the trigger phrase, in tag mode. *)
Definition agreeable (H : HostOps) : @Prepare.Collaborators H :=
  {| Prepare.setupGitHubToken := fun w => (Returned (str "t"), w);
     Prepare.parseGitHubContext := fun w => (Returned (EntityContext (issueEvent None)), w);
     Prepare.checkTriggerAction := fun _ w => (Returned true, w);
     Prepare.checkHumanActor := fun _ w => (Returned tt, w);
     Prepare.getMode := fun m =>
       Normal {| Prepare.modeName := m; Prepare.shouldCreateTrackingComment := true |};
     Prepare.createInitialComment := fun _ w => (Returned 42, w);
     Prepare.fetchGitHubData := fun _ w => (Returned (pullRequest (str "OPEN") [] []), w);
     Prepare.updateTrackingComment := fun _ _ _ w => (Returned tt, w);
     Prepare.createPrompt := fun _ _ _ _ w => (Returned tt, w);
     Prepare.prepareMcpConfig := fun _ _ w => (Returned (str "{}"), w) |}.

Definition penv0 : Prepare.ProcessEnv :=
  {| Prepare.GITHUB_REF_NAME := None; Prepare.GITHUB_HEAD_REF := None |}.

End Scenario.

(* ================================================================== *)
(** * Claims of the specification that the programs are checked against *)

Module Claims.
Import Gateway.

(** "Each handler validates every ref-like argument (§4.4)": a handler
    succeeds only on ref arguments the branch name validator accepts. *)
Definition GatewayDefersToValidator : Prop :=
  forall (H : HostOps) (env : Env) (s : State),
    (forall branch_name base_branch r s',
        create_branch branch_name base_branch s = (Returned r, s') ->
        isError r = false -> Accepts branch_name /\ Accepts base_branch) /\
    (forall branch_name c f r s',
        checkout_branch branch_name c f s = (Returned r, s') ->
        isError r = false -> Accepts branch_name) /\
    (forall title body base_branch head_branch r s',
        create_pull_request env title body base_branch (Some head_branch) s = (Returned r, s') ->
        isError r = false -> Accepts base_branch /\ Accepts head_branch).

End Claims.

(* ================================================================== *)
(** * Vocabulary for the branch lifecycle *)

Module Lifecycle.

(** The source branch of a run and the state in which it is known: the
    base-branch override when one is configured, else the default branch
    the repository query answers with. *)
Inductive ResolvesSource `{HostOps} (context : ParsedGitHubContext) (s : State)
  : jsstring -> State -> Prop :=
| FromOverride b :
    EventContext.baseBranch (inputs (common context)) = Some b -> b <> [] ->
    ResolvesSource context s b s
| FromRepository response w :
    EventContext.baseBranch (inputs (common context)) = None \/
    EventContext.baseBranch (inputs (common context)) = Some [] ->
    getRepo (owner (repository (common context))) (repo (repository (common context)))
            (world s) = (Normal response, w) ->
    ResolvesSource context s (default_branch response)
      (mkState w (log s ++ [GetRepo (owner (repository (common context)))
                                    (repo (repository (common context)))])).

(** The three commands of the shallow path on a branch. *)
Definition shallowPath (branch : jsstring) : list (list jsstring) :=
  [ [str "fetch"; str "origin"; str "--depth=1"; branch];
    [str "checkout"; branch];
    [str "pull"; str "origin"; branch] ].

(** The two commands that check out the head of an open pull request. *)
Definition headPath (branch : jsstring) : list (list jsstring) :=
  [ [str "fetch"; str "origin"; str "--depth=20"; branch];
    [str "checkout"; branch] ].

Section Continuation.
Context `{HostOps}.

(** The rest of [setupBranch] once the source branch is known. *)
Definition afterSource (githubData : FetchDataResult) (context : ParsedGitHubContext)
    (sourceBranch : jsstring) : M BranchInfo :=
  if isPR context then
    let prData := contextData githubData in
    let prState := state prData in
    if JS.eqb prState (str "CLOSED") || JS.eqb prState (str "MERGED") then
      sh_git [str "fetch"; str "origin"; str "--depth=1"; sourceBranch] ;;
      sh_git [str "checkout"; sourceBranch] ;;
      sh_git [str "pull"; str "origin"; sourceBranch] ;;
      ret {| baseBranch := sourceBranch; claudeBranch := None; currentBranch := sourceBranch |}
    else
      let branchName := headRefName prData in
      sh_git [str "fetch"; str "origin"; str "--depth=20"; branchName] ;;
      sh_git [str "checkout"; branchName] ;;
      let baseBranch := baseRefName prData in
      lift (validateBranchName baseBranch) ;;
      ret {| baseBranch := baseBranch; claudeBranch := None; currentBranch := branchName |}
  else
    tryCatch
      (sh_git [str "status"] ;;
       sh_git [str "fetch"; str "origin"; str "--depth=1"; sourceBranch] ;;
       sh_git [str "checkout"; sourceBranch] ;;
       sh_git [str "pull"; str "origin"; sourceBranch] ;;
       currentBranch <- sh_git [str "branch"; str "--show-current"] ;;
       let branchName := trim currentBranch in
       (if JS.eqb branchName sourceBranch then ret tt
        else throw (newError (str "Branch checkout failed. Expected " +++ sourceBranch +++
                              str ", got " +++ branchName))) ;;
       emit (SetOutput (str "BASE_BRANCH") sourceBranch) ;;
       ret {| baseBranch := sourceBranch; claudeBranch := None; currentBranch := sourceBranch |})
      (fun _ => exit 1%Z).

End Continuation.

Definition isClosed (st : jsstring) : Prop := st = str "CLOSED" \/ st = str "MERGED".

End Lifecycle.
Import Lifecycle.

(* ================================================================== *)
(** * Vocabulary for what a computation does to the host *)

Module Trace.
Import Gateway.

Section WithHost.
Context `{HostOps}.

(** Every event a run of [m] adds to the log satisfies [P], however the run
    ends. *)
Definition Emits {A} (P : Event -> Prop) (m : M A) : Prop :=
  forall s o s', m s = (o, s') -> exists new, log s' = log s ++ new /\ Forall P new.

End WithHost.

(** A git command of the branch tools, on a ref that matches the server's
    pattern. *)
Definition OnCheckedRef (e : Event) : Prop :=
  exists ref,
    refPattern ref = true /\
    (e = Git [str "checkout"; ref] \/
     e = Git [str "pull"; str "origin"; ref] \/
     e = Git [str "checkout"; str "-b"; ref] \/
     e = Git [str "rev-parse"; str "--verify"; ref] \/
     e = Git [str "fetch"; str "origin"; ref ++ str ":" ++ ref]).

(** The two commands that only read the state of the checkout. *)
Definition ReadsStatus (e : Event) : Prop :=
  e = Git [str "status"; str "--porcelain"] \/
  e = Git [str "rev-parse"; str "--abbrev-ref"; str "HEAD"].



Definition revParseHead : Event := Git [str "rev-parse"; str "--abbrev-ref"; str "HEAD"].

Definition pushCommand (force : bool) (branch : jsstring) : Event :=
  if force then Git [str "push"; str "-f"; str "origin"; branch]
  else Git [str "push"; str "origin"; branch].

End Trace.
Import Trace.

Module PullRequestSpec.
Import Gateway.

(** What [create_pull_request] may do: ask git for the current branch, and
    post to the pulls endpoint of the configured repository with the
    configured token and the title, body and base it was given. *)
Definition PullRequestTraffic (env : Env) (title body base_branch : jsstring) (e : Event) : Prop :=
  e = revParseHead \/
  exists token head_branch,
    GITHUB_TOKEN env = Some token /\ token <> [] /\
    e = Http (pullsRequest env token title body base_branch head_branch).

End PullRequestSpec.
Import PullRequestSpec.

Module PrepareSpec.

(** Events of a run that touches neither the checkout nor the entity: no
    git command, no tracking comment, no data fetch, no branch setup. *)
Definition Headless (e : Event) : Prop :=
  match e with
  | Git _ => False
  | Call CreateInitialComment | Call FetchGitHubData
  | Call SetupBranch | Call UpdateTrackingComment => False
  | _ => True
  end.

End PrepareSpec.
Import PrepareSpec.

(* ================================================================== *)
(** * Further concrete hosts and collaborators *)

Module Cases.
Import Scenario.

(** As [agreeable], but the trigger phrase is absent. *)
Definition untriggered (H : HostOps) : @Prepare.Collaborators H :=
  {| Prepare.setupGitHubToken := fun w => (Returned (str "t"), w);
     Prepare.parseGitHubContext := fun w => (Returned (EntityContext (issueEvent None)), w);
     Prepare.checkTriggerAction := fun _ w => (Returned false, w);
     Prepare.checkHumanActor := fun _ w => (Returned tt, w);
     Prepare.getMode := fun m =>
       Normal {| Prepare.modeName := m; Prepare.shouldCreateTrackingComment := true |};
     Prepare.createInitialComment := fun _ w => (Returned 42, w);
     Prepare.fetchGitHubData := fun _ w => (Returned (pullRequest (str "OPEN") [] []), w);
     Prepare.updateTrackingComment := fun _ _ _ w => (Returned tt, w);
     Prepare.createPrompt := fun _ _ _ _ w => (Returned tt, w);
     Prepare.prepareMcpConfig := fun _ _ w => (Returned (str "{}"), w) |}.

Definition nightly : BaseContext :=
  {| runId := str "1"; eventName := str "schedule";
     repository := {| owner := str "o"; repo := str "r" |};
     actor := str "scheduler"; inputs := inputs0 |}.

(** As [agreeable], but the event is a schedule. *)
Definition scheduled (H : HostOps) : @Prepare.Collaborators H :=
  {| Prepare.setupGitHubToken := fun w => (Returned (str "t"), w);
     Prepare.parseGitHubContext := fun w => (Returned (AutomationContext nightly), w);
     Prepare.checkTriggerAction := fun _ w => (Returned true, w);
     Prepare.checkHumanActor := fun _ w => (Returned tt, w);
     Prepare.getMode := fun m =>
       Normal {| Prepare.modeName := m; Prepare.shouldCreateTrackingComment := true |};
     Prepare.createInitialComment := fun _ w => (Returned 42, w);
     Prepare.fetchGitHubData := fun _ w => (Returned (pullRequest (str "OPEN") [] []), w);
     Prepare.updateTrackingComment := fun _ _ _ w => (Returned tt, w);
     Prepare.createPrompt := fun _ _ _ _ w => (Returned tt, w);
     Prepare.prepareMcpConfig := fun _ _ w => (Returned (str "{}"), w) |}.



End Cases.

(* ================================================================== *)
(** * Parsing of the action inputs (github/context.ts) *)

Module InputParsing.

(** [s.split(sep)] for a separator of one code unit. *)
Fixpoint splitOn (sep : N) (s : jsstring) : list jsstring :=
  match s with
  | [] => [[]]
  | c :: s' =>
      if c =? sep then [] :: splitOn sep s'
      else match splitOn sep s' with
           | piece :: pieces => (c :: piece) :: pieces
           | [] => [[c]]
           end
  end.

Definition isNewline (c : N) : bool := (c =? 10) || (c =? 13).

(** [s.split(/,|[\n\r]+/)]: a comma separates, and so does a whole run of
    line feeds and carriage returns; [afterNewline] says that such a run is
    being read. *)
Fixpoint splitItems (afterNewline : bool) (s : jsstring) : list jsstring :=
  match s with
  | [] => [[]]
  | c :: rest =>
      if isNewline c then
        if afterNewline then splitItems true rest else [] :: splitItems true rest
      else if c =? 44 then [] :: splitItems false rest
      else match splitItems false rest with
           | piece :: pieces => (c :: piece) :: pieces
           | [] => [[c]]
           end
  end.

(** [tool.replace(/#.+$/, "")]: the text is cut at the first [#] that is
    followed, up to the end, by at least one character and by no line
    terminator. *)
Fixpoint stripComment (tool : jsstring) : jsstring :=
  match tool with
  | [] => []
  | c :: rest =>
      if (c =? 35) && truthy rest && forallb (fun x => negb (isLineTerminator x)) rest
      then []
      else c :: stripComment rest
  end.

Definition parseMultilineInput (s : jsstring) : list jsstring :=
  filter (fun tool => 0 <? N.of_nat (List.length tool))
         (map trim (map stripComment (splitItems false s))).

(** A [Map<string, string>]: the bindings in insertion order. *)
Definition StringMap := list (jsstring * jsstring).

(** [map.set(key, value)]: an existing key keeps its place. *)
Fixpoint mapSet (key value : jsstring) (m : StringMap) : StringMap :=
  match m with
  | [] => [(key, value)]
  | (k, v) :: rest =>
      if JS.eqb k key then (k, value) :: rest else (k, v) :: mapSet key value rest
  end.

(** [map.get(key)] *)
Fixpoint mapGet (key : jsstring) (m : StringMap) : option jsstring :=
  match m with
  | [] => None
  | (k, v) :: rest => if JS.eqb k key then Some v else mapGet key rest
  end.

(** The body of the loop of [parseAdditionalPermissions] for one line. *)
Definition addPermissionLine (permissions : StringMap) (line : jsstring) : StringMap :=
  let trimmedLine := trim line in
  if truthy trimmedLine then
    match map trim (splitOn 58 trimmedLine) with
    | key :: value :: _ =>
        if truthy key && truthy value then mapSet key value permissions else permissions
    | _ => permissions
    end
  else permissions.

Definition parseAdditionalPermissions (s : jsstring) : StringMap :=
  if negb (truthy s) || negb (truthy (trim s)) then []
  else fold_left addPermissionLine (splitOn 10 (trim s)) [].

End InputParsing.
Import InputParsing.

Module TextSpec.

(** No whitespace at either end. *)
Definition NoOuterSpace (s : jsstring) : Prop :=
  (forall c rest, s = c :: rest -> isWhiteSpace c = false) /\
  (forall c front, s = front ++ [c] -> isWhiteSpace c = false).

(** An item of a list input: not empty, no whitespace around it, and none
    of the characters that separate items or start a comment. *)
Definition CleanItem (s : jsstring) : Prop :=
  s <> [] /\ NoOuterSpace s /\
  ~ In 44 s /\ ~ In 10 s /\ ~ In 13 s /\ ~ In 35 s.

End TextSpec.
Import TextSpec.

Module PermissionSpec.

(** A key or a value of a permission line: not empty, no whitespace around
    it, no colon and no line feed. *)
Definition CleanWord (s : jsstring) : Prop :=
  s <> [] /\ NoOuterSpace s /\ ~ In 58 s /\ ~ In 10 s.

(** The line [key:value]. *)
Definition permissionLine (binding : jsstring * jsstring) : jsstring :=
  fst binding ++ [58] ++ snd binding.

(** [NoOuterSpace], decided. *)
Definition noOuterSpaceb (s : jsstring) : bool :=
  match s with
  | [] => true
  | c :: _ => negb (isWhiteSpace c) && negb (isWhiteSpace (last s c))
  end.

(** What the parser keeps as it reads the lines. *)
Definition WellFormed (m : StringMap) : Prop :=
  NoDup (map fst m) /\
  forall key value, In (key, value) m -> CleanWord key /\ CleanWord value.

End PermissionSpec.
Import PermissionSpec.

(* ================================================================== *)
(** * Parsing the event context (github/context.ts) *)

Module ContextParsing.

(** The variables of [process.env] that [parseGitHubContext] reads. *)
Record ProcessEnv :=
  { MODE : option jsstring;
    GITHUB_RUN_NUMBER : option jsstring;
    TRIGGER_PHRASE : option jsstring;
    ASSIGNEE_TRIGGER : option jsstring;
    LABEL_TRIGGER : option jsstring;
    ALLOWED_TOOLS : option jsstring;
    DISALLOWED_TOOLS : option jsstring;
    CUSTOM_INSTRUCTIONS : option jsstring;
    DIRECT_PROMPT : option jsstring;
    OVERRIDE_PROMPT : option jsstring;
    BASE_BRANCH : option jsstring;
    BRANCH_PREFIX : option jsstring;
    BRANCH_NAME_TEMPLATE : option jsstring;
    USE_STICKY_COMMENT : option jsstring;
    ADDITIONAL_PERMISSIONS : option jsstring;
    USE_COMMIT_SIGNING : option jsstring;
    INCLUDE_COMMENTS_BY_ACTOR : option jsstring;
    EXCLUDE_COMMENTS_BY_ACTOR : option jsstring }.

(** The parts of the webhook payload that are read. *)
Record IssueLinks := { url : jsstring }.
Record Issue := { issue_number : N; issue_pull_request : option IssueLinks }.
Record PullRequest := { pull_number : N }.
Record Payload :=
  { action : option jsstring; issue : option Issue; pull_request : option PullRequest }.

(** [github.context] *)
Record ActionContext :=
  { ctx_eventName : jsstring; payload : Payload;
    repo_owner : jsstring; repo_repo : jsstring; ctx_actor : jsstring }.

Record CommonInputs :=
  { mode : jsstring;
    triggerPhrase : jsstring;
    assigneeTrigger : jsstring;
    labelTrigger : jsstring;
    allowedTools : list jsstring;
    disallowedTools : list jsstring;
    customInstructions : jsstring;
    directPrompt : jsstring;
    overridePrompt : jsstring;
    baseBranch : option jsstring;
    branchPrefix : jsstring;
    branchNameTemplate : option jsstring;
    useStickyComment : bool;
    additionalPermissions : StringMap;
    useCommitSigning : bool;
    includeCommentsByActor : jsstring;
    excludeCommentsByActor : jsstring }.

Record RepositoryName := { owner : jsstring; repo : jsstring; full_name : jsstring }.

Record BaseContext :=
  { runId : option jsstring; eventAction : option jsstring;
    repository : RepositoryName; actor : jsstring; inputs : CommonInputs }.

(** The two shapes of the object returned: only the first has the keys
    [entityNumber] and [isPR]. *)
Inductive GitHubContext :=
| Parsed (commonFields : BaseContext) (eventName : jsstring) (payload : Payload)
         (entityNumber : N) (isPR : bool)
| Automation (commonFields : BaseContext) (eventName : jsstring) (payload : Payload).

Definition eventName (context : GitHubContext) : jsstring :=
  match context with
  | Parsed _ name _ _ _ => name
  | Automation _ name _ => name
  end.


(** [a ?? b] *)
Definition nullish {A} (a : option A) (b : A) : A :=
  match a with Some x => x | None => b end.

(** [a === "true"] for a variable of the environment *)
Definition isTrue (a : option jsstring) : bool :=
  match a with Some x => JS.eqb x (str "true") | None => false end.

(** [Boolean(x)] for an object or [undefined] *)
Definition Boolean {A} (x : option A) : bool :=
  match x with Some _ => true | None => false end.



Section WithRegistry.
(** [modes/registry] and the text of the engine's TypeError for reading the
    property [number] of [undefined]. *)
Variable DEFAULT_MODE : jsstring.
Variable isValidMode : jsstring -> bool.
Variable undefinedRead : jsstring.

(** Reading [.number] of a part of the payload that may be missing. *)
Definition numberOf {A} (part : option A) (number : A -> N) : Completion N :=
  match part with
  | Some p => Normal (number p)
  | None => Throws (mkErr (str "TypeError") undefinedRead)
  end.

Definition withNumber (part : Completion N) (k : N -> GitHubContext)
  : Completion GitHubContext :=
  match part with
  | Normal n => Normal (k n)
  | Throws e => Throws e
  end.

Definition parseGitHubContext (env : ProcessEnv) (context : ActionContext)
  : Completion GitHubContext :=
  let modeInput := nullish (MODE env) DEFAULT_MODE in
  if negb (isValidMode modeInput) then
    Throws (newError (str "Invalid mode: " ++ modeInput ++ str "."))
  else
    let commonFields :=
      {| runId := GITHUB_RUN_NUMBER env;
         eventAction := action (payload context);
         repository :=
           {| owner := repo_owner context;
              repo := repo_repo context;
              full_name := repo_owner context ++ str "/" ++ repo_repo context |};
         actor := ctx_actor context;
         inputs :=
           {| mode := modeInput;
              triggerPhrase := nullish (TRIGGER_PHRASE env) (str "@claude");
              assigneeTrigger := nullish (ASSIGNEE_TRIGGER env) [];
              labelTrigger := nullish (LABEL_TRIGGER env) [];
              allowedTools := parseMultilineInput (nullish (ALLOWED_TOOLS env) []);
              disallowedTools := parseMultilineInput (nullish (DISALLOWED_TOOLS env) []);
              customInstructions := nullish (CUSTOM_INSTRUCTIONS env) [];
              directPrompt := nullish (DIRECT_PROMPT env) [];
              overridePrompt := nullish (OVERRIDE_PROMPT env) [];
              baseBranch := BASE_BRANCH env;
              branchPrefix := nullish (BRANCH_PREFIX env) (str "claude/");
              branchNameTemplate := BRANCH_NAME_TEMPLATE env;
              useStickyComment := isTrue (USE_STICKY_COMMENT env);
              additionalPermissions :=
                parseAdditionalPermissions (nullish (ADDITIONAL_PERMISSIONS env) []);
              useCommitSigning := isTrue (USE_COMMIT_SIGNING env);
              includeCommentsByActor := nullish (INCLUDE_COMMENTS_BY_ACTOR env) [];
              excludeCommentsByActor := nullish (EXCLUDE_COMMENTS_BY_ACTOR env) [] |} |} in
    let name := ctx_eventName context in
    if JS.eqb name (str "issues") then
      withNumber (numberOf (issue (payload context)) issue_number)
        (fun number => Parsed commonFields name (payload context) number false)
    else if JS.eqb name (str "issue_comment") then
      withNumber (numberOf (issue (payload context)) issue_number)
        (fun number =>
           Parsed commonFields name (payload context) number
             (Boolean (match issue (payload context) with
                       | Some i => issue_pull_request i
                       | None => None
                       end)))
    else if JS.eqb name (str "pull_request") then
      withNumber (numberOf (pull_request (payload context)) pull_number)
        (fun number => Parsed commonFields name (payload context) number true)
    else if JS.eqb name (str "pull_request_review") then
      withNumber (numberOf (pull_request (payload context)) pull_number)
        (fun number => Parsed commonFields name (payload context) number true)
    else if JS.eqb name (str "pull_request_review_comment") then
      withNumber (numberOf (pull_request (payload context)) pull_number)
        (fun number => Parsed commonFields name (payload context) number true)
    else if JS.eqb name (str "workflow_run") then
      Normal (Automation commonFields (str "workflow_run") (payload context))
    else if JS.eqb name (str "workflow_dispatch") then
      Normal (Automation commonFields (str "workflow_dispatch") (payload context))
    else if JS.eqb name (str "schedule") then
      Normal (Automation commonFields (str "schedule") (payload context))
    else
      Throws (newError (str "Unsupported event type: " ++ name)).

End WithRegistry.


End ContextParsing.

(* ================================================================== *)
(** * The tracking comment (operations/comments/create-initial.ts) *)

Module InitialComment.

(** [response.data.id] is all that is read of a response. *)
Record Response := { data_id : N }.

(** [context.payload.comment] of a review-comment event. *)
Record ReviewComment := { comment_id : N }.

(** The calls that leave the function, in the order they are made.  The
    lines written to the console are not part of the model. *)
Inductive ApiCall :=
| CustomRequest (method path body : jsstring)
| CreateIssueComment (owner repo : jsstring) (number : N) (body : jsstring)
| UpdateIssueComment (owner repo : jsstring) (commentId : N) (body : jsstring)
| AppendFileSync (path data : jsstring).

(** The client of the forge and the file system: each operation answers
    and moves the store on. *)
Class GiteaApiClient :=
  { Store : Type;
    customRequest : jsstring -> jsstring -> jsstring -> Store -> Completion Response * Store;
    createIssueComment :
      jsstring -> jsstring -> N -> jsstring -> Store -> Completion Response * Store;
    updateIssueComment :
      jsstring -> jsstring -> N -> jsstring -> Store -> Completion unit * Store;
    appendFileSync : jsstring -> jsstring -> Store -> Completion unit * Store }.

Section WithClient.
Context `{GiteaApiClient}.

(** The store and the calls made so far. *)
Definition Session : Type := Store * list ApiCall.

Definition Run (A : Type) : Type := Session -> Completion A * Session.

Definition done {A} (a : A) : Run A := fun s => (Normal a, s).

Definition raise {A} (e : Error) : Run A := fun s => (Throws e, s).

Definition andThen {A B} (m : Run A) (k : A -> Run B) : Run B :=
  fun s => match m s with
           | (Normal a, s') => k a s'
           | (Throws e, s') => (Throws e, s')
           end.

(** [try { m } catch (error) { handler(error) }] *)
Definition catch {A} (m : Run A) (handler : Error -> Run A) : Run A :=
  fun s => match m s with
           | (Normal a, s') => (Normal a, s')
           | (Throws e, s') => handler e s'
           end.

(** One call: it is recorded, then answered. *)
Definition perform {A} (c : ApiCall) (op : Store -> Completion A * Store) : Run A :=
  fun s => let (r, w) := op (fst s) in (r, (w, snd s ++ [c])).

(** [./common] and the messages of the engine's two TypeErrors. *)
Variable createJobRunLink : jsstring -> jsstring -> jsstring -> jsstring.
Variable createCommentBody : jsstring -> jsstring.
Variable undefinedRead : jsstring.
Variable invalidPath : jsstring.

Definition PREVIEW_PLACEHOLDER : jsstring := str "Claude Code is working on a response.".

Definition repliesPath (owner repo : jsstring) (entityNumber commentId : N) : jsstring :=
  str "/repos/" ++ owner ++ str "/" ++ repo ++ str "/pulls/" ++ of_N entityNumber ++
  str "/comments/" ++ of_N commentId ++ str "/replies".

Definition outputLine (commentId : N) : jsstring :=
  str "claude_comment_id=" ++ of_N commentId ++ [10].

(** [appendFileSync(process.env.GITHUB_OUTPUT!, ...)]: without the variable
    the path is [undefined], which the call refuses. *)
Definition appendOutput (GITHUB_OUTPUT : option jsstring) (commentId : N) : Run unit :=
  match GITHUB_OUTPUT with
  | Some githubOutput =>
      perform (AppendFileSync githubOutput (outputLine commentId))
              (appendFileSync githubOutput (outputLine commentId))
  | None => raise (mkErr (str "TypeError") invalidPath)
  end.

(** The body of the outer [try]. *)
Definition firstAttempt (GITHUB_OUTPUT : option jsstring)
    (context : ParsedGitHubContext) (comment : option ReviewComment) : Run N :=
  let owner := owner (repository (common context)) in
  let repo := repo (repository (common context)) in
  let workingBody := createCommentBody (createJobRunLink owner repo (runId (common context))) in
  andThen
    (if JS.eqb (eventName (common context)) (str "pull_request_review_comment") then
       match comment with
       | Some c =>
           let path := repliesPath owner repo (entityNumber context) (comment_id c) in
           perform (CustomRequest (str "POST") path PREVIEW_PLACEHOLDER)
                   (customRequest (str "POST") path PREVIEW_PLACEHOLDER)
       | None => raise (mkErr (str "TypeError") undefinedRead)
       end
     else
       perform (CreateIssueComment owner repo (entityNumber context) PREVIEW_PLACEHOLDER)
               (createIssueComment owner repo (entityNumber context) PREVIEW_PLACEHOLDER))
    (fun response =>
       let commentId := data_id response in
       andThen (perform (UpdateIssueComment owner repo commentId workingBody)
                        (updateIssueComment owner repo commentId workingBody))
         (fun _ => andThen (appendOutput GITHUB_OUTPUT commentId) (fun _ => done commentId))).

(** The body of the [try] inside the [catch]. *)
Definition fallback (GITHUB_OUTPUT : option jsstring) (context : ParsedGitHubContext) : Run N :=
  let owner := owner (repository (common context)) in
  let repo := repo (repository (common context)) in
  let workingBody := createCommentBody (createJobRunLink owner repo (runId (common context))) in
  andThen
    (perform (CreateIssueComment owner repo (entityNumber context) PREVIEW_PLACEHOLDER)
             (createIssueComment owner repo (entityNumber context) PREVIEW_PLACEHOLDER))
    (fun response =>
       let commentId := data_id response in
       andThen (catch (perform (UpdateIssueComment owner repo commentId workingBody)
                               (updateIssueComment owner repo commentId workingBody))
                      (fun _ => done tt))
         (fun _ => andThen (appendOutput GITHUB_OUTPUT commentId) (fun _ => done commentId))).

Definition createInitialComment (GITHUB_OUTPUT : option jsstring)
    (context : ParsedGitHubContext) (comment : option ReviewComment) : Run N :=
  catch (firstAttempt GITHUB_OUTPUT context comment)
        (fun error =>
           catch (fallback GITHUB_OUTPUT context) (fun fallbackError => raise fallbackError)).

End WithClient.

(** Calls that create a comment. *)
Definition creates (c : ApiCall) : bool :=
  match c with
  | CustomRequest _ _ _ | CreateIssueComment _ _ _ _ => true
  | _ => false
  end.

(** The calls [createInitialComment] may make for a context. *)
Definition Expected (GITHUB_OUTPUT : option jsstring) (context : ParsedGitHubContext)
    (comment : option ReviewComment) (c : ApiCall) : Prop :=
  let owner := owner (repository (common context)) in
  let repo := repo (repository (common context)) in
  match c with
  | CustomRequest method path body =>
      eventName (common context) = str "pull_request_review_comment" /\
      method = str "POST" /\ body = PREVIEW_PLACEHOLDER /\
      exists r, comment = Some r /\
                path = repliesPath owner repo (entityNumber context) (comment_id r)
  | CreateIssueComment o r number body =>
      o = owner /\ r = repo /\ number = entityNumber context /\ body = PREVIEW_PLACEHOLDER
  | UpdateIssueComment o r _ _ => o = owner /\ r = repo
  | AppendFileSync path data =>
      GITHUB_OUTPUT = Some path /\ exists commentId, data = outputLine commentId
  end.

(** [response] is what the client answered to the creating call [c]. *)
Definition Created `{GiteaApiClient} (c : ApiCall) (response : Response) : Prop :=
  exists w w',
    match c with
    | CustomRequest method path body =>
        customRequest method path body w = (Normal response, w')
    | CreateIssueComment owner repo number body =>
        createIssueComment owner repo number body w = (Normal response, w')
    | _ => False
    end.

(** A client that numbers the comments as it creates them and refuses to
    edit comment 1. *)
Definition flaky : GiteaApiClient :=
  {| Store := N;
     customRequest := fun _ _ _ next => (Normal {| data_id := next |}, next + 1);
     createIssueComment := fun _ _ _ _ next => (Normal {| data_id := next |}, next + 1);
     updateIssueComment := fun _ _ commentId _ next =>
       (if commentId =? 1 then Throws (newError (str "comment is locked")) else Normal tt,
        next);
     appendFileSync := fun _ _ next => (Normal tt, next) |}.

(** Stand-ins for the two functions of [./common]. *)
Definition sampleLink (owner repo runId : jsstring) : jsstring :=
  owner ++ str "/" ++ repo ++ str "#" ++ runId.

Definition sampleBody (jobRunLink : jsstring) : jsstring := str "Working: " ++ jobRunLink.

End InitialComment.

(* ================================================================== *)
(** * Fetching the entity data (github/data/fetcher.ts) *)

Module Fetcher.

(** ** What the forge answers

    The answers carry the fields their types declare; a field that may be
    missing or null is an option. *)

Record User := { login : jsstring }.

(** [prResponse.data] *)
Record PullRequestData :=
  { pd_title : jsstring; pd_body : option jsstring; pd_user : option User;
    pd_base_ref : jsstring; pd_head_ref : jsstring; pd_head_sha : jsstring;
    pd_created_at : jsstring; pd_additions : option N; pd_deletions : option N;
    pd_state : jsstring }.

(** [issueResponse.data] *)
Record IssueData :=
  { is_title : jsstring; is_body : option jsstring; is_user : option User;
    is_created_at : jsstring; is_state : jsstring }.

(** An element of [commentsResponse.data] *)
Record CommentData :=
  { cd_id : N; cd_body : option jsstring; cd_user : option User; cd_created_at : jsstring }.

(** An element of [filesResponse.data] *)
Record FileData :=
  { filename : jsstring; fd_additions : option N; fd_deletions : option N;
    fd_status : option jsstring }.

(** ** What the function returns *)

Record GitHubComment :=
  { id : jsstring; databaseId : jsstring; body : jsstring; author : User;
    createdAt : jsstring }.

Record GitHubFile :=
  { path : jsstring; additions : N; deletions : N; changeType : jsstring }.

Record GitHubFileWithSHA := { file : GitHubFile; sha : jsstring }.

Record ReviewCommentNode := { rc_databaseId : jsstring; rc_body : jsstring }.

Record GitHubReview :=
  { rv_databaseId : jsstring; rv_body : jsstring; rv_comments : option (list ReviewCommentNode) }.

(** [contextData]; the collections of a pull request are the constants the
    source writes ([totalCount: 0], [nodes: []]). *)
Inductive ContextData :=
| GitHubPullRequest (title body : jsstring) (author : User)
    (baseRefName headRefName headRefOid createdAt : jsstring) (additions deletions : N)
    (state : jsstring) (commitsTotalCount : N)
    (commitsNodes filesNodes commentsNodes reviewsNodes : list unit)
| GitHubIssue (title body : jsstring) (author : User) (createdAt state : jsstring)
    (commentsNodes : list unit).

Definition bodyOf (contextData : ContextData) : jsstring :=
  match contextData with
  | GitHubPullRequest _ body _ _ _ _ _ _ _ _ _ _ _ _ _ => body
  | GitHubIssue _ body _ _ _ _ => body
  end.

Inductive CommentWithImages :=
| issue_comment (id body : jsstring)
| review_body (id pullNumber body : jsstring)
| review_comment (id body : jsstring)
| pr_body (pullNumber body : jsstring)
| issue_body (issueNumber body : jsstring).

Record FetchDataResult :=
  { contextData : ContextData;
    comments : list GitHubComment;
    changedFiles : list GitHubFile;
    changedFilesWithSHA : list GitHubFileWithSHA;
    reviewData : option (list GitHubReview);
    imageUrlMap : StringMap }.

Record FetchDataParams :=
  { repository : jsstring; prNumber : jsstring; isPR : bool;
    includeCommentsByActor : option jsstring; excludeCommentsByActor : option jsstring }.

(** [x || 0] for a count that may be missing *)
Definition orZero (x : option N) : N := match x with Some n => n | None => 0 end.

(** [user?.login || ""] *)
Definition loginOf (user : option User) : jsstring :=
  match user with Some u => login u | None => [] end.

(** A parameter with the default value [""] *)
Definition orEmpty (x : option jsstring) : jsstring :=
  match x with Some s => s | None => [] end.

Section WithClient.
(** The built-ins [parseInt] and [String.prototype.toUpperCase], and the
    regular expressions of the platform. *)
Variable Number : Type.
Variable parseInt : jsstring -> Number.
Variable toUpperCase : jsstring -> jsstring.
Context `{RegExpEngine}.

(** The client of the forge, [git hash-object] and the image downloader. *)
Class GitHubClient :=
  { Store : Type;
    getPullRequest : jsstring -> jsstring -> Number -> Store -> Completion PullRequestData * Store;
    getIssue : jsstring -> jsstring -> Number -> Store -> Completion IssueData * Store;
    listIssueComments :
      jsstring -> jsstring -> Number -> Store -> Completion (list CommentData) * Store;
    listPullRequestFiles :
      jsstring -> jsstring -> Number -> Store -> Completion (list FileData) * Store;
    hashObject : jsstring -> Store -> Completion jsstring * Store;
    downloadCommentImages :
      jsstring -> jsstring -> list CommentWithImages -> Store -> Completion StringMap * Store }.

Context `{GitHubClient}.

Definition Fetch (A : Type) : Type := Store -> Completion A * Store.

Definition unit_ {A} (a : A) : Fetch A := fun w => (Normal a, w).

Definition fail {A} (e : Error) : Fetch A := fun w => (Throws e, w).

Definition seq {A B} (m : Fetch A) (k : A -> Fetch B) : Fetch B :=
  fun w => match m w with
           | (Normal a, w') => k a w'
           | (Throws e, w') => (Throws e, w')
           end.

(** [try { m } catch (error) { handler(error) }] *)
Definition attempt {A} (m : Fetch A) (handler : Error -> Fetch A) : Fetch A :=
  fun w => match m w with
           | (Normal a, w') => (Normal a, w')
           | (Throws e, w') => handler e w'
           end.

(** A pure computation that may throw, inside the effects. *)
Definition pure {A} (c : Completion A) : Fetch A := fun w => (c, w).

(** [items.map(f)] for an [f] with effects. *)
Fixpoint mapFetch {A B} (f : A -> Fetch B) (items : list A) : Fetch (list B) :=
  match items with
  | [] => unit_ []
  | x :: rest => seq (f x) (fun y => seq (mapFetch f rest) (fun ys => unit_ (y :: ys)))
  end.

Definition toComment (comment : CommentData) : GitHubComment :=
  {| id := of_N (cd_id comment);
     databaseId := of_N (cd_id comment);
     body := Gateway.orElse (cd_body comment) [];
     author := {| login := loginOf (cd_user comment) |};
     createdAt := cd_created_at comment |}.

Definition toFile (f : FileData) : GitHubFile :=
  {| path := filename f;
     additions := orZero (fd_additions f);
     deletions := orZero (fd_deletions f);
     changeType := Gateway.orElse (fd_status f) (str "modified") |}.

(** The comments of the entity, filtered; any failure gives the empty list. *)
Definition fetchComments (owner repo : jsstring) (params : FetchDataParams)
  : Fetch (list GitHubComment) :=
  attempt
    (seq (listIssueComments owner repo (parseInt (prNumber params)))
       (fun commentsResponse =>
          pure (filterCommentsByActor (fun c => login (author c))
                  (map toComment commentsResponse)
                  (orEmpty (includeCommentsByActor params))
                  (orEmpty (excludeCommentsByActor params)))))
    (fun error => unit_ []).

Definition fetchFiles (owner repo : jsstring) (params : FetchDataParams)
  : Fetch (list GitHubFile) :=
  attempt
    (seq (listPullRequestFiles owner repo (parseInt (prNumber params)))
       (fun filesResponse => unit_ (map toFile filesResponse)))
    (fun error => unit_ []).

(** The values the outer [try] leaves in [contextData], [comments],
    [changedFiles] and [reviewData]. *)
Definition fetchEntity (owner repo : jsstring) (params : FetchDataParams)
  : Fetch (option ContextData * list GitHubComment * list GitHubFile *
           option (list GitHubReview)) :=
  if isPR params then
    seq (getPullRequest owner repo (parseInt (prNumber params)))
      (fun prResponse =>
         let contextData :=
           GitHubPullRequest (pd_title prResponse) (Gateway.orElse (pd_body prResponse) [])
             {| login := loginOf (pd_user prResponse) |}
             (pd_base_ref prResponse) (pd_head_ref prResponse) (pd_head_sha prResponse)
             (pd_created_at prResponse) (orZero (pd_additions prResponse))
             (orZero (pd_deletions prResponse)) (toUpperCase (pd_state prResponse))
             0 [] [] [] [] in
         seq (fetchComments owner repo params)
           (fun comments =>
              seq (fetchFiles owner repo params)
                (fun changedFiles =>
                   unit_ (Some contextData, comments, changedFiles, Some []))))
  else
    seq (getIssue owner repo (parseInt (prNumber params)))
      (fun issueResponse =>
         let contextData :=
           GitHubIssue (is_title issueResponse) (Gateway.orElse (is_body issueResponse) [])
             {| login := loginOf (is_user issueResponse) |}
             (is_created_at issueResponse) (toUpperCase (is_state issueResponse)) [] in
         seq (fetchComments owner repo params)
           (fun comments => unit_ (Some contextData, comments, [], None))).

(** [git hash-object -- path], trimmed; [unknown] when the command fails. *)
Definition withSHA (f : GitHubFile) : Fetch GitHubFileWithSHA :=
  attempt
    (seq (hashObject (path f)) (fun out => unit_ {| file := f; sha := trim out |}))
    (fun error => unit_ {| file := f; sha := str "unknown" |}).

Definition reviewNodes (reviewData : option (list GitHubReview)) : list GitHubReview :=
  match reviewData with Some nodes => nodes | None => [] end.

Definition fetchGitHubData (params : FetchDataParams) : Fetch FetchDataResult :=
  let parts := splitOn 47 (repository params) in
  let owner := nth 0 parts [] in
  let repo := nth 1 parts [] in
  if negb (truthy owner) || negb (truthy repo) then
    fail (newError (str "Invalid repository format. Expected 'owner/repo'."))
  else
    seq (attempt (fetchEntity owner repo params)
           (fun error =>
              fail (newError (str "Failed to fetch " ++
                              (if isPR params then str "PR" else str "issue") ++
                              str " data"))))
      (fun fetched =>
         let '(contextData, comments, changedFiles, reviewData) := fetched in
         seq (if isPR params && (0 <? N.of_nat (List.length changedFiles))
              then mapFetch withSHA changedFiles
              else unit_ [])
           (fun changedFilesWithSHA =>
              let issueComments :=
                map (fun c => issue_comment (databaseId c) (body c))
                    (filter (fun c => truthy (body c)) comments) in
              let reviewBodies :=
                map (fun r => review_body (rv_databaseId r) (prNumber params) (rv_body r))
                    (filter (fun r => truthy (rv_body r)) (reviewNodes reviewData)) in
              let reviewComments :=
                map (fun c => review_comment (rc_databaseId c) (rc_body c))
                    (filter (fun c => truthy (rc_body c))
                       (flat_map (fun r => match rv_comments r with
                                           | Some nodes => nodes
                                           | None => []
                                           end)
                          (reviewNodes reviewData))) in
              let mainBody :=
                match contextData with
                | Some c =>
                    if truthy (bodyOf c) then
                      [if isPR params then pr_body (prNumber params) (bodyOf c)
                       else issue_body (prNumber params) (bodyOf c)]
                    else []
                | None => []
                end in
              let allComments := mainBody ++ issueComments ++ reviewBodies ++ reviewComments in
              seq (downloadCommentImages owner repo allComments)
                (fun imageUrlMap =>
                   match contextData with
                   | None => fail (newError (str "Failed to fetch context data for PR/issue"))
                   | Some contextData =>
                       unit_ {| contextData := contextData;
                                comments := comments;
                                changedFiles := changedFiles;
                                changedFilesWithSHA := changedFilesWithSHA;
                                reviewData := reviewData;
                                imageUrlMap := imageUrlMap |}
                   end))).

(** The store after the entity itself has been fetched, if it was. *)
Definition entityFetched (owner repo : jsstring) (params : FetchDataParams) (w : Store)
  : option Store :=
  if isPR params then
    match getPullRequest owner repo (parseInt (prNumber params)) w with
    | (Normal _, w1) => Some w1
    | (Throws _, _) => None
    end
  else
    match getIssue owner repo (parseInt (prNumber params)) w with
    | (Normal _, w1) => Some w1
    | (Throws _, _) => None
    end.

(** The comments the function keeps when the listing is answered in [w1]. *)
Definition keptComments (owner repo : jsstring) (params : FetchDataParams) (w1 : Store)
  : list GitHubComment :=
  match listIssueComments owner repo (parseInt (prNumber params)) w1 with
  | (Normal commentsResponse, _) =>
      match filterCommentsByActor (fun c => login (author c))
              (map toComment commentsResponse)
              (orEmpty (includeCommentsByActor params))
              (orEmpty (excludeCommentsByActor params)) with
      | Normal kept => kept
      | Throws _ => []
      end
  | (Throws _, _) => []
  end.

End WithClient.

(** ** A sample forge

    Issue 7 has a comment by a person and one by a bot; pull requests
    cannot be read.  Entity numbers are kept as the strings they come in. *)
Definition sampleComments : list CommentData :=
  [{| cd_id := 1; cd_body := Some (str "please fix"); cd_user := Some {| login := str "alice" |};
      cd_created_at := str "2024-01-01" |};
   {| cd_id := 2; cd_body := Some (str "bumped"); cd_user := Some {| login := str "dependabot[bot]" |};
      cd_created_at := str "2024-01-02" |}].

Definition sampleForge : GitHubClient jsstring :=
  {| Store := unit;
     getPullRequest := fun _ _ _ w => (Throws (newError (str "404 Not Found")), w);
     getIssue := fun _ _ _ w =>
       (Normal {| is_title := str "Crash"; is_body := Some (str "It crashes.");
                  is_user := Some {| login := str "alice" |};
                  is_created_at := str "2024-01-01"; is_state := str "open" |}, w);
     listIssueComments := fun _ _ _ w => (Normal sampleComments, w);
     listPullRequestFiles := fun _ _ _ w => (Normal [], w);
     hashObject := fun _ w => (Normal (str "0000"), w);
     downloadCommentImages := fun _ _ _ w => (Normal [], w) |}.

(** Upper case for the letters a-z. *)
Definition asciiUpper (s : jsstring) : jsstring :=
  map (fun c => if isLower c then c - 32 else c) s.

(** What is fetched for issue 7 when the actor filter cannot be used. *)
Definition sampleResult : FetchDataResult :=
  {| contextData :=
       GitHubIssue (str "Crash") (str "It crashes.") {| login := str "alice" |}
         (str "2024-01-01") (str "OPEN") [];
     comments := [];
     changedFiles := [];
     changedFilesWithSHA := [];
     reviewData := None;
     imageUrlMap := [] |}.

Definition sampleParams (isPR : bool) (exclude : jsstring) : FetchDataParams :=
  {| repository := str "o/r"; prNumber := str "7"; isPR := isPR;
     includeCommentsByActor := None; excludeCommentsByActor := Some exclude |}.

End Fetcher.

Unset Implicit Arguments.

(* ================================================================== *)
(** * String functions meet their descriptions *)

Section StringFacts.

Lemma startsWith_Prefix p s : startsWith p s = true <-> Prefix p s.
Proof.
  unfold Prefix. revert s. induction p as [|x p IH]; intros s; simpl.
  - split; [intros _; now exists s | reflexivity].
  - destruct s as [|y s].
    + split; [discriminate | intros [t Ht]; discriminate].
    + unfold unit_eqb. rewrite andb_true_iff, N.eqb_eq, IH. split.
      * intros [-> [t ->]]. now exists t.
      * intros [t Ht]. injection Ht as -> ->. split; [reflexivity | now exists t].
Qed.

Lemma endsWith_Suffix p s : endsWith p s = true <-> Suffix p s.
Proof.
  unfold endsWith, Suffix. rewrite startsWith_Prefix. unfold Prefix. split.
  - intros [t Ht]. exists (rev t).
    rewrite <- (rev_involutive s), Ht, rev_app_distr, rev_involutive. reflexivity.
  - intros [t ->]. exists (rev t). now rewrite rev_app_distr.
Qed.

Lemma includes_Infix p s : includes p s = true <-> Infix p s.
Proof.
  unfold Infix. induction s as [|y s IH].
  - simpl. rewrite orb_false_r, startsWith_Prefix. unfold Prefix. split.
    + intros [t Ht]. exists [], t. exact Ht.
    + intros [a [b Hab]]. destruct a; [now exists b | discriminate].
  - cbn [includes]. rewrite orb_true_iff, startsWith_Prefix, IH. unfold Prefix. split.
    + intros [[t Ht] | [a [b Hab]]].
      * exists [], t. exact Ht.
      * exists (y :: a), b. now rewrite Hab.
    + intros [a [b Hab]]. destruct a as [|z a].
      * left. now exists b.
      * right. injection Hab as _ ->. now exists a, b.
Qed.

Lemma trimStart_blank s : Forall (fun c => isWhiteSpace c = true) s -> trimStart s = [].
Proof. induction 1 as [|c s Hc _ IH]; simpl; [reflexivity | now rewrite Hc]. Qed.

Lemma trim_blank s : Forall (fun c => isWhiteSpace c = true) s -> trim s = [].
Proof. intros Hs. unfold trim, trimEnd. now rewrite (trimStart_blank _ Hs). Qed.

Lemma isAlnum_Alnum c : isAlnum c = true <-> Alnum c.
Proof.
  unfold isAlnum, isLower, isUpper, isDigit, Alnum.
  rewrite !orb_true_iff, !andb_true_iff, !N.leb_le. tauto.
Qed.

Lemma existsb_eqb_In c l : existsb (N.eqb c) l = true <-> In c l.
Proof.
  rewrite existsb_exists. split.
  - intros [x [Hx Heq]]. apply N.eqb_eq in Heq. now subst.
  - intros Hc. exists c. split; [exact Hc | apply N.eqb_refl].
Qed.

Lemma isForbiddenChar_Unsafe c : isForbiddenChar c = true <-> Unsafe c.
Proof.
  unfold isForbiddenChar, Unsafe. cbn [str list_ascii_of_string map In].
  rewrite !orb_true_iff, !N.eqb_eq, N.leb_le.
  change (unit_of_ascii "~") with 126. change (unit_of_ascii "^") with 94.
  change (unit_of_ascii ":") with 58. change (unit_of_ascii "?") with 63.
  change (unit_of_ascii "*") with 42. change (unit_of_ascii "[") with 91.
  change (unit_of_ascii "]") with 93. change (unit_of_ascii "\") with 92.
  intuition congruence.
Qed.

Lemma isBranchChar_spec c :
  isBranchChar c = true <-> Alnum c \/ In c (str "/_.-").
Proof.
  unfold isBranchChar. cbn [str list_ascii_of_string map In].
  rewrite !orb_true_iff, !N.eqb_eq, isAlnum_Alnum.
  change (unit_of_ascii "/") with 47. change (unit_of_ascii "_") with 95.
  change (unit_of_ascii ".") with 46. change (unit_of_ascii "-") with 45.
  intuition congruence.
Qed.

Lemma validPattern_Whitelisted s : validPattern s = true <-> Whitelisted s.
Proof.
  unfold Whitelisted. destruct s as [|c rest]; simpl.
  - split; [discriminate | intros [c [rest [Hs _]]]; discriminate].
  - rewrite andb_true_iff, isAlnum_Alnum, forallb_forall. split.
    + intros [Hc Hrest]. exists c, rest. repeat split; [exact Hc|].
      apply Forall_forall. intros x Hx. apply isBranchChar_spec. now apply Hrest.
    + intros [c' [rest' [Heq [Hc Hrest]]]]. injection Heq as <- <-.
      split; [exact Hc|]. intros x Hx. apply isBranchChar_spec.
      rewrite Forall_forall in Hrest. now apply Hrest.
Qed.

End StringFacts.

(* ================================================================== *)
(** * The branch name validator *)

Section Validator.

(** Walks down the chain of checks of [validateBranchName]. *)
Ltac checks :=
  unfold Rejects, validateBranchName;
  repeat match goal with
         | |- context [if ?b then _ else _] => destruct b eqn:?
         end;
  try (eexists; reflexivity); try congruence.

Lemma rejects_blank s :
  (negb (truthy s) || (N.of_nat (List.length (trim s)) =? 0)) = true -> Rejects s.
Proof. intros Hc. checks. Qed.

Lemma rejects_dash s : startsWith (str "-") s = true -> Rejects s.
Proof. intros Hc. checks. Qed.

Lemma rejects_forbidden s : hasForbiddenChar s = true -> Rejects s.
Proof. intros Hc. checks. Qed.

Lemma rejects_pattern s : validPattern s = false -> Rejects s.
Proof.
  intros Hc. unfold Rejects, validateBranchName. rewrite Hc. cbn [negb]. checks.
Qed.

Lemma rejects_dot s :
  (startsWith (str ".") s || endsWith (str ".") s) = true -> Rejects s.
Proof. intros Hc. checks. Qed.

Lemma rejects_slash s : endsWith (str "/") s = true -> Rejects s.
Proof. intros Hc. checks. Qed.

Lemma rejects_slashes s : includes (str "//") s = true -> Rejects s.
Proof. intros Hc. checks. Qed.

Lemma rejects_dotdot s : includes (str "..") s = true -> Rejects s.
Proof. intros Hc. checks. Qed.

Lemma rejects_lock s : endsWith (str ".lock") s = true -> Rejects s.
Proof. intros Hc. checks. Qed.

Lemma rejects_atbrace s : includes (str "@{") s = true -> Rejects s.
Proof. intros Hc. checks. Qed.

Lemma malformed_rejected s : Malformed s -> Rejects s.
Proof.
  intros [Hb | Hd | c Hin Hc | Hw | Hd | Hd | Hs | Hd | Hl | Ha].
  - apply rejects_blank. rewrite (trim_blank _ Hb). apply orb_true_r.
  - apply rejects_dash. now apply startsWith_Prefix.
  - apply rejects_forbidden. unfold hasForbiddenChar. apply existsb_exists.
    exists c. split; [exact Hin | now apply isForbiddenChar_Unsafe].
  - apply rejects_pattern. destruct (validPattern s) eqn:Hv; [|reflexivity].
    exfalso. apply Hw. now apply validPattern_Whitelisted.
  - apply rejects_dot. apply orb_true_iff. left. now apply startsWith_Prefix.
  - apply rejects_dot. apply orb_true_iff. right. now apply endsWith_Suffix.
  - apply rejects_slash. now apply endsWith_Suffix.
  - apply rejects_dotdot. now apply includes_Infix.
  - apply rejects_lock. now apply endsWith_Suffix.
  - apply rejects_atbrace. now apply includes_Infix.
Qed.

(** C5.  The validator throws on every string that is empty or
    whitespace-only, starts with a dash, contains a space, a control character
    or one of [~^:?*[]\], is off the whitelist pattern, starts or ends with a
    period, ends with a slash, contains two periods in a row, ends with
    [.lock], or contains [@{]; it accepts [feature/foo-1] and
    [claude/issue-42] and throws on [../etc], [.hidden], [bad/], [a..b],
    [x.lock] and [HEAD@{1}]. *)
Theorem validateBranchName_rejection_list :
  (forall s, Malformed s -> Rejects s) /\
  Accepts (str "feature/foo-1") /\
  Accepts (str "claude/issue-42") /\
  Rejects (str "../etc") /\ Rejects (str ".hidden") /\ Rejects (str "bad/") /\
  Rejects (str "a..b") /\ Rejects (str "x.lock") /\ Rejects (str "HEAD@{1}").
Proof.
  split; [exact malformed_rejected|].
  repeat split; try (eexists; vm_compute; reflexivity).
Qed.

Lemma validateBranchName_rejection_list_witness :
  Malformed (str "release.lock") /\ Rejects (str "release.lock").
Proof.
  assert (Hm : Malformed (str "release.lock")).
  { apply DotLock. exists (str "release"). reflexivity. }
  split; [exact Hm|].
  exact (proj1 validateBranchName_rejection_list (str "release.lock") Hm).
Defined.

End Validator.

(* ================================================================== *)
(** * Laws of the effect monad *)

Section MonadFacts.
Context `{HostOps}.

Lemma noExit_ret A (a : A) : NoExit (ret a).
Proof. intros s c s'. unfold ret. congruence. Qed.

Lemma noExit_throw A e : NoExit (@throw _ A e).
Proof. intros s c s'. unfold throw. congruence. Qed.

Lemma noExit_emit e : NoExit (emit e).
Proof. intros s c s'. unfold emit. congruence. Qed.

Lemma noExit_ask A (q : World -> Completion A * World) : NoExit (ask q).
Proof. intros s c s'. unfold ask. destruct (q (world s)) as [[a|e] w]; congruence. Qed.

Lemma noExit_lift A (c : Completion A) : NoExit (lift c).
Proof. destruct c; [apply noExit_ret | apply noExit_throw]. Qed.

Lemma noExit_bind A B (m : M A) (k : A -> M B) :
  NoExit m -> (forall a, NoExit (k a)) -> NoExit (bind m k).
Proof.
  intros Hm Hk s c s'. unfold bind.
  destruct (m s) as [[a|e|c'] s1] eqn:Hms.
  - apply Hk.
  - congruence.
  - exfalso. exact (Hm _ _ _ Hms).
Qed.

Lemma noExit_tryCatch A (m : M A) (h : Error -> M A) :
  NoExit m -> (forall e, NoExit (h e)) -> NoExit (tryCatch m h).
Proof.
  intros Hm Hh s c s'. unfold tryCatch.
  destruct (m s) as [[a|e|c'] s1] eqn:Hms.
  - congruence.
  - apply Hh.
  - exfalso. exact (Hm _ _ _ Hms).
Qed.

Lemma noExit_when b (m : M unit) : NoExit m -> NoExit (when b m).
Proof. destruct b; simpl; [trivial | intros _; apply noExit_ret]. Qed.

Lemma noExit_forEach A (xs : list A) (body : A -> M unit) :
  (forall x, NoExit (body x)) -> NoExit (forEach xs body).
Proof.
  intros Hb. induction xs as [|x xs IH]; simpl.
  - apply noExit_ret.
  - apply noExit_bind; [apply Hb | intros _; exact IH].
Qed.

(** What a [try] with a handler that returns makes of each outcome. *)
Lemma tryCatch_returns A (m : M A) (h : Error -> A) s :
  tryCatch m (fun e => ret (h e)) s =
  match m s with
  | (Returned a, s') => (Returned a, s')
  | (Thrown e, s') => (Returned (h e), s')
  | (Exited c, s') => (Exited c, s')
  end.
Proof. unfold tryCatch, ret. destruct (m s) as [[a|e|c] s']; reflexivity. Qed.

Lemma bind_returned A B (m : M A) (k : A -> M B) s a s' :
  m s = (Returned a, s') -> bind m k s = k a s'.
Proof. intros Hm. unfold bind. now rewrite Hm. Qed.

Lemma bind_thrown A B (m : M A) (k : A -> M B) s e s' :
  m s = (Thrown e, s') -> bind m k s = (Thrown e, s').
Proof. intros Hm. unfold bind. now rewrite Hm. Qed.

Lemma bind_exited A B (m : M A) (k : A -> M B) s c s' :
  m s = (Exited c, s') -> bind m k s = (Exited c, s').
Proof. intros Hm. unfold bind. now rewrite Hm. Qed.

Lemma tryCatch_returned A (m : M A) h s a s' :
  m s = (Returned a, s') -> tryCatch m h s = (Returned a, s').
Proof. intros Hm. unfold tryCatch. now rewrite Hm. Qed.

Lemma tryCatch_thrown A (m : M A) h s e s' :
  m s = (Thrown e, s') -> tryCatch m h s = h e s'.
Proof. intros Hm. unfold tryCatch. now rewrite Hm. Qed.

Lemma when_false (m : M unit) s : when false m s = (Returned tt, s).
Proof. reflexivity. Qed.

Lemma emit_returns e s : emit e s = (Returned tt, mkState (world s) (log s ++ [e])).
Proof. reflexivity. Qed.

End MonadFacts.

Create HintDb noexit.

#[global] Hint Resolve noExit_ret noExit_throw noExit_emit noExit_ask noExit_lift
  noExit_when : noexit.

(** Decomposes a [NoExit] goal along the structure of the program. *)
Ltac no_exit :=
  repeat first
    [ apply noExit_ret | apply noExit_throw | apply noExit_emit | apply noExit_ask
    | apply noExit_lift
    | apply noExit_bind; [| intros ?]
    | apply noExit_tryCatch; [| intros ?]
    | apply noExit_when
    | apply noExit_forEach; intros ?
    | match goal with
      | |- NoExit (if ?b then _ else _) => destruct b
      | |- NoExit (match ?x with _ => _ end) => destruct x
      end ].

(* ================================================================== *)
(** * The tool server: failures become results *)

Section GatewayResults.
Import Gateway.
Context `{HostOps}.
Variable env : Env.

Lemma runGitCommand_ok args s out w :
  git args (world s) = (Normal out, w) ->
  runGitCommand args s = (Returned (trim out), mkState w (log s ++ [Git args])).
Proof.
  intros Hg. unfold runGitCommand.
  erewrite bind_returned by apply emit_returns.
  unfold bind, ask. cbn [world log]. now rewrite Hg.
Qed.

Lemma runGitCommand_fails args s e w :
  git args (world s) = (Throws e, w) ->
  runGitCommand args s = (Thrown e, mkState w (log s ++ [Git args])).
Proof.
  intros Hg. unfold runGitCommand.
  erewrite bind_returned by apply emit_returns.
  unfold bind, ask. cbn [world log]. now rewrite Hg.
Qed.

Lemma noExit_runGitCommand args : NoExit (runGitCommand args).
Proof. unfold runGitCommand. no_exit. Qed.

Hint Resolve noExit_runGitCommand : noexit.

Lemma noExit_ensureGitUserConfigured : NoExit (ensureGitUserConfigured env).
Proof. unfold ensureGitUserConfigured. no_exit; auto with noexit. Qed.

Lemma noExit_handlerBody call : NoExit (handlerBody env call).
Proof.
  destruct call; cbn [handlerBody];
    unfold create_branch_body, checkout_branch_body, commit_files_body, push_branch_body,
      create_pull_request_body, delete_files_body, git_status_body;
    no_exit; auto using noExit_ensureGitUserConfigured with noexit.
Qed.

Lemma handle_tryCatch call :
  handle env call = tryCatch (handlerBody env call) (onError (handlerWhat call)).
Proof. destruct call; reflexivity. Qed.

(** The three outcomes of a handler, read off its [try] block. *)
Lemma handle_cases call s :
  match handlerBody env call s with
  | (Returned r, s') => handle env call s = (Returned r, s')
  | (Thrown e, s') =>
      handle env call s = (Returned (failure (handlerWhat call) (message e)), s')
  | (Exited _, _) => False
  end.
Proof.
  rewrite handle_tryCatch. unfold onError. rewrite tryCatch_returns.
  destruct (handlerBody env call s) as [[r|e|c] s'] eqn:Hb; try reflexivity.
  exact (noExit_handlerBody _ _ _ _ Hb).
Qed.

(** C9.  Whatever the invocation and the state of the host, the handler
    returns a result: it neither throws nor ends the process.  When its
    [try] block fails with an error, the result carries the message of that
    error in [error], repeats it in the content text, and has [isError]
    set. *)
Theorem gateway_failure_is_structured_result call s :
  (exists r s', handle env call s = (Returned r, s')) /\
  (forall e s', handlerBody env call s = (Thrown e, s') ->
     exists r, handle env call s = (Returned r, s') /\
               isError r = true /\
               error r = Some (message e) /\
               content r = [handlerWhat call ++ message e]).
Proof.
  pose proof (handle_cases call s) as Hc.
  destruct (handlerBody env call s) as [[r|e|c] s1] eqn:Hb.
  - split; [now exists r, s1 | intros e s' Heq; discriminate].
  - split; [eexists; eexists; exact Hc|].
    intros e' s' Heq. injection Heq as <- <-.
    eexists. split; [exact Hc|]. repeat split.
  - contradiction.
Qed.

(** The kinds of failure of one handler, each ending in such a result. *)

Lemma create_branch_validation_failure branch_name base_branch s :
  refPattern base_branch = false ->
  create_branch branch_name base_branch s =
    (Returned (failure (str "Error creating branch: ")
                       (str "Invalid base branch name: " ++ base_branch)), s).
Proof.
  intros Hbase. unfold create_branch, create_branch_body, tryCatch, bind, when.
  rewrite Hbase. reflexivity.
Qed.

Lemma create_branch_git_failure branch_name base_branch s e w :
  refPattern base_branch = true ->
  git [str "checkout"; base_branch] (world s) = (Throws e, w) ->
  create_branch branch_name base_branch s =
    (Returned (failure (str "Error creating branch: ") (message e)),
     mkState w (log s ++ [Git [str "checkout"; base_branch]])).
Proof.
  intros Hbase Hgit. unfold create_branch, create_branch_body.
  rewrite Hbase. cbn [negb].
  erewrite tryCatch_thrown; [reflexivity|].
  erewrite bind_returned by apply when_false.
  apply bind_thrown. now apply runGitCommand_fails.
Qed.

Lemma create_pull_request_http_failure token title body base_branch head_branch s e w :
  token <> [] -> head_branch <> [] ->
  GITHUB_TOKEN env = Some token ->
  fetch (pullsRequest env token title body base_branch head_branch) (world s) = (Throws e, w) ->
  create_pull_request env title body base_branch (Some head_branch) s =
    (Returned (failure (str "Error creating pull request: ") (message e)),
     mkState w (log s ++ [Http (pullsRequest env token title body base_branch head_branch)])).
Proof.
  intros Htok Hhead Henv Hfetch. unfold create_pull_request, create_pull_request_body.
  rewrite Henv. destruct token as [|t0 token]; [congruence|].
  destruct head_branch as [|h0 head_branch]; [congruence|].
  erewrite tryCatch_thrown; [reflexivity|].
  erewrite bind_returned by reflexivity.
  erewrite bind_returned by apply emit_returns.
  apply bind_thrown. unfold ask. cbn [world log]. now rewrite Hfetch.
Qed.

(** With a base that passes and a name that does not, the first thing
    [create_branch] does is check out the base, and it ends in an error. *)
Lemma create_branch_bad_name branch_name base_branch s :
  refPattern base_branch = true -> refPattern branch_name = false ->
  exists r s' rest,
    create_branch branch_name base_branch s = (Returned r, s') /\
    isError r = true /\
    log s' = log s ++ Git [str "checkout"; base_branch] :: rest.
Proof.
  intros Hbase Hname.
  destruct (git [str "checkout"; base_branch] (world s)) as [[out1|e1] w1] eqn:Hco.
  - set (s1 := mkState w1 (log s ++ [Git [str "checkout"; base_branch]])).
    assert (Hbody : exists e s' rest,
      create_branch_body branch_name base_branch s = (Thrown e, s') /\
      log s' = log s ++ Git [str "checkout"; base_branch] :: rest).
    { unfold create_branch_body. rewrite Hbase, Hname. cbn [negb].
      erewrite bind_returned by apply when_false.
      erewrite bind_returned by (apply runGitCommand_ok; exact Hco).
      fold s1.
      destruct (git [str "pull"; str "origin"; base_branch] (world s1)) as [[out2|e2] w2] eqn:Hpl.
      - erewrite bind_returned by (apply runGitCommand_ok; exact Hpl).
        eexists _, _, _. split; [reflexivity|].
        cbn [log s1]. rewrite <- app_assoc. reflexivity.
      - erewrite bind_thrown by (apply runGitCommand_fails; exact Hpl).
        eexists _, _, _. split; [reflexivity|].
        cbn [log s1]. rewrite <- app_assoc. reflexivity. }
    destruct Hbody as [e [s' [rest [Hb Hlog]]]].
    exists (failure (str "Error creating branch: ") (message e)), s', rest.
    split; [|split; [reflexivity | exact Hlog]].
    unfold create_branch. erewrite tryCatch_thrown by exact Hb. reflexivity.
  - rewrite (create_branch_git_failure branch_name _ _ _ _ Hbase Hco).
    eexists _, _, []. repeat split.
Qed.

(** C10.  [create_branch] validates the new name only after it has checked
    out and pulled the base: called with a base that passes the check and a
    name that fails it, it answers with an error result, yet it has already
    run [git checkout base]; and when that and the pull succeed, the host is
    left in the state after both commands, with the error being the rejection
    of the name. *)
Theorem create_branch_not_atomic branch_name base_branch s :
  refPattern base_branch = true -> refPattern branch_name = false ->
  (exists r s' rest,
     create_branch branch_name base_branch s = (Returned r, s') /\
     isError r = true /\
     log s' = log s ++ Git [str "checkout"; base_branch] :: rest) /\
  (forall out1 w1 out2 w2,
     git [str "checkout"; base_branch] (world s) = (Normal out1, w1) ->
     git [str "pull"; str "origin"; base_branch] w1 = (Normal out2, w2) ->
     create_branch branch_name base_branch s =
       (Returned (failure (str "Error creating branch: ")
                          (str "Invalid branch name: " ++ branch_name)),
        mkState w2 (log s ++ [Git [str "checkout"; base_branch];
                              Git [str "pull"; str "origin"; base_branch]]))).
Proof.
  intros Hbase Hname. split; [now apply create_branch_bad_name|].
  intros out1 w1 out2 w2 Hco Hpl.
  assert (Hb : create_branch_body branch_name base_branch s =
    (Thrown (newError (str "Invalid branch name: " ++ branch_name)),
     mkState w2 (log s ++ [Git [str "checkout"; base_branch];
                           Git [str "pull"; str "origin"; base_branch]]))).
  { unfold create_branch_body. rewrite Hbase, Hname. cbn [negb].
    erewrite bind_returned by apply when_false.
    erewrite bind_returned by (apply runGitCommand_ok; exact Hco).
    erewrite bind_returned by (apply runGitCommand_ok; exact Hpl).
    cbn [log]. rewrite <- app_assoc. reflexivity. }
  unfold create_branch. erewrite tryCatch_thrown by exact Hb. reflexivity.
Qed.

(** A successful [create_branch] had both arguments pass the server's pattern. *)
Lemma create_branch_success_pattern branch_name base_branch s r s' :
  create_branch branch_name base_branch s = (Returned r, s') ->
  isError r = false ->
  refPattern branch_name = true /\ refPattern base_branch = true.
Proof.
  intros Hrun Hok.
  destruct (refPattern base_branch) eqn:Hbase.
  - destruct (refPattern branch_name) eqn:Hname; [now split|].
    destruct (create_branch_bad_name _ _ s Hbase Hname) as [r' [s1 [rest [Hr [He _]]]]].
    rewrite Hr in Hrun. injection Hrun as <- <-. congruence.
  - rewrite (create_branch_validation_failure branch_name _ s Hbase) in Hrun.
    injection Hrun as <- <-. discriminate.
Qed.

Lemma checkout_branch_success_pattern branch_name c f s r s' :
  checkout_branch branch_name c f s = (Returned r, s') ->
  isError r = false ->
  refPattern branch_name = true.
Proof.
  intros Hrun Hok. destruct (refPattern branch_name) eqn:Hname; [reflexivity|].
  unfold checkout_branch, checkout_branch_body in Hrun. rewrite Hname in Hrun.
  cbn [negb when] in Hrun. unfold tryCatch, bind, throw, onError, ret in Hrun.
  injection Hrun as <- <-. discriminate.
Qed.

End GatewayResults.

Lemma gateway_failure_is_structured_result_witness :
  exists r,
    Gateway.handle (H := Scenario.broken) Scenario.env0 Gateway.GitStatus (Scenario.start (H := Scenario.broken) tt)
      = (Returned r, mkState (H := Scenario.broken) tt [Git [str "status"; str "--porcelain"]]) /\
    Gateway.isError r = true /\
    Gateway.error r = Some (str "fatal: not a git repository") /\
    Gateway.content r = [str "Error getting git status: fatal: not a git repository"].
Proof.
  exact (proj2 (gateway_failure_is_structured_result (H := Scenario.broken) Scenario.env0
                  Gateway.GitStatus (Scenario.start (H := Scenario.broken) tt))
               (newError (str "fatal: not a git repository"))
               (mkState (H := Scenario.broken) tt [Git [str "status"; str "--porcelain"]]) eq_refl).
Defined.

Lemma create_branch_not_atomic_witness :
  Gateway.refPattern (str "main") = true /\
  Gateway.refPattern (str "no good") = false /\
  Gateway.create_branch (H := Scenario.obliging) (str "no good") (str "main")
    (Scenario.start (H := Scenario.obliging) tt) =
    (Returned (Gateway.failure (str "Error creating branch: ") (str "Invalid branch name: no good")),
     mkState (H := Scenario.obliging) tt
       [Git [str "checkout"; str "main"]; Git [str "pull"; str "origin"; str "main"]]).
Proof.
  split; [reflexivity | split; [reflexivity|]].
  exact (proj2 (create_branch_not_atomic (H := Scenario.obliging) (str "no good")
                  (str "main") (Scenario.start (H := Scenario.obliging) tt) eq_refl eq_refl)
               [] tt [] tt eq_refl eq_refl).
Defined.

(* ================================================================== *)
(** * The server's own pattern against the validator *)

Section PatternVersusValidator.
Import Gateway.

Ltac bools :=
  unfold isBranchChar, isForbiddenChar, isWhiteSpace, isRefTail, isRefHead, isAlnum,
    isLower, isUpper, isDigit in *;
  repeat rewrite ?orb_true_iff, ?andb_true_iff, ?orb_false_iff, ?andb_false_iff,
    ?N.leb_le, ?N.eqb_eq, ?N.leb_gt, ?N.eqb_neq in *;
  lia.

Lemma refTail_not_forbidden c : isRefTail c = true -> isForbiddenChar c = false.
Proof. intros Hc. bools. Qed.

Lemma refTail_branchChar c : isRefTail c = true -> isBranchChar c = true.
Proof. intros Hc. bools. Qed.

Lemma refTail_not_blank c : isRefTail c = true -> isWhiteSpace c = false.
Proof. intros Hc. bools. Qed.

Lemma refHead_refTail c : isRefHead c = true -> isRefTail c = true.
Proof. intros Hc. unfold isRefTail. now rewrite Hc. Qed.

Lemma refHead_alnum_or c : isRefHead c = true -> isAlnum c = true \/ c = 95 \/ c = 47.
Proof.
  unfold isRefHead. rewrite !orb_true_iff, !N.eqb_eq. tauto.
Qed.

(** The strings of the pattern are the non-empty strings over its alphabet
    whose first character is not a dash. *)
Lemma refPattern_chars s :
  refPattern s = true ->
  exists c rest, s = c :: rest /\ isRefHead c = true /\
                 Forall (fun x => isRefTail x = true) s.
Proof.
  destruct s as [|c rest]; simpl; [discriminate|].
  rewrite andb_true_iff, forallb_forall. intros [Hc Hrest].
  exists c, rest. repeat split; [exact Hc|].
  constructor; [now apply refHead_refTail | now apply Forall_forall].
Qed.

Lemma Infix_In p s c : Infix p s -> In c p -> In c s.
Proof. intros [a [b ->]] Hc. apply in_or_app. right. apply in_or_app. now left. Qed.

Lemma Prefix_Infix p s : Prefix p s -> Infix p s.
Proof. intros [t ->]. now exists [], t. Qed.

Lemma Suffix_Infix p s : Suffix p s -> Infix p s.
Proof. intros [t ->]. exists t, []. now rewrite app_nil_r. Qed.

Lemma trimStart_keeps s :
  Forall (fun c => isWhiteSpace c = false) s -> trimStart s = s.
Proof. intros Hs. destruct Hs as [|c s Hc _]; simpl; [reflexivity | now rewrite Hc]. Qed.

Lemma trim_keeps s : Forall (fun c => isWhiteSpace c = false) s -> trim s = s.
Proof.
  intros Hs. unfold trim, trimEnd. rewrite (trimStart_keeps _ Hs).
  rewrite trimStart_keeps; [apply rev_involutive | now apply Forall_rev].
Qed.

(** On a string of the server's pattern only three checks of the validator
    can fire: the first character, a trailing slash, and a double slash. *)
Lemma validate_on_refPattern s :
  refPattern s = true ->
  (Accepts s <->
   (exists c rest, s = c :: rest /\ Alnum c) /\
   ~ Suffix (str "/") s /\ ~ Infix (str "//") s).
Proof.
  intros Hp. destruct (refPattern_chars _ Hp) as [c [rest [-> [Hc Hall]]]].
  set (s := c :: rest) in *.
  assert (Hnot : forall x, isRefTail x = false -> ~ In x s).
  { intros x Hx Hin. rewrite Forall_forall in Hall. specialize (Hall _ Hin). congruence. }
  assert (Hblank : (N.of_nat (List.length (trim s)) =? 0) = false).
  { rewrite trim_keeps; [reflexivity|].
    eapply Forall_impl; [|exact Hall]. intros x. apply refTail_not_blank. }
  assert (Hdash : startsWith (str "-") s = false).
  { apply not_true_is_false. rewrite startsWith_Prefix. intros [t Ht].
    injection Ht as Heq _. rewrite Heq in Hc. discriminate Hc. }
  assert (Hforb : hasForbiddenChar s = false).
  { unfold hasForbiddenChar. apply not_true_is_false. rewrite existsb_exists.
    intros [x [Hin Hx]]. rewrite Forall_forall in Hall.
    rewrite (refTail_not_forbidden _ (Hall _ Hin)) in Hx. discriminate. }
  assert (Hvalid : validPattern s = isAlnum c).
  { cbn [validPattern s]. replace (forallb isBranchChar rest) with true; [apply andb_true_r|].
    symmetry. apply forallb_forall. intros x Hin. apply refTail_branchChar.
    rewrite Forall_forall in Hall. apply Hall. now right. }
  assert (Hno : forall p x, In x p -> isRefTail x = false -> ~ Infix p s).
  { intros p x Hxp Hx Hi. exact (Hnot _ Hx (Infix_In _ _ _ Hi Hxp)). }
  assert (Hdot : (startsWith (str ".") s || endsWith (str ".") s) = false).
  { apply orb_false_iff. split; apply not_true_is_false.
    - rewrite startsWith_Prefix. intros Hd.
      exact (Hno (str ".") 46 (or_introl eq_refl) eq_refl (Prefix_Infix _ _ Hd)).
    - rewrite endsWith_Suffix. intros Hd.
      exact (Hno (str ".") 46 (or_introl eq_refl) eq_refl (Suffix_Infix _ _ Hd)). }
  assert (Hdd : includes (str "..") s = false).
  { apply not_true_is_false. rewrite includes_Infix.
    exact (Hno (str "..") 46 (or_introl eq_refl) eq_refl). }
  assert (Hlock : endsWith (str ".lock") s = false).
  { apply not_true_is_false. rewrite endsWith_Suffix. intros Hd.
    exact (Hno (str ".lock") 46 (or_introl eq_refl) eq_refl (Suffix_Infix _ _ Hd)). }
  assert (Hat : includes (str "@{") s = false).
  { apply not_true_is_false. rewrite includes_Infix.
    exact (Hno (str "@{") 64 (or_introl eq_refl) eq_refl). }
  unfold Accepts, validateBranchName.
  change (truthy s) with true. cbn [negb orb].
  rewrite Hblank, Hdash, Hforb, Hvalid, Hdot, Hdd, Hlock, Hat.
  rewrite <- endsWith_Suffix, <- includes_Infix.
  destruct (isAlnum c) eqn:Ha; cbn [negb].
  - destruct (endsWith (str "/") s); [split; [discriminate | intros [_ [Hs _]]; now elim Hs]|].
    destruct (includes (str "//") s); [split; [discriminate | intros [_ [_ Hs]]; now elim Hs]|].
    split; [|reflexivity]. intros _. repeat split; try discriminate.
    exists c, rest. split; [reflexivity | now apply isAlnum_Alnum].
  - split; [discriminate|]. intros [[c' [rest' [Heq Hc']]] _].
    injection Heq as <- <-. apply isAlnum_Alnum in Hc'. congruence.
Qed.

End PatternVersusValidator.

Section GatewayValidation.
Import Gateway.

(** C2 (as the code has it).  [create_branch] and [checkout_branch] succeed
    only on ref arguments that match the server's own pattern
    [^[a-zA-Z0-9_/][a-zA-Z0-9_/-]*$].  A string of that pattern is accepted by
    the branch name validator exactly when it starts with a letter or digit,
    does not end with a slash and has no double slash. *)
Theorem gateway_checks_its_own_pattern `{HostOps} :
  (forall branch_name base_branch s r s',
      create_branch branch_name base_branch s = (Returned r, s') ->
      isError r = false ->
      refPattern branch_name = true /\ refPattern base_branch = true) /\
  (forall branch_name c f s r s',
      checkout_branch branch_name c f s = (Returned r, s') ->
      isError r = false ->
      refPattern branch_name = true) /\
  (forall ref,
      refPattern ref = true ->
      (Accepts ref <->
       (exists c rest, ref = c :: rest /\ Alnum c) /\
       ~ Suffix (str "/") ref /\ ~ Infix (str "//") ref)).
Proof.
  split; [|split].
  - intros. eapply create_branch_success_pattern; eassumption.
  - intros. eapply checkout_branch_success_pattern; eassumption.
  - exact validate_on_refPattern.
Qed.

Lemma gateway_checks_its_own_pattern_witness :
  refPattern (str "claude/issue-7") = true /\ refPattern (str "main") = true.
Proof.
  exact (proj1 (gateway_checks_its_own_pattern (H := Scenario.obliging))
           (str "claude/issue-7") (str "main") (Scenario.start (H := Scenario.obliging) tt)
           (success (str "Successfully created and checked out branch: claude/issue-7"))
           (mkState (H := Scenario.obliging) tt
              [Git [str "checkout"; str "main"]; Git [str "pull"; str "origin"; str "main"];
               Git [str "checkout"; str "-b"; str "claude/issue-7"]])
           eq_refl eq_refl).
Defined.

(** The server lets through a name the validator throws on. *)
Lemma gateway_passes_rejected_ref : ~ Claims.GatewayDefersToValidator.
Proof.
  intros Hclaim.
  destruct (Hclaim Scenario.obliging Scenario.env0 (Scenario.start (H := Scenario.obliging) tt))
    as [Hcreate _].
  destruct (Hcreate (str "bad/") (str "main") _ _ eq_refl eq_refl) as [Hbad _].
  unfold Accepts in Hbad. vm_compute in Hbad. discriminate Hbad.
Qed.

(** [create_pull_request] looks at neither of its two refs. *)
Example create_pull_request_unchecked :
  fst (create_pull_request (H := Scenario.obliging) Scenario.env0 (str "t") (str "b")
         (str "../etc") (Some (str "-x")) (Scenario.start (H := Scenario.obliging) tt))
  = Returned (success (str "Successfully created pull request #1: https://gitea.example/o/r/pulls/1"))
  /\ Rejects (str "../etc") /\ Rejects (str "-x").
Proof. repeat split; try (eexists; vm_compute; reflexivity). Qed.

(** The two checks overlap without either containing the other. *)
Example pattern_and_validator_differ :
  (refPattern (str "_x") = true /\ Rejects (str "_x")) /\
  (refPattern (str "a//b") = true /\ Rejects (str "a//b")) /\
  (refPattern (str "v1.0") = false /\ Accepts (str "v1.0")).
Proof. repeat split; try (eexists; vm_compute; reflexivity). Qed.

(** A non-zero exit of a probe is not a failure of the call:
    [checkout_branch] with [create_if_missing] succeeds after [rev-parse]
    and [fetch] have both failed. *)
Example probe_failures_are_absorbed :
  checkout_branch (H := Scenario.unborn) (str "topic") (Some true) None
    (Scenario.start (H := Scenario.unborn) tt)
  = (Returned (success (str "Successfully created and checked out new branch: topic")),
     mkState (H := Scenario.unborn) tt
       [Git [str "rev-parse"; str "--verify"; str "topic"];
        Git [str "fetch"; str "origin"; str "topic:topic"];
        Git [str "checkout"; str "-b"; str "topic"]]).
Proof. vm_compute. reflexivity. Qed.

End GatewayValidation.

(* ================================================================== *)
(** * Branch setup *)

Section SetupFacts.
Context `{HostOps}.

Lemma sh_git_ok args s out w :
  git args (world s) = (Normal out, w) ->
  sh_git args s = (Returned out, mkState w (log s ++ [Git args])).
Proof.
  intros Hg. unfold sh_git. erewrite bind_returned by apply emit_returns.
  unfold ask. cbn [world log]. now rewrite Hg.
Qed.

Lemma sh_git_fails args s e w :
  git args (world s) = (Throws e, w) ->
  sh_git args s = (Thrown e, mkState w (log s ++ [Git args])).
Proof.
  intros Hg. unfold sh_git. erewrite bind_returned by apply emit_returns.
  unfold ask. cbn [world log]. now rewrite Hg.
Qed.

(** A git command either answers or throws, and is logged either way. *)
Lemma sh_git_cases args s :
  (exists out w, sh_git args s = (Returned out, mkState w (log s ++ [Git args]))) \/
  (exists e w, sh_git args s = (Thrown e, mkState w (log s ++ [Git args]))).
Proof.
  destruct (git args (world s)) as [[out|e] w] eqn:Hg.
  - left. exists out, w. now apply sh_git_ok.
  - right. exists e, w. now apply sh_git_fails.
Qed.

Lemma JS_eqb_eq a b : JS.eqb a b = true <-> a = b.
Proof.
  revert b. induction a as [|x a IH]; intros [|y b]; simpl; try (split; congruence).
  unfold unit_eqb. rewrite andb_true_iff, N.eqb_eq, IH. split.
  - intros [-> ->]. reflexivity.
  - intros Heq. injection Heq as -> ->. now split.
Qed.

Lemma JS_eqb_refl a : JS.eqb a a = true.
Proof. now apply JS_eqb_eq. Qed.

Lemma isClosed_test st :
  isClosed st -> (JS.eqb st (str "CLOSED") || JS.eqb st (str "MERGED")) = true.
Proof. intros [-> | ->]; reflexivity. Qed.

Lemma setupBranch_afterSource githubData context s sourceBranch s1 :
  ResolvesSource context s sourceBranch s1 ->
  setupBranch githubData context s = afterSource githubData context sourceBranch s1.
Proof.
  intros Hr. unfold setupBranch. destruct Hr as [b Hb Hne | response w Hb Hrepo].
  - rewrite Hb. destruct b as [|c b]; [congruence|]. reflexivity.
  - assert (Hsrc : forall k : jsstring -> M BranchInfo,
      bind (emit (GetRepo (owner (repository (common context)))
                          (repo (repository (common context)))) ;;
            repoResponse <- ask (getRepo (owner (repository (common context)))
                                         (repo (repository (common context)))) ;;
            ret (default_branch repoResponse)) k s
      = k (default_branch response)
          (mkState w (log s ++ [GetRepo (owner (repository (common context)))
                                        (repo (repository (common context)))]))).
    { intros k. unfold bind at 1. erewrite bind_returned by apply emit_returns.
      unfold bind, ask, ret. cbn [world log]. now rewrite Hrepo. }
    destruct Hb as [Hb | Hb]; rewrite Hb; apply Hsrc.
Qed.

(** When the repository query fails nothing else happens. *)
Lemma setupBranch_no_source githubData context s e w :
  EventContext.baseBranch (inputs (common context)) = None \/
  EventContext.baseBranch (inputs (common context)) = Some [] ->
  getRepo (owner (repository (common context))) (repo (repository (common context)))
          (world s) = (Throws e, w) ->
  setupBranch githubData context s =
    (Thrown e, mkState w (log s ++ [GetRepo (owner (repository (common context)))
                                            (repo (repository (common context)))])).
Proof.
  intros Hb Hrepo. unfold setupBranch.
  assert (Hsrc : forall k : jsstring -> M BranchInfo,
      bind (emit (GetRepo (owner (repository (common context)))
                          (repo (repository (common context)))) ;;
            repoResponse <- ask (getRepo (owner (repository (common context)))
                                         (repo (repository (common context)))) ;;
            ret (default_branch repoResponse)) k s
      = (Thrown e, mkState w (log s ++ [GetRepo (owner (repository (common context)))
                                                (repo (repository (common context)))]))).
  { intros k. unfold bind at 1. erewrite bind_returned by apply emit_returns.
    unfold bind, ask, ret. cbn [world log]. now rewrite Hrepo. }
  destruct Hb as [Hb | Hb]; rewrite Hb; apply Hsrc.
Qed.

End SetupFacts.

Section ClosedPullRequest.
Context `{HostOps}.
Variables (githubData : FetchDataResult) (context : ParsedGitHubContext).
Hypothesis is_pr : isPR context = true.
Hypothesis closed : isClosed (state (contextData githubData)).

Let info (b : jsstring) : BranchInfo :=
  {| Setup.baseBranch := b; claudeBranch := None; currentBranch := b |}.

Lemma afterSource_closed sourceBranch :
  afterSource githubData context sourceBranch =
    (sh_git [str "fetch"; str "origin"; str "--depth=1"; sourceBranch] ;;
     sh_git [str "checkout"; sourceBranch] ;;
     sh_git [str "pull"; str "origin"; sourceBranch] ;;
     ret (info sourceBranch)).
Proof. unfold afterSource. rewrite is_pr, (isClosed_test _ closed). reflexivity. Qed.

(** The shallow path stops at the first command that fails. *)
Lemma closed_path_shape sourceBranch s1 :
  exists n o s',
    afterSource githubData context sourceBranch s1 = (o, s') /\
    log s' = log s1 ++ map Git (firstn n (shallowPath sourceBranch)) /\
    match o with
    | Returned i => n = 3%nat /\ i = info sourceBranch
    | Thrown _ => (1 <= n <= 3)%nat
    | Exited _ => False
    end.
Proof.
  rewrite afterSource_closed.
  destruct (sh_git_cases [str "fetch"; str "origin"; str "--depth=1"; sourceBranch] s1)
    as [[o1 [w1 H1]] | [e1 [w1 H1]]].
  2:{ exists 1%nat. eexists _, _. split; [apply bind_thrown; exact H1|].
      split; [reflexivity | lia]. }
  erewrite bind_returned by exact H1.
  match goal with |- context [bind _ _ ?s] => set (s2 := s) end.
  destruct (sh_git_cases [str "checkout"; sourceBranch] s2) as [[o2 [w2 H2]] | [e2 [w2 H2]]].
  2:{ exists 2%nat. eexists _, _. split; [apply bind_thrown; exact H2|].
      split; [cbn [log s2]; now rewrite <- app_assoc | lia]. }
  erewrite bind_returned by exact H2.
  match goal with |- context [bind _ _ ?s] => set (s3 := s) end.
  destruct (sh_git_cases [str "pull"; str "origin"; sourceBranch] s3) as [[o3 [w3 H3]] | [e3 [w3 H3]]].
  2:{ exists 3%nat. eexists _, _. split; [apply bind_thrown; exact H3|].
      split; [cbn [log s2 s3]; now rewrite <- !app_assoc | lia]. }
  erewrite bind_returned by exact H3.
  exists 3%nat. eexists _, _. split; [reflexivity|].
  split; [cbn [log s2 s3]; now rewrite <- !app_assoc | now split].
Qed.

Lemma closed_path_succeeds sourceBranch s1 o1 w1 o2 w2 o3 w3 :
  git [str "fetch"; str "origin"; str "--depth=1"; sourceBranch] (world s1) = (Normal o1, w1) ->
  git [str "checkout"; sourceBranch] w1 = (Normal o2, w2) ->
  git [str "pull"; str "origin"; sourceBranch] w2 = (Normal o3, w3) ->
  afterSource githubData context sourceBranch s1 =
    (Returned (info sourceBranch), mkState w3 (log s1 ++ map Git (shallowPath sourceBranch))).
Proof.
  intros H1 H2 H3. rewrite afterSource_closed.
  erewrite bind_returned by (apply sh_git_ok; exact H1).
  erewrite bind_returned by (apply sh_git_ok; exact H2).
  erewrite bind_returned by (apply sh_git_ok; exact H3).
  cbn [log map shallowPath]. rewrite <- !app_assoc. reflexivity.
Qed.

Lemma closed_ignores_head head' s :
  setupBranch
    {| contextData := {| state := state (contextData githubData);
                         baseRefName := baseRefName (contextData githubData);
                         headRefName := head' |} |} context s
  = setupBranch githubData context s.
Proof.
  unfold setupBranch. cbn [contextData state].
  rewrite is_pr, (isClosed_test _ closed). reflexivity.
Qed.

End ClosedPullRequest.

(** C6.  For a pull request whose fetched state is CLOSED or MERGED, with
    the source branch resolved (the override, else the default branch):
    the git commands [setupBranch] issues are the shallow path on the source
    branch (fetch with depth 1, checkout, pull) up to the first one that
    fails; if it returns, all three ran and the branch info has both
    [baseBranch] and [currentBranch] equal to the source branch; if the three
    commands succeed it does return; and nothing it does depends on the
    recorded head ref. *)
Theorem closed_pr_checks_out_source `{HostOps} githubData context s sourceBranch s1 :
  isPR context = true ->
  isClosed (state (contextData githubData)) ->
  ResolvesSource context s sourceBranch s1 ->
  (exists n o s',
     setupBranch githubData context s = (o, s') /\
     log s' = log s1 ++ map Git (firstn n (shallowPath sourceBranch)) /\
     match o with
     | Returned i =>
         n = 3%nat /\
         i = {| Setup.baseBranch := sourceBranch; claudeBranch := None;
                currentBranch := sourceBranch |}
     | Thrown _ => (1 <= n <= 3)%nat
     | Exited _ => False
     end) /\
  (forall o1 w1 o2 w2 o3 w3,
     git [str "fetch"; str "origin"; str "--depth=1"; sourceBranch] (world s1) = (Normal o1, w1) ->
     git [str "checkout"; sourceBranch] w1 = (Normal o2, w2) ->
     git [str "pull"; str "origin"; sourceBranch] w2 = (Normal o3, w3) ->
     setupBranch githubData context s =
       (Returned {| Setup.baseBranch := sourceBranch; claudeBranch := None;
                    currentBranch := sourceBranch |},
        mkState w3 (log s1 ++ map Git (shallowPath sourceBranch)))) /\
  (forall head',
     setupBranch
       {| contextData := {| state := state (contextData githubData);
                            baseRefName := baseRefName (contextData githubData);
                            headRefName := head' |} |} context s
     = setupBranch githubData context s).
Proof.
  intros Hpr Hclosed Hsrc. split; [|split].
  - rewrite (setupBranch_afterSource _ _ _ _ _ Hsrc).
    now apply closed_path_shape.
  - intros. rewrite (setupBranch_afterSource _ _ _ _ _ Hsrc).
    eapply closed_path_succeeds; eassumption.
  - intros head'. now apply closed_ignores_head.
Qed.

Lemma closed_pr_checks_out_source_witness :
  setupBranch (H := Scenario.obliging)
    (Scenario.pullRequest (str "CLOSED") (str "main") (str "feature"))
    (Scenario.prEvent None) (Scenario.start (H := Scenario.obliging) tt)
  = (Returned {| Setup.baseBranch := str "main"; claudeBranch := None;
                 currentBranch := str "main" |},
     mkState (H := Scenario.obliging) tt
       ([GetRepo (str "o") (str "r")] ++ map Git (shallowPath (str "main")))).
Proof.
  exact (proj1 (proj2 (closed_pr_checks_out_source (H := Scenario.obliging)
           (Scenario.pullRequest (str "CLOSED") (str "main") (str "feature"))
           (Scenario.prEvent None) (Scenario.start (H := Scenario.obliging) tt)
           (str "main") (mkState (H := Scenario.obliging) tt [GetRepo (str "o") (str "r")])
           eq_refl (or_introl eq_refl)
           (@FromRepository Scenario.obliging (Scenario.prEvent None)
              (Scenario.start (H := Scenario.obliging) tt) Scenario.mainRepo tt
              (or_introl eq_refl) eq_refl)))
         [] tt [] tt [] tt eq_refl eq_refl eq_refl).
Defined.

Section OpenPullRequest.
Context `{HostOps}.
Variables (githubData : FetchDataResult) (context : ParsedGitHubContext).
Hypothesis is_pr : isPR context = true.
Hypothesis open :
  (JS.eqb (state (contextData githubData)) (str "CLOSED") ||
   JS.eqb (state (contextData githubData)) (str "MERGED")) = false.

Let head := headRefName (contextData githubData).

Lemma afterSource_open sourceBranch :
  afterSource githubData context sourceBranch =
    (sh_git [str "fetch"; str "origin"; str "--depth=20"; head] ;;
     sh_git [str "checkout"; head] ;;
     lift (validateBranchName (baseRefName (contextData githubData))) ;;
     ret {| Setup.baseBranch := baseRefName (contextData githubData);
            claudeBranch := None; currentBranch := head |}).
Proof. unfold afterSource. rewrite is_pr, open. reflexivity. Qed.

(** On an open pull request the head ref goes to git as it was fetched:
    the first command is the fetch of that very string, whatever it is. *)
Lemma open_path_shape sourceBranch s1 :
  exists n o s',
    afterSource githubData context sourceBranch s1 = (o, s') /\
    log s' = log s1 ++ map Git (firstn n (headPath head)) /\
    match o with
    | Returned i =>
        n = 2%nat /\
        i = {| Setup.baseBranch := baseRefName (contextData githubData);
               claudeBranch := None; currentBranch := head |} /\
        Accepts (baseRefName (contextData githubData))
    | Thrown _ => (1 <= n <= 2)%nat
    | Exited _ => False
    end.
Proof.
  rewrite afterSource_open.
  destruct (sh_git_cases [str "fetch"; str "origin"; str "--depth=20"; head] s1)
    as [[o1 [w1 H1]] | [e1 [w1 H1]]].
  2:{ exists 1%nat. eexists _, _. split; [apply bind_thrown; exact H1|].
      split; [reflexivity | lia]. }
  erewrite bind_returned by exact H1.
  match goal with |- context [bind _ _ ?s] => set (s2 := s) end.
  destruct (sh_git_cases [str "checkout"; head] s2) as [[o2 [w2 H2]] | [e2 [w2 H2]]].
  2:{ exists 2%nat. eexists _, _. split; [apply bind_thrown; exact H2|].
      split; [cbn [log s2]; now rewrite <- app_assoc | lia]. }
  erewrite bind_returned by exact H2.
  exists 2%nat. unfold Accepts.
  destruct (validateBranchName (baseRefName (contextData githubData))) as [[]|e] eqn:Hv.
  - eexists _, _. split; [reflexivity|].
    split; [cbn [log s2]; now rewrite <- app_assoc | now repeat split].
  - eexists _, _. split; [reflexivity|].
    split; [cbn [log s2]; now rewrite <- app_assoc | lia].
Qed.

End OpenPullRequest.

Section PullRequestPaths.
Context `{HostOps}.

Lemma firstn_sub A n (l : list A) x : In x (firstn n l) -> In x l.
Proof.
  revert l. induction n as [|n IH]; intros [|y l]; simpl; try tauto.
  intros [-> | Hx]; [now left | right; now apply IH].
Qed.

(** For a pull request, open or not, [setupBranch] never asks git which
    branch is checked out and never ends the process. *)
Lemma pr_paths_never_read_back githubData context s sourceBranch s1 :
  isPR context = true ->
  ResolvesSource context s sourceBranch s1 ->
  exists cmds o s',
    setupBranch githubData context s = (o, s') /\
    log s' = log s1 ++ map Git cmds /\
    ~ In [str "branch"; str "--show-current"] cmds /\
    (forall c, o <> Exited c).
Proof.
  intros Hpr Hsrc. rewrite (setupBranch_afterSource _ _ _ _ _ Hsrc).
  destruct (JS.eqb (state (contextData githubData)) (str "CLOSED") ||
            JS.eqb (state (contextData githubData)) (str "MERGED")) eqn:Hst.
  - assert (Hclosed : isClosed (state (contextData githubData))).
    { apply orb_true_iff in Hst. destruct Hst as [Hc | Hm]; [left | right];
        now apply JS_eqb_eq. }
    destruct (closed_path_shape githubData context Hpr Hclosed sourceBranch s1)
      as [n [o [s' [Hrun [Hlog Ho]]]]].
    exists (firstn n (shallowPath sourceBranch)), o, s'.
    split; [exact Hrun | split; [exact Hlog | split]].
    + intros Hin. apply firstn_sub in Hin. cbn in Hin.
      destruct Hin as [Hc | [Hc | [Hc | []]]]; discriminate Hc.
    + intros c ->. exact Ho.
  - destruct (open_path_shape githubData context Hpr Hst sourceBranch s1)
      as [n [o [s' [Hrun [Hlog Ho]]]]].
    exists (firstn n (headPath (headRefName (contextData githubData)))), o, s'.
    split; [exact Hrun | split; [exact Hlog | split]].
    + intros Hin. apply firstn_sub in Hin. cbn in Hin.
      destruct Hin as [Hc | [Hc | []]]; discriminate Hc.
    + intros c ->. exact Ho.
Qed.

(** For an issue, a current branch other than the source branch ends the
    process with status 1. *)
Lemma issue_path_mismatch_is_fatal githubData context s sourceBranch s1
    o0 w0 o1 w1 o2 w2 o3 w3 out w4 :
  isPR context = false ->
  ResolvesSource context s sourceBranch s1 ->
  git [str "status"] (world s1) = (Normal o0, w0) ->
  git [str "fetch"; str "origin"; str "--depth=1"; sourceBranch] w0 = (Normal o1, w1) ->
  git [str "checkout"; sourceBranch] w1 = (Normal o2, w2) ->
  git [str "pull"; str "origin"; sourceBranch] w2 = (Normal o3, w3) ->
  git [str "branch"; str "--show-current"] w3 = (Normal out, w4) ->
  trim out <> sourceBranch ->
  setupBranch githubData context s =
    (Exited 1%Z,
     mkState w4 (log s1 ++ map Git ([str "status"] :: shallowPath sourceBranch ++
                                    [[str "branch"; str "--show-current"]]))).
Proof.
  intros Hpr Hsrc H0 H1 H2 H3 H4 Hne.
  rewrite (setupBranch_afterSource _ _ _ _ _ Hsrc). unfold afterSource. rewrite Hpr.
  erewrite tryCatch_thrown; [reflexivity|].
  erewrite bind_returned by (apply sh_git_ok; exact H0).
  erewrite bind_returned by (apply sh_git_ok; exact H1).
  erewrite bind_returned by (apply sh_git_ok; exact H2).
  erewrite bind_returned by (apply sh_git_ok; exact H3).
  erewrite bind_returned by (apply sh_git_ok; exact H4).
  destruct (JS.eqb (trim out) sourceBranch) eqn:Heq.
  - apply JS_eqb_eq in Heq. contradiction.
  - erewrite bind_thrown by reflexivity.
    cbn [log map shallowPath app]. rewrite <- !app_assoc. reflexivity.
Qed.

End PullRequestPaths.

(** C1 (the code departs from it).  A pull request is open and its
    recorded head ref is [--upload-pack=evil], a name the validator throws
    on.  [setupBranch] hands that string to [git fetch] and [git checkout]
    and reports it as the current branch; only the base ref is validated,
    and only after both commands have run. *)
Theorem head_ref_reaches_git_unvalidated :
  Rejects (str "--upload-pack=evil") /\
  setupBranch (H := Scenario.obliging)
    (Scenario.pullRequest (str "OPEN") (str "main") (str "--upload-pack=evil"))
    (Scenario.prEvent (Some (str "main"))) (Scenario.start (H := Scenario.obliging) tt)
  = (Returned {| Setup.baseBranch := str "main"; claudeBranch := None;
                 currentBranch := str "--upload-pack=evil" |},
     mkState (H := Scenario.obliging) tt
       [Git [str "fetch"; str "origin"; str "--depth=20"; str "--upload-pack=evil"];
        Git [str "checkout"; str "--upload-pack=evil"]]).
Proof. split; [eexists; vm_compute; reflexivity | vm_compute; reflexivity]. Qed.

(** C7 (the code departs from it).  The repository has a tag [v1.0];
    checking it out detaches HEAD, so no branch is current afterwards.  With
    [v1.0] as the base-branch override of a closed pull request, and with
    [v1.0] as the head ref of an open one, [setupBranch] returns [v1.0] as
    the current branch without asking git; for an issue the same override
    ends the process with status 1. *)
Theorem pr_paths_skip_current_branch_check :
  let host := Scenario.tagged [str "v1.0"] in
  let s0 := Scenario.start (H := host) (Some (str "main")) in
  setupBranch (H := host) (Scenario.pullRequest (str "CLOSED") (str "main") (str "feature"))
    (Scenario.prEvent (Some (str "v1.0"))) s0
  = (Returned {| Setup.baseBranch := str "v1.0"; claudeBranch := None;
                 currentBranch := str "v1.0" |},
     mkState (H := host) None (map Git (shallowPath (str "v1.0")))) /\
  setupBranch (H := host) (Scenario.pullRequest (str "OPEN") (str "main") (str "v1.0"))
    (Scenario.prEvent None) s0
  = (Returned {| Setup.baseBranch := str "main"; claudeBranch := None;
                 currentBranch := str "v1.0" |},
     mkState (H := host) None (GetRepo (str "o") (str "r") :: map Git (headPath (str "v1.0")))) /\
  fst (git (HostOps := host) [str "branch"; str "--show-current"] None) = Normal [] /\
  fst (setupBranch (H := host) (Scenario.pullRequest (str "OPEN") [] [])
         (Scenario.issueEvent (Some (str "v1.0"))) s0) = Exited 1%Z.
Proof. repeat split; vm_compute; reflexivity. Qed.

(* ================================================================== *)
(** * The permission check and the prepare flow *)

Section PermissionCheck.
Context `{HostOps}.
Variables (context : BaseContext) (s : State).

Let asked : Event := GetRepo (owner (repository context)) (repo (repository context)).
Let answer := getRepo (owner (repository context)) (repo (repository context)) (world s).

Lemma checkWritePermissions_answered response w :
  answer = (Normal response, w) ->
  checkWritePermissions context s =
    (Returned (match permissions response with
               | None => true
               | Some perms => admin perms || push perms
               end),
     mkState w (log s ++ [asked])).
Proof.
  intros Ha. unfold checkWritePermissions.
  erewrite tryCatch_returned; [reflexivity|].
  erewrite bind_returned by apply emit_returns.
  erewrite bind_returned.
  2:{ unfold ask. cbn [world log]. fold answer. rewrite Ha. reflexivity. }
  destruct (permissions response) as [perms|]; [|reflexivity].
  destruct (admin perms || push perms); reflexivity.
Qed.

Lemma checkWritePermissions_unanswered e w :
  answer = (Throws e, w) ->
  checkWritePermissions context s =
    (Thrown (newError (str "Failed to check permissions for " ++ actor context ++ str ": " ++
                       errorToString e)),
     mkState w (log s ++ [asked])).
Proof.
  intros Ha. unfold checkWritePermissions.
  erewrite tryCatch_thrown; [reflexivity|].
  erewrite bind_returned by apply emit_returns.
  apply bind_thrown. unfold ask. cbn [world log]. fold answer. now rewrite Ha.
Qed.

End PermissionCheck.

(** C4.  [checkWritePermissions] returns true when the repository response
    has no [permissions] field, true when [admin] or [push] is set, false
    when both are unset, and throws when the repository query fails. *)
Theorem checkWritePermissions_decision `{HostOps} context s :
  let answer := getRepo (owner (repository context)) (repo (repository context)) (world s) in
  let after w :=
    mkState w (log s ++ [GetRepo (owner (repository context)) (repo (repository context))]) in
  (forall response w,
      answer = (Normal response, w) -> permissions response = None ->
      checkWritePermissions context s = (Returned true, after w)) /\
  (forall response w perms,
      answer = (Normal response, w) -> permissions response = Some perms ->
      admin perms = true \/ push perms = true ->
      checkWritePermissions context s = (Returned true, after w)) /\
  (forall response w perms,
      answer = (Normal response, w) -> permissions response = Some perms ->
      admin perms = false -> push perms = false ->
      checkWritePermissions context s = (Returned false, after w)) /\
  (forall e w,
      answer = (Throws e, w) ->
      checkWritePermissions context s =
        (Thrown (newError (str "Failed to check permissions for " ++ actor context ++
                           str ": " ++ errorToString e)), after w)).
Proof.
  cbv zeta. repeat split.
  - intros response w Ha Hp. rewrite (checkWritePermissions_answered _ _ _ _ Ha), Hp.
    reflexivity.
  - intros response w perms Ha Hp Hw. rewrite (checkWritePermissions_answered _ _ _ _ Ha), Hp.
    destruct Hw as [-> | ->]; [reflexivity | now rewrite orb_true_r].
  - intros response w perms Ha Hp Hadm Hpush.
    rewrite (checkWritePermissions_answered _ _ _ _ Ha), Hp, Hadm, Hpush. reflexivity.
  - intros e w Ha. exact (checkWritePermissions_unanswered _ _ _ _ Ha).
Qed.

Lemma checkWritePermissions_decision_witness :
  checkWritePermissions (H := Scenario.withPermissions Scenario.readOnly) Scenario.base0
    (Scenario.start (H := Scenario.withPermissions Scenario.readOnly) tt)
  = (Returned false,
     mkState (H := Scenario.withPermissions Scenario.readOnly) tt [GetRepo (str "o") (str "r")]).
Proof.
  exact (proj1 (proj2 (proj2
           (checkWritePermissions_decision (H := Scenario.withPermissions Scenario.readOnly)
              Scenario.base0 (Scenario.start (H := Scenario.withPermissions Scenario.readOnly) tt))))
         {| default_branch := str "main"; permissions := Some Scenario.readOnly |} tt
         Scenario.readOnly eq_refl eq_refl eq_refl eq_refl).
Defined.

Section PrepareFlow.
Import Prepare.
Context `{Collaborators}.
Variable penv : ProcessEnv.

Lemma call_returned A (f : Step) (q : World -> Outcome A * World) s a w :
  q (world s) = (Returned a, w) ->
  call f q s = (Returned a, mkState w (log s ++ [Call f])).
Proof.
  intros Hq. unfold call. erewrite bind_returned by apply emit_returns.
  cbn [world log]. now rewrite Hq.
Qed.

(** C3.  In a run where the token is set up, the context is parsed and
    [checkWritePermissions] returns false, the process exits with status 1
    after reporting the failure; what it did is the three calls, the
    repository query of the check and the two failure outputs: neither
    [checkTriggerAction] nor [createInitialComment] has been called. *)
Theorem denied_run_aborts_before_trigger s token w1 context w2 s3 :
  setupGitHubToken (world s) = (Returned token, w1) ->
  parseGitHubContext w1 = (Returned context, w2) ->
  checkWritePermissions (baseOf context)
    (mkState w2 (log s ++ [Call SetupGitHubToken; Call ParseGitHubContext;
                           Call CheckWritePermissions])) = (Returned false, s3) ->
  let done :=
    [Call SetupGitHubToken; Call ParseGitHubContext; Call CheckWritePermissions;
     GetRepo (owner (repository (baseOf context))) (repo (repository (baseOf context)));
     SetFailed (str "Prepare step failed with error: " ++
                str "Actor does not have write permissions to the repository");
     SetOutput (str "prepare_error")
               (str "Actor does not have write permissions to the repository")] in
  run penv s = (Exited 1%Z, mkState (world s3) (log s ++ done)) /\
  ~ In (Call CheckTriggerAction) done /\
  ~ In (Call CreateInitialComment) done.
Proof.
  intros Htok Hctx Hperm done. split; [|split].
  - assert (Hlog : log s3 = log s ++ [Call SetupGitHubToken; Call ParseGitHubContext;
                                      Call CheckWritePermissions;
                                      GetRepo (owner (repository (baseOf context)))
                                              (repo (repository (baseOf context)))]).
    { set (s2 := mkState w2 (log s ++ [Call SetupGitHubToken; Call ParseGitHubContext;
                                       Call CheckWritePermissions])) in Hperm.
      destruct (getRepo (owner (repository (baseOf context)))
                        (repo (repository (baseOf context))) w2) as [[response|e] w] eqn:Ha.
      - rewrite (checkWritePermissions_answered (baseOf context) s2 response w Ha) in Hperm.
        injection Hperm as _ <-. cbn [log s2]. now rewrite <- app_assoc.
      - rewrite (checkWritePermissions_unanswered (baseOf context) s2 e w Ha) in Hperm.
        discriminate. }
    assert (Hbody : runBody penv s =
      (Thrown (newError (str "Actor does not have write permissions to the repository")), s3)).
    { unfold runBody.
      erewrite bind_returned by (apply call_returned; exact Htok).
      erewrite bind_returned by (apply call_returned; exact Hctx).
      erewrite bind_returned.
      2:{ erewrite bind_returned by apply emit_returns.
          cbn [world log]. rewrite <- !app_assoc. exact Hperm. }
      reflexivity. }
    unfold run. erewrite tryCatch_thrown by exact Hbody.
    erewrite bind_returned by apply emit_returns.
    erewrite bind_returned by apply emit_returns.
    unfold exit. cbn [world log message newError]. rewrite Hlog.
    unfold done. rewrite <- !app_assoc. reflexivity.
  - unfold done. cbn. intuition discriminate.
  - unfold done. cbn. intuition discriminate.
Qed.

(** A repository query that fails inside the permission check ends the run
    the same way, before the trigger check. *)
Lemma failed_permission_query_aborts_run s token w1 context w2 e w3 :
  setupGitHubToken (world s) = (Returned token, w1) ->
  parseGitHubContext w1 = (Returned context, w2) ->
  getRepo (owner (repository (baseOf context))) (repo (repository (baseOf context))) w2
    = (Throws e, w3) ->
  exists done s',
    run penv s = (Exited 1%Z, s') /\
    log s' = log s ++ done /\
    ~ In (Call CheckTriggerAction) done /\
    ~ In (Call CreateInitialComment) done.
Proof.
  intros Htok Hctx Hrepo.
  set (s2 := mkState w2 (log s ++ [Call SetupGitHubToken; Call ParseGitHubContext;
                                   Call CheckWritePermissions])).
  pose proof (checkWritePermissions_unanswered (baseOf context) s2 e w3 Hrepo) as Hperm.
  assert (Hbody : exists error, runBody penv s =
    (Thrown error, mkState w3 (log s2 ++ [GetRepo (owner (repository (baseOf context)))
                                                  (repo (repository (baseOf context)))]))).
  { eexists. unfold runBody.
    erewrite bind_returned by (apply call_returned; exact Htok).
    erewrite bind_returned by (apply call_returned; exact Hctx).
    apply bind_thrown.
    erewrite bind_returned by apply emit_returns.
    cbn [world log]. rewrite <- !app_assoc. exact Hperm. }
  destruct Hbody as [error Hbody].
  eexists _, _. split; [|split; [|split]].
  - unfold run. erewrite tryCatch_thrown by exact Hbody.
    erewrite bind_returned by apply emit_returns.
    erewrite bind_returned by apply emit_returns.
    reflexivity.
  - cbn [log s2]. rewrite <- !app_assoc. reflexivity.
  - cbn. intuition discriminate.
  - cbn. intuition discriminate.
Qed.

End PrepareFlow.

Lemma denied_run_aborts_before_trigger_witness :
  fst (Prepare.run (H0 := Scenario.agreeable (Scenario.withPermissions Scenario.readOnly))
         Scenario.penv0
         (Scenario.start (H := Scenario.withPermissions Scenario.readOnly) tt))
  = Exited 1%Z.
Proof.
  exact (f_equal fst (proj1 (denied_run_aborts_before_trigger
           (H0 := Scenario.agreeable (Scenario.withPermissions Scenario.readOnly))
           Scenario.penv0 (Scenario.start (H := Scenario.withPermissions Scenario.readOnly) tt)
           (str "t") tt (EntityContext (Scenario.issueEvent None)) tt
           (mkState (H := Scenario.withPermissions Scenario.readOnly) tt
              [Call SetupGitHubToken; Call ParseGitHubContext; Call CheckWritePermissions;
               GetRepo (str "o") (str "r")])
           eq_refl eq_refl eq_refl))).
Defined.

(** With write access the same run goes on to the trigger check, the
    tracking comment and the branch setup. *)
Example permitted_run_proceeds :
  let r := Prepare.run (H0 := Scenario.agreeable (Scenario.tagged []))
             Scenario.penv0 (Scenario.start (H := Scenario.tagged []) (Some (str "main"))) in
  fst r = Returned tt /\
  In (Call CheckTriggerAction) (log (snd r)) /\
  In (Call CreateInitialComment) (log (snd r)) /\
  In (Git [str "checkout"; str "main"]) (log (snd r)).
Proof. vm_compute. intuition. Qed.

(* ================================================================== *)
(** * The comment actor filter *)

Section ActorFilterFacts.
Context `{RegExpEngine}.

(** An exclusion that matches decides, whatever the inclusion list. *)
Lemma exclusion_takes_precedence actorLogin includePatterns excludePatterns :
  matchesSome actorLogin excludePatterns = Normal true ->
  shouldIncludeCommentByActor actorLogin includePatterns excludePatterns = Normal false.
Proof. intros Hex. unfold shouldIncludeCommentByActor. now rewrite Hex. Qed.

(** A pattern without a star excludes exactly the login equal to it. *)
Lemma literal_exclusion actorLogin pattern :
  includes (str "*") pattern = false ->
  shouldIncludeCommentByActor actorLogin [] [pattern] =
    Normal (negb (JS.eqb actorLogin pattern)).
Proof.
  intros Hlit. unfold shouldIncludeCommentByActor. cbn [matchesSome]. rewrite Hlit.
  destruct (JS.eqb actorLogin pattern); reflexivity.
Qed.

(** What [filterC] keeps is what [filter] keeps, in the order of the input. *)
Lemma filterC_filter T (keep : T -> Completion bool) comments kept :
  filterC keep comments = Normal kept ->
  kept = filter (fun c => match keep c with Normal b => b | Throws _ => false end) comments.
Proof.
  revert kept. induction comments as [|c rest IH]; intros kept; simpl.
  - intros Heq. now injection Heq as <-.
  - destruct (keep c) as [b|e]; [|discriminate].
    destruct (filterC keep rest) as [kept'|e]; [|discriminate].
    intros Heq. injection Heq as <-. rewrite (IH kept' eq_refl).
    destruct b; reflexivity.
Qed.

(** The filter returns its input, or a [filter] of it: it keeps the order
    and adds nothing. *)
Lemma filterCommentsByActor_preserves_order T (login : T -> jsstring) comments inc exc kept :
  filterCommentsByActor login comments inc exc = Normal kept ->
  exists keep, kept = filter keep comments.
Proof.
  unfold filterCommentsByActor.
  destruct ((N.of_nat (List.length (parseActorFilter inc)) =? 0) &&
            (N.of_nat (List.length (parseActorFilter exc)) =? 0)).
  - intros Heq. injection Heq as <-. exists (fun _ => true).
    symmetry. apply forallb_filter_id. now apply forallb_forall.
  - intros Hf. eexists. exact (filterC_filter _ _ _ _ Hf).
Qed.

(** Without inclusion patterns, excluding [alice] keeps every comment that
    is not by [alice]. *)
Lemma exclude_alice T (login : T -> jsstring) comments :
  filterCommentsByActor login comments [] (str "alice") =
    Normal (filter (fun c => negb (JS.eqb (login c) (str "alice"))) comments).
Proof.
  unfold filterCommentsByActor.
  change (parseActorFilter []) with (@nil jsstring).
  change (parseActorFilter (str "alice")) with [str "alice"].
  cbn [List.length N.of_nat N.eqb andb].
  induction comments as [|c rest IH]; [reflexivity|].
  cbn [filterC filter]. rewrite literal_exclusion by reflexivity.
  rewrite IH. reflexivity.
Qed.

End ActorFilterFacts.

Section BotWildcard.

(** A subject the items [a* b] match ends with a character of [b]. *)
Lemma star_then_one_last a b s :
  matchItems [Many a; One b] s = true ->
  exists p c, s = p ++ [c] /\ atomMatches b c = true.
Proof.
  induction s as [|x s IH].
  - cbn. discriminate.
  - cbn [matchItems]. rewrite orb_true_iff. intros [Hone | Hstar].
    + destruct s as [|y s]; [|now rewrite andb_false_r in Hone].
      rewrite andb_true_r in Hone. exists [], x. now split.
    + apply andb_true_iff in Hstar. destruct Hstar as [_ Hrest].
      destruct (IH Hrest) as [p [c [-> Hc]]]. exists (x :: p), c. now split.
Qed.

(** The expression built from [*[bot]] matches no login that ends in the
    five characters [[bot]]: its last character would have to be one of
    [b], [o], [t]. *)
Lemma bot_pattern_misses_bots login :
  Suffix (str "[bot]") login ->
  test (RegExpEngine := fragmentEngine) (str "^" ++ replaceStars (str "*[bot]") ++ str "$") login
  = Normal false.
Proof.
  intros [p ->]. cbn [test fragmentEngine].
  change (parseSource (str "^" ++ replaceStars (str "*[bot]") ++ str "$"))
    with (Some [Many AnyChar; One (Class false [(98, 98); (111, 111); (116, 116)])]).
  cbv beta iota. f_equal. apply not_true_is_false. intros Hm.
  destruct (star_then_one_last _ _ _ Hm) as [q [c [Heq Hc]]].
  change (str "[bot]") with ([91; 98; 111; 116] ++ [93]) in Heq.
  rewrite app_assoc in Heq. apply app_inj_tail in Heq. destruct Heq as [_ <-].
  discriminate Hc.
Qed.

Lemma bots_are_kept login includePatterns :
  Suffix (str "[bot]") login ->
  shouldIncludeCommentByActor (H := fragmentEngine) login includePatterns [str "*[bot]"] =
    if N.of_nat (List.length includePatterns) =? 0 then Normal true
    else matchesSome (H := fragmentEngine) login includePatterns.
Proof.
  intros Hs. unfold shouldIncludeCommentByActor. cbn [matchesSome].
  change (includes (str "*") (str "*[bot]")) with true. cbv iota.
  now rewrite (bot_pattern_misses_bots _ Hs).
Qed.

(** C8 (the code departs from it).  With the exclusion [*[bot]] and no
    inclusion, the login [dependabot[bot]] is kept and the login [robert] is
    dropped: the pattern is compiled to [^.*[bot]$], whose bracket is a
    character class, so it matches the logins that end in [b], [o] or [t]. *)
Theorem bot_wildcard_keeps_bots :
  parseActorFilter (str "*[bot]") = [str "*[bot]"] /\
  str "^" ++ replaceStars (str "*[bot]") ++ str "$" = str "^.*[bot]$" /\
  shouldIncludeCommentByActor (H := fragmentEngine) (str "dependabot[bot]") [] [str "*[bot]"]
    = Normal true /\
  shouldIncludeCommentByActor (H := fragmentEngine) (str "robert") [] [str "*[bot]"]
    = Normal false /\
  filterCommentsByActor (H := fragmentEngine) (fun login => login)
    [str "alice"; str "dependabot[bot]"; str "robert"] [] (str "*[bot]")
    = Normal [str "alice"; str "dependabot[bot]"].
Proof. repeat split; vm_compute; reflexivity. Qed.

End BotWildcard.

(* ================================================================== *)
(** * What a computation adds to the log *)

Section TraceFacts.
Context `{HostOps}.

Lemma emits_nothing A (m : M A) (P : Event -> Prop) :
  (forall s o s', m s = (o, s') -> log s' = log s) -> Emits P m.
Proof.
  intros Hm s o s' Hrun. exists []. rewrite app_nil_r. split; [eauto | constructor].
Qed.

Lemma emits_ret A (a : A) P : Emits P (ret a).
Proof. apply emits_nothing. intros s o s' Heq. now injection Heq as _ <-. Qed.

Lemma emits_throw A e P : Emits P (@throw _ A e).
Proof. apply emits_nothing. intros s o s' Heq. now injection Heq as _ <-. Qed.

Lemma emits_exit A c P : Emits P (@exit _ A c).
Proof. apply emits_nothing. intros s o s' Heq. now injection Heq as _ <-. Qed.

Lemma emits_lift A (c : Completion A) P : Emits P (lift c).
Proof. destruct c; [apply emits_ret | apply emits_throw]. Qed.

Lemma emits_ask A (q : World -> Completion A * World) P : Emits P (ask q).
Proof.
  apply emits_nothing. intros s o s'. unfold ask.
  destruct (q (world s)) as [[a|e] w]; intros Heq; now injection Heq as _ <-.
Qed.

Lemma emits_emit e (P : Event -> Prop) : P e -> Emits P (emit e).
Proof.
  intros He s o s' Heq. injection Heq as _ <-. exists [e]. split; [reflexivity|].
  now constructor.
Qed.

Lemma emits_bind A B (m : M A) (k : A -> M B) P :
  Emits P m -> (forall a, Emits P (k a)) -> Emits P (bind m k).
Proof.
  intros Hm Hk s o s'. unfold bind.
  destruct (m s) as [[a|e|c] s1] eqn:Hms; intros Hrun;
    destruct (Hm _ _ _ Hms) as [n1 [Hl1 Hp1]].
  - destruct (Hk a _ _ _ Hrun) as [n2 [Hl2 Hp2]].
    exists (n1 ++ n2). rewrite Hl2, Hl1, app_assoc. split; [reflexivity|].
    apply Forall_app. now split.
  - injection Hrun as _ <-. now exists n1.
  - injection Hrun as _ <-. now exists n1.
Qed.

Lemma emits_tryCatch A (m : M A) (h : Error -> M A) P :
  Emits P m -> (forall e, Emits P (h e)) -> Emits P (tryCatch m h).
Proof.
  intros Hm Hh s o s'. unfold tryCatch.
  destruct (m s) as [[a|e|c] s1] eqn:Hms; intros Hrun;
    destruct (Hm _ _ _ Hms) as [n1 [Hl1 Hp1]].
  - injection Hrun as _ <-. now exists n1.
  - destruct (Hh e _ _ _ Hrun) as [n2 [Hl2 Hp2]].
    exists (n1 ++ n2). rewrite Hl2, Hl1, app_assoc. split; [reflexivity|].
    apply Forall_app. now split.
  - injection Hrun as _ <-. now exists n1.
Qed.

Lemma emits_when b (m : M unit) P : Emits P m -> Emits P (when b m).
Proof. destruct b; simpl; [trivial | intros _; apply emits_ret]. Qed.

Lemma emits_forEach A (xs : list A) (body : A -> M unit) P :
  (forall x, In x xs -> Emits P (body x)) -> Emits P (forEach xs body).
Proof.
  induction xs as [|x xs IH]; intros Hb; simpl.
  - apply emits_ret.
  - apply emits_bind; [apply Hb; now left | intros _; apply IH].
    intros y Hy. apply Hb. now right.
Qed.

Lemma emits_weaken A (m : M A) (P Q : Event -> Prop) :
  (forall e, P e -> Q e) -> Emits P m -> Emits Q m.
Proof.
  intros Hpq Hm s o s' Hrun. destruct (Hm _ _ _ Hrun) as [new [Hl Hp]].
  exists new. split; [exact Hl|]. eapply Forall_impl; [exact Hpq | exact Hp].
Qed.

Lemma emits_runGitCommand args (P : Event -> Prop) :
  P (Git args) -> Emits P (Gateway.runGitCommand args).
Proof.
  intros Hp. unfold Gateway.runGitCommand.
  apply emits_bind; [now apply emits_emit | intros _].
  apply emits_bind; [apply emits_ask | intros out; apply emits_ret].
Qed.

Lemma emits_sh_git args (P : Event -> Prop) : P (Git args) -> Emits P (sh_git args).
Proof.
  intros Hp. unfold sh_git.
  apply emits_bind; [now apply emits_emit | intros _; apply emits_ask].
Qed.

End TraceFacts.

(** Decomposes an [Emits] goal along the structure of the program; what is
    left are the events themselves. *)
Ltac emits :=
  repeat first
    [ apply emits_ret | apply emits_throw | apply emits_exit | apply emits_ask
    | apply emits_lift
    | apply emits_runGitCommand | apply emits_sh_git | apply emits_emit
    | apply emits_bind; [| intros ?]
    | apply emits_tryCatch; [| intros ?]
    | apply emits_when
    | match goal with
      | |- Emits _ (if ?b then _ else _) => destruct b
      | |- Emits _ (match ?x with _ => _ end) => destruct x
      end ].

(* ================================================================== *)
(** * The tool server: what each tool does to the repository *)

Section ToolTraces.
Import Gateway.
Context `{HostOps}.

(** A guard that throws lets the rest run only when it did not fire. *)
Lemma emits_guard A (b : bool) e (k : unit -> M A) P :
  (b = false -> Emits P (k tt)) -> Emits P (bind (when b (throw e)) k).
Proof.
  destruct b; intros Hk.
  - exact (emits_throw A e P).
  - exact (Hk eq_refl).
Qed.

Lemma checked_ref_event ref e :
  refPattern ref = true ->
  e = Git [str "checkout"; ref] \/
  e = Git [str "pull"; str "origin"; ref] \/
  e = Git [str "checkout"; str "-b"; ref] \/
  e = Git [str "rev-parse"; str "--verify"; ref] \/
  e = Git [str "fetch"; str "origin"; ref ++ str ":" ++ ref] ->
  OnCheckedRef e.
Proof. intros Hr He. now exists ref. Qed.

Lemma create_branch_emits branch_name base_branch :
  Emits OnCheckedRef (create_branch branch_name base_branch).
Proof.
  unfold create_branch, create_branch_body, onError.
  apply emits_tryCatch; [|intros e; apply emits_ret].
  apply emits_guard. intros Hbase. apply negb_false_iff in Hbase.
  apply emits_bind; [apply emits_runGitCommand; apply (checked_ref_event base_branch); tauto|].
  intros _.
  apply emits_bind; [apply emits_runGitCommand; apply (checked_ref_event base_branch); tauto|].
  intros _.
  apply emits_guard. intros Hname. apply negb_false_iff in Hname.
  apply emits_bind; [apply emits_runGitCommand; apply (checked_ref_event branch_name); tauto|].
  intros _. apply emits_ret.
Qed.

Lemma checkout_branch_emits branch_name c f :
  Emits OnCheckedRef (checkout_branch branch_name c f).
Proof.
  unfold checkout_branch, checkout_branch_body, onError.
  apply emits_tryCatch; [|intros e; apply emits_ret].
  apply emits_guard. intros Hname. apply negb_false_iff in Hname.
  emits; apply (checked_ref_event branch_name); tauto.
Qed.

(** X1.  Every git command [create_branch] and [checkout_branch] issue, on any
    path and whatever git answers, is one of their five command forms on a
    ref that matches the server's pattern; such a ref does not start with a
    dash, so it is never read as an option. *)
Theorem branch_tools_run_git_on_checked_refs :
  (forall branch_name base_branch, Emits OnCheckedRef (create_branch branch_name base_branch)) /\
  (forall branch_name c f, Emits OnCheckedRef (checkout_branch branch_name c f)) /\
  (forall ref, refPattern ref = true -> ~ Prefix (str "-") ref).
Proof.
  split; [exact create_branch_emits | split; [exact checkout_branch_emits|]].
  intros ref Hr [t Ht]. destruct (refPattern_chars _ Hr) as [c [rest [Heq [Hc _]]]].
  rewrite Heq in Ht. injection Ht as -> _. discriminate Hc.
Qed.

End ToolTraces.

Section FileTools.
Import Gateway.
Context `{HostOps}.
Variable env : Env.






End FileTools.

Section BranchTools.
Import Gateway.
Context `{HostOps}.
Variable env : Env.

(** A last git command followed by the result of the tool. *)
Lemma last_step args (done : ToolResult) s :
  exists o w,
    (runGitCommand args ;; ret done) s = (o, mkState w (log s ++ [Git args])) /\
    (o = Returned done \/ exists e, o = Thrown e).
Proof.
  destruct (git args (world s)) as [[out|e] w] eqn:Hg.
  - exists (Returned done), w. split; [|now left].
    erewrite bind_returned by (apply runGitCommand_ok; exact Hg). reflexivity.
  - exists (Thrown e), w. split; [|right; now exists e].
    apply bind_thrown. apply runGitCommand_fails. exact Hg.
Qed.

(** What the [catch] block makes of a [try] block that returns [done] or
    throws. *)
Lemma handler_result (body : M ToolResult) what done s o s' :
  body s = (o, s') ->
  o = Returned done \/ (exists e, o = Thrown e) ->
  exists r, tryCatch body (onError what) s = (Returned r, s') /\
            (isError r = false -> r = done).
Proof.
  intros Hb [-> | [e ->]].
  - exists done. split; [now apply tryCatch_returned | trivial].
  - exists (failure what (message e)). split; [|discriminate].
    erewrite tryCatch_thrown by exact Hb. reflexivity.
Qed.

(** A probe: a git command whose failure is an answer. *)
Lemma attempt_ok args (otherwise : bool) s out w :
  git args (world s) = (Normal out, w) ->
  tryCatch (runGitCommand args ;; ret true) (fun _ => ret otherwise) s =
    (Returned true, mkState w (log s ++ [Git args])).
Proof.
  intros Hg. apply tryCatch_returned.
  erewrite bind_returned by (apply runGitCommand_ok; exact Hg). reflexivity.
Qed.

Lemma attempt_fails args (otherwise : bool) s e w :
  git args (world s) = (Throws e, w) ->
  tryCatch (runGitCommand args ;; ret true) (fun _ => ret otherwise) s =
    (Returned otherwise, mkState w (log s ++ [Git args])).
Proof.
  intros Hg. erewrite tryCatch_thrown; [reflexivity|].
  apply bind_thrown. apply runGitCommand_fails. exact Hg.
Qed.

Let probe (name : jsstring) : Event := Git [str "rev-parse"; str "--verify"; name].
Let fetched (name : jsstring) : Event := Git [str "fetch"; str "origin"; name ++ str ":" ++ name].

Ltac step :=
  erewrite bind_returned by
    first [ eassumption
          | eapply attempt_ok; eassumption
          | eapply attempt_fails; eassumption
          | eapply runGitCommand_ok; eassumption
          | reflexivity ].

(** X4.  [checkout_branch] resolves the name in this order: the local ref, then
    a fetch of the name from the remote (unless [fetch_remote] is false),
    then creation (only with [create_if_missing]); a name found nowhere and
    not to be created is an error, and nothing is checked out. *)
Theorem checkout_branch_resolution_order branch_name c f s :
  refPattern branch_name = true ->
  let create := match c with Some b => b | None => false end in
  let fetchRemote := match f with Some b => b | None => true end in
  (forall o1 w1,
      git [str "rev-parse"; str "--verify"; branch_name] (world s) = (Normal o1, w1) ->
      exists r w,
        checkout_branch branch_name c f s =
          (Returned r, mkState w (log s ++ [probe branch_name; Git [str "checkout"; branch_name]])) /\
        (isError r = false ->
         r = success (str "Successfully checked out branch: " ++ branch_name))) /\
  (forall e1 w1 o2 w2,
      git [str "rev-parse"; str "--verify"; branch_name] (world s) = (Throws e1, w1) ->
      fetchRemote = true ->
      git [str "fetch"; str "origin"; branch_name ++ str ":" ++ branch_name] w1 = (Normal o2, w2) ->
      exists r w,
        checkout_branch branch_name c f s =
          (Returned r, mkState w (log s ++ [probe branch_name; fetched branch_name;
                                            Git [str "checkout"; branch_name]])) /\
        (isError r = false ->
         r = success (str "Successfully checked out branch: " ++ branch_name))) /\
  (forall e1 w1 w2 tried,
      git [str "rev-parse"; str "--verify"; branch_name] (world s) = (Throws e1, w1) ->
      (fetchRemote = false /\ w2 = w1 /\ tried = []) \/
      (fetchRemote = true /\ tried = [fetched branch_name] /\
       exists e2, git [str "fetch"; str "origin"; branch_name ++ str ":" ++ branch_name] w1
                  = (Throws e2, w2)) ->
      if create then
        exists r w,
          checkout_branch branch_name c f s =
            (Returned r, mkState w (log s ++ probe branch_name :: tried ++
                                    [Git [str "checkout"; str "-b"; branch_name]])) /\
          (isError r = false ->
           r = success (str "Successfully created and checked out new branch: " ++ branch_name))
      else
        checkout_branch branch_name c f s =
          (Returned (failure (str "Error checking out branch: ")
                       (str "Branch '" ++ branch_name ++
                        str "' does not exist locally or on remote. Use create_if_missing=true to create it.")),
           mkState w2 (log s ++ probe branch_name :: tried))).
Proof.
  intros Hname create fetchRemote.
  assert (Hguard : forall s0, when (negb (refPattern branch_name))
            (throw (newError (str "Invalid branch name: " ++ branch_name))) s0
            = (Returned tt, s0)).
  { intros s0. rewrite Hname. reflexivity. }
  unfold checkout_branch. fold create fetchRemote.
  split; [|split].
  - intros o1 w1 Hp.
    destruct (last_step [str "checkout"; branch_name]
                (success (str "Successfully checked out branch: " ++ branch_name))
                (mkState w1 (log s ++ [probe branch_name]))) as [o [w [Hlast Ho]]].
    assert (Hbody : checkout_branch_body branch_name create fetchRemote s =
              (o, mkState w (log s ++ [probe branch_name; Git [str "checkout"; branch_name]]))).
    { unfold checkout_branch_body, probe, fetched in *.
      erewrite bind_returned by apply Hguard. step. cbn [negb andb]. step.
      cbn [negb andb log world]. rewrite Hlast. cbn [log]. now rewrite <- app_assoc. }
    destruct (handler_result _ (str "Error checking out branch: ") _ _ _ _ Hbody Ho) as [r Hr].
    now exists r, w.
  - intros e1 w1 o2 w2 Hp Hf Hfetch.
    destruct (last_step [str "checkout"; branch_name]
                (success (str "Successfully checked out branch: " ++ branch_name))
                (mkState w2 ((log s ++ [probe branch_name]) ++ [fetched branch_name])))
      as [o [w [Hlast Ho]]].
    assert (Hbody : checkout_branch_body branch_name create fetchRemote s =
              (o, mkState w (log s ++ [probe branch_name; fetched branch_name;
                                       Git [str "checkout"; branch_name]]))).
    { unfold checkout_branch_body, probe, fetched in *.
      erewrite bind_returned by apply Hguard. step.
      rewrite Hf. cbn [negb andb]. step.
      cbn [negb andb log world]. rewrite Hlast. cbn [log]. now rewrite <- !app_assoc. }
    destruct (handler_result _ (str "Error checking out branch: ") _ _ _ _ Hbody Ho) as [r Hr].
    now exists r, w.
  - intros e1 w1 w2 tried Hp Hcase.
    assert (Hprefix : forall k : bool -> M ToolResult,
              (when (negb (refPattern branch_name))
                    (throw (newError (str "Invalid branch name: " ++ branch_name))) ;;
               branchExists <-
                 tryCatch (runGitCommand [str "rev-parse"; str "--verify"; branch_name] ;; ret true)
                          (fun _ => ret false) ;;
               branchExists <-
                 (if negb branchExists && fetchRemote then
                    tryCatch (runGitCommand [str "fetch"; str "origin";
                                             branch_name ++ str ":" ++ branch_name] ;; ret true)
                             (fun _ => ret branchExists)
                  else ret branchExists) ;;
               k branchExists) s
              = k false (mkState w2 (log s ++ probe branch_name :: tried))).
    { intros k. unfold probe, fetched in *. erewrite bind_returned by apply Hguard. step.
      destruct Hcase as [[Hf [-> ->]] | [Hf [-> [e2 He2]]]]; rewrite Hf; cbn [negb andb].
      - step. reflexivity.
      - step. cbn [log world]. now rewrite <- app_assoc. }
    destruct create.
    + destruct (last_step [str "checkout"; str "-b"; branch_name]
                  (success (str "Successfully created and checked out new branch: " ++ branch_name))
                  (mkState w2 (log s ++ probe branch_name :: tried))) as [o [w [Hlast Ho]]].
      assert (Hbody : checkout_branch_body branch_name true fetchRemote s =
                (o, mkState w (log s ++ probe branch_name :: tried ++
                               [Git [str "checkout"; str "-b"; branch_name]]))).
      { unfold checkout_branch_body, probe, fetched in *. rewrite Hprefix. cbn [negb andb].
        rewrite Hlast. cbn [log]. rewrite <- app_assoc. reflexivity. }
      destruct (handler_result _ (str "Error checking out branch: ") _ _ _ _ Hbody Ho) as [r Hr].
      now exists r, w.
    + assert (Hbody : checkout_branch_body branch_name false fetchRemote s =
                (Thrown (newError (str "Branch '" ++ branch_name ++
                   str "' does not exist locally or on remote. Use create_if_missing=true to create it.")),
                 mkState w2 (log s ++ probe branch_name :: tried))).
      { unfold checkout_branch_body, probe, fetched in *. rewrite Hprefix. reflexivity. }
      erewrite tryCatch_thrown by exact Hbody. reflexivity.
Qed.

End BranchTools.

Lemma checkout_branch_resolution_order_witness :
  Gateway.checkout_branch (H := Scenario.unborn) (str "topic") None (Some false)
    (Scenario.start (H := Scenario.unborn) tt)
  = (Returned (Gateway.failure (str "Error checking out branch: ")
       (str "Branch 'topic' does not exist locally or on remote. Use create_if_missing=true to create it.")),
     mkState (H := Scenario.unborn) tt [Git [str "rev-parse"; str "--verify"; str "topic"]]).
Proof.
  exact (proj2 (proj2 (checkout_branch_resolution_order (H := Scenario.unborn)
           (str "topic") None (Some false) (Scenario.start (H := Scenario.unborn) tt) eq_refl))
         (newError (str "fatal: no such ref")) tt tt [] eq_refl
         (or_introl (conj eq_refl (conj eq_refl eq_refl)))).
Defined.

Section OtherTools.
Import Gateway.
Context `{HostOps}.
Variable env : Env.

(** X5.  [push_branch] asks git for the current branch and pushes that name to
    [origin], with [-f] exactly when [force] is true; when the question
    fails nothing is pushed. *)
Theorem push_branch_pushes_current_branch force s :
  let forced := match force with Some b => b | None => false end in
  (forall e w,
      git [str "rev-parse"; str "--abbrev-ref"; str "HEAD"] (world s) = (Throws e, w) ->
      push_branch force s =
        (Returned (failure (str "Error pushing branch: ") (message e)),
         mkState w (log s ++ [revParseHead]))) /\
  (forall out w,
      git [str "rev-parse"; str "--abbrev-ref"; str "HEAD"] (world s) = (Normal out, w) ->
      exists r w',
        push_branch force s =
          (Returned r, mkState w' (log s ++ [revParseHead; pushCommand forced (trim out)])) /\
        (isError r = false ->
         r = success (str "Successfully pushed branch: " ++ trim out))).
Proof.
  intros forced. unfold push_branch. fold forced. split.
  - intros e w Hg.
    assert (Hbody : push_branch_body forced s = (Thrown e, mkState w (log s ++ [revParseHead]))).
    { unfold push_branch_body. apply bind_thrown. now apply runGitCommand_fails. }
    erewrite tryCatch_thrown by exact Hbody. reflexivity.
  - intros out w Hg.
    set (s1 := mkState w (log s ++ [revParseHead])).
    destruct (last_step (match pushCommand forced (trim out) with Git a => a | _ => [] end)
                (success (str "Successfully pushed branch: " ++ trim out)) s1)
      as [o [w' [Hlast Ho]]].
    assert (Hbody : push_branch_body forced s =
              (o, mkState w' (log s ++ [revParseHead; pushCommand forced (trim out)]))).
    { unfold push_branch_body.
      erewrite bind_returned by (apply runGitCommand_ok; exact Hg). fold s1.
      subst s1. unfold revParseHead in *.
      destruct forced; cbn [pushCommand] in *; cbv iota; rewrite Hlast;
        cbn [log]; now rewrite <- app_assoc. }
    destruct (handler_result _ (str "Error pushing branch: ") _ _ _ _ Hbody Ho) as [r Hr].
    now exists r, w'.
Qed.

(** X6.  [git_status] issues two commands, both of which only read; its text
    names the branch and shows the porcelain status, or "Working tree
    clean" when that is empty. *)
Theorem git_status_only_reads s :
  Emits ReadsStatus git_status /\
  (forall st w1 br w2,
      git [str "status"; str "--porcelain"] (world s) = (Normal st, w1) ->
      git [str "rev-parse"; str "--abbrev-ref"; str "HEAD"] w1 = (Normal br, w2) ->
      git_status s =
        (Returned (success (str "Current branch: " ++ trim br ++ lf ++ str "Status:" ++ lf ++
                            match trim st with
                            | [] => str "Working tree clean"
                            | shown => shown
                            end)),
         mkState w2 (log s ++ [Git [str "status"; str "--porcelain"]; revParseHead]))).
Proof.
  split.
  - unfold git_status, git_status_body, onError. emits; unfold ReadsStatus; tauto.
  - intros st w1 br w2 H1 H2. unfold git_status. apply tryCatch_returned.
    unfold git_status_body.
    erewrite bind_returned by (apply runGitCommand_ok; exact H1).
    erewrite bind_returned by (apply runGitCommand_ok; exact H2).
    cbn [log]. rewrite <- app_assoc. unfold ret, revParseHead.
    destruct (trim st); reflexivity.
Qed.


End OtherTools.

Section PullRequestTool.
Import Gateway.
Context `{HostOps}.
Variable env : Env.

Lemma create_pull_request_emits title body base_branch head_branch :
  Emits (PullRequestTraffic env title body base_branch)
        (create_pull_request env title body base_branch head_branch).
Proof.
  unfold create_pull_request, create_pull_request_body, onError.
  apply emits_tryCatch; [|intros e; apply emits_ret].
  destruct (GITHUB_TOKEN env) as [[|t0 token]|] eqn:Htok; try apply emits_throw.
  apply emits_bind.
  - destruct head_branch as [[|h0 h]|]; try apply emits_ret;
      apply emits_runGitCommand; now left.
  - intros currentBranch. apply emits_bind.
    + apply emits_emit. right. exists (t0 :: token), currentBranch.
      repeat split; [exact Htok | discriminate].
    + intros _. emits.
Qed.

(** X8.  [create_pull_request] needs the token: without one it answers with an
    error and does nothing.  With one, all it ever does is ask git for the
    current branch and post to the pulls endpoint of the configured
    repository, with that token and the title, body and base it was given;
    given a head branch it asks git nothing and posts exactly once. *)
Theorem create_pull_request_traffic title body base_branch head_branch s :
  (GITHUB_TOKEN env = None \/ GITHUB_TOKEN env = Some [] ->
   create_pull_request env title body base_branch head_branch s =
     (Returned (failure (str "Error creating pull request: ")
                  (str "GITHUB_TOKEN environment variable is required for PR creation")), s)) /\
  Emits (PullRequestTraffic env title body base_branch)
        (create_pull_request env title body base_branch head_branch) /\
  (forall token head,
      GITHUB_TOKEN env = Some token -> token <> [] ->
      head_branch = Some head -> head <> [] ->
      exists r w,
        create_pull_request env title body base_branch head_branch s =
          (Returned r,
           mkState w (log s ++ [Http (pullsRequest env token title body base_branch head)]))).
Proof.
  split; [|split].
  - intros Htok. unfold create_pull_request, create_pull_request_body.
    destruct Htok as [-> | ->]; reflexivity.
  - apply create_pull_request_emits.
  - intros token head Htok Hne -> Hhead.
    destruct token as [|t0 token]; [congruence|].
    destruct head as [|h0 head]; [congruence|].
    set (req := pullsRequest env (t0 :: token) title body base_branch (h0 :: head)).
    assert (Hbody : exists o w,
      create_pull_request_body env title body base_branch (Some (h0 :: head)) s =
        (o, mkState w (log s ++ [Http req])) /\ forall c, o <> Exited c).
    { unfold create_pull_request_body. rewrite Htok.
      erewrite bind_returned by reflexivity.
      erewrite bind_returned by apply emit_returns. fold req.
      unfold bind at 1, ask at 1. cbn [world log].
      destruct (fetch req (world s)) as [[response|e] w]; [|eexists _, _; split; [reflexivity | discriminate]].
      destruct (ok response); cbn [negb].
      - unfold bind, ask. cbn [world log].
        destruct (json response); eexists _, _; (split; [reflexivity | discriminate]).
      - unfold bind, ask. cbn [world log].
        destruct (text response); eexists _, _; (split; [reflexivity | discriminate]). }
    destruct Hbody as [o [w [Hbody Ho]]].
    unfold create_pull_request.
    destruct o as [r|e|c].
    + exists r, w. now apply tryCatch_returned.
    + eexists _, w. erewrite tryCatch_thrown by exact Hbody. reflexivity.
    + now elim (Ho c).
Qed.


End PullRequestTool.

(* ================================================================== *)
(** * Branch setup, path by path *)

Section MonadInversion.
Context `{HostOps}.



End MonadInversion.

Section IssuePath.
Context `{HostOps}.
Variables (githubData : FetchDataResult) (context : ParsedGitHubContext).
Hypothesis is_issue : isPR context = false.

Let info (b : jsstring) : BranchInfo :=
  {| Setup.baseBranch := b; claudeBranch := None; currentBranch := b |}.





End IssuePath.





Section SourceResolution.
Context `{HostOps}.

(** X12.  With a base-branch override [setupBranch] never queries the repository;
    without one the query comes first, and when it fails [setupBranch]
    throws its error without having run any git command, also on paths
    that would not use the default branch. *)
Theorem setupBranch_source_resolution githubData context s :
  (forall b,
      EventContext.baseBranch (inputs (common context)) = Some b -> b <> [] ->
      Emits (fun e => forall o r, e <> GetRepo o r) (setupBranch githubData context)) /\
  (forall e w,
      EventContext.baseBranch (inputs (common context)) = None \/
      EventContext.baseBranch (inputs (common context)) = Some [] ->
      getRepo (owner (repository (common context))) (repo (repository (common context)))
              (world s) = (Throws e, w) ->
      setupBranch githubData context s =
        (Thrown e, mkState w (log s ++ [GetRepo (owner (repository (common context)))
                                                (repo (repository (common context)))]))).
Proof.
  split.
  - intros b Hb Hne. unfold setupBranch. rewrite Hb.
    destruct b as [|c b]; [congruence|].
    emits; intros o r; discriminate.
  - intros e w Hb Hrepo. now apply setupBranch_no_source.
Qed.

End SourceResolution.

(* ================================================================== *)
(** * The prepare flow, path by path *)

Section PrepareFacts.
Import Prepare.
Context `{Collaborators}.
Variable penv : ProcessEnv.

Lemma call_thrown A (f : Step) (q : World -> Outcome A * World) s e w :
  q (world s) = (Thrown e, w) ->
  call f q s = (Thrown e, mkState w (log s ++ [Call f])).
Proof.
  intros Hq. unfold call. erewrite bind_returned by apply emit_returns.
  cbn [world log]. now rewrite Hq.
Qed.

Lemma call_exited A (f : Step) (q : World -> Outcome A * World) s c w :
  q (world s) = (Exited c, w) ->
  call f q s = (Exited c, mkState w (log s ++ [Call f])).
Proof.
  intros Hq. unfold call. erewrite bind_returned by apply emit_returns.
  cbn [world log]. now rewrite Hq.
Qed.

Lemma emits_call A (f : Step) (q : World -> Outcome A * World) (P : Event -> Prop) :
  P (Call f) -> Emits P (call f q).
Proof.
  intros Hp. unfold call. apply emits_bind; [now apply emits_emit | intros _].
  apply emits_nothing. intros s o s'. destruct (q (world s)) as [o' w].
  intros Heq. now injection Heq as _ <-.
Qed.

(** What the [catch] block of [run] does with an error. *)
Lemma run_reports s e s1 :
  runBody penv s = (Thrown e, s1) ->
  run penv s =
    (Exited 1%Z,
     mkState (world s1)
       (log s1 ++ [SetFailed (str "Prepare step failed with error: " ++ message e);
                   SetOutput (str "prepare_error") (message e)])).
Proof.
  intros Hbody. unfold run. erewrite tryCatch_thrown by exact Hbody.
  erewrite bind_returned by apply emit_returns.
  erewrite bind_returned by apply emit_returns.
  unfold exit. cbn [world log]. now rewrite <- app_assoc.
Qed.

(** X13.  [run] never lets an error escape: an error thrown anywhere in its
    [try] block is reported with [setFailed] and the output [prepare_error],
    and the process ends with status 1. *)
Theorem run_turns_errors_into_exit s :
  (forall e s', run penv s <> (Thrown e, s')) /\
  (forall e s1,
      runBody penv s = (Thrown e, s1) ->
      run penv s =
        (Exited 1%Z,
         mkState (world s1)
           (log s1 ++ [SetFailed (str "Prepare step failed with error: " ++ message e);
                       SetOutput (str "prepare_error") (message e)]))).
Proof.
  split; [|exact (run_reports s)].
  intros e s' Hrun.
  destruct (runBody penv s) as [[[]|e1|c] s1] eqn:Hbody.
  - unfold run in Hrun. erewrite tryCatch_returned in Hrun by exact Hbody. discriminate.
  - rewrite (run_reports _ _ _ Hbody) in Hrun. discriminate.
  - unfold run, tryCatch in Hrun. rewrite Hbody in Hrun. discriminate.
Qed.

(** Without a trigger the run stops after setting its two outputs: it
    returns, and nothing further has been called. *)
Theorem run_without_trigger_stops s token w1 context w2 s3 w4 :
  setupGitHubToken (world s) = (Returned token, w1) ->
  parseGitHubContext w1 = (Returned context, w2) ->
  checkWritePermissions (baseOf context)
    (mkState w2 (log s ++ [Call SetupGitHubToken; Call ParseGitHubContext;
                           Call CheckWritePermissions])) = (Returned true, s3) ->
  checkTriggerAction context (world s3) = (Returned false, w4) ->
  run penv s =
    (Returned tt,
     mkState w4 (log s3 ++ [Call CheckTriggerAction;
                            SetOutput (str "contains_trigger") (str "false");
                            SetOutput (str "GITHUB_TOKEN") token])).
Proof.
  intros Htok Hctx Hperm Htrig. unfold run. apply tryCatch_returned. unfold runBody.
  erewrite bind_returned by (apply call_returned; exact Htok).
  erewrite bind_returned by (apply call_returned; exact Hctx).
  erewrite bind_returned.
  2:{ erewrite bind_returned by apply emit_returns.
      cbn [world log]. rewrite <- !app_assoc. exact Hperm. }
  erewrite bind_returned by reflexivity.
  erewrite bind_returned by (apply call_returned; exact Htrig).
  erewrite bind_returned by apply emit_returns.
  erewrite bind_returned by apply emit_returns.
  cbn [negb world log boolToString]. unfold ret. now rewrite <- !app_assoc.
Qed.

Lemma checkWritePermissions_emits context (P : Event -> Prop) :
  P (GetRepo (owner (repository context)) (repo (repository context))) ->
  Emits P (checkWritePermissions context).
Proof. intros Hp. unfold checkWritePermissions. emits. exact Hp. Qed.

Lemma automationFlow_headless token mode context :
  Emits Headless (automationFlow penv token mode context).
Proof.
  unfold automationFlow.
  apply emits_bind; [apply emits_emit; exact I | intros _].
  apply emits_bind; [apply emits_call; exact I | intros _].
  apply emits_bind; [apply emits_call; exact I | intros mcpConfig].
  apply emits_emit. exact I.
Qed.

(** X15.  On a schedule, dispatch or workflow-run event the run never runs git,
    never creates or updates a tracking comment, never fetches entity data
    and never sets up a branch, whatever its collaborators answer. *)
Theorem automation_run_is_headless s token w1 base w2 o s' :
  setupGitHubToken (world s) = (Returned token, w1) ->
  parseGitHubContext w1 = (Returned (AutomationContext base), w2) ->
  run penv s = (o, s') ->
  exists new, log s' = log s ++ new /\ Forall Headless new.
Proof.
  intros Htok Hctx Hrun.
  set (s2 := mkState w2 (log s ++ [Call SetupGitHubToken; Call ParseGitHubContext])).
  set (rest :=
    (hasWritePermissions <- (emit (Call CheckWritePermissions) ;; checkWritePermissions base) ;;
     when (negb hasWritePermissions)
          (throw (newError (str "Actor does not have write permissions to the repository"))) ;;
     containsTrigger <- call CheckTriggerAction (checkTriggerAction (AutomationContext base)) ;;
     emit (SetOutput (str "contains_trigger") (boolToString containsTrigger)) ;;
     emit (SetOutput (str "GITHUB_TOKEN") token) ;;
     if negb containsTrigger then ret tt
     else
       call CheckHumanActor (checkHumanActor (AutomationContext base)) ;;
       mode <- lift (getMode (mode (inputs base))) ;;
       automationFlow penv token mode (AutomationContext base))).
  assert (Hbody : runBody penv s = rest s2).
  { unfold runBody.
    erewrite bind_returned by (apply call_returned; exact Htok).
    erewrite bind_returned by (apply call_returned; exact Hctx).
    cbn [log]. rewrite <- app_assoc. reflexivity. }
  assert (Hrest : Emits Headless
            (tryCatch rest
               (fun error =>
                  emit (SetFailed (str "Prepare step failed with error: " ++ message error)) ;;
                  emit (SetOutput (str "prepare_error") (message error)) ;;
                  exit 1%Z))).
  { unfold rest. apply emits_tryCatch; [|intros e; emits; exact I].
    apply emits_bind.
    { apply emits_bind; [apply emits_emit; exact I | intros _].
      apply checkWritePermissions_emits. exact I. }
    intros hasWritePermissions.
    apply emits_bind; [apply emits_when, emits_throw | intros _].
    apply emits_bind; [apply emits_call; exact I | intros containsTrigger].
    apply emits_bind; [apply emits_emit; exact I | intros _].
    apply emits_bind; [apply emits_emit; exact I | intros _].
    destruct (negb containsTrigger); [apply emits_ret|].
    apply emits_bind; [apply emits_call; exact I | intros _].
    apply emits_bind; [apply emits_lift | intros mode].
    apply automationFlow_headless. }
  assert (Hsame : run penv s =
            tryCatch rest
              (fun error =>
                 emit (SetFailed (str "Prepare step failed with error: " ++ message error)) ;;
                 emit (SetOutput (str "prepare_error") (message error)) ;;
                 exit 1%Z) s2).
  { unfold run, tryCatch. now rewrite Hbody. }
  rewrite Hsame in Hrun. destruct (Hrest _ _ _ Hrun) as [new [Hlog Hnew]].
  exists ([Call SetupGitHubToken; Call ParseGitHubContext] ++ new). split.
  - rewrite Hlog. cbn [log s2]. now rewrite <- app_assoc.
  - apply Forall_app. split; [repeat constructor | exact Hnew].
Qed.

End PrepareFacts.

Section TriggerGate.
Import Prepare.
Context `{Collaborators}.
Variable penv : ProcessEnv.

Lemma run_exits s c s1 :
  runBody penv s = (Exited c, s1) -> run penv s = (Exited c, s1).
Proof. intros Hbody. unfold run, tryCatch. now rewrite Hbody. Qed.

(** Closes a case in which the run ended before the trigger check. *)
Ltac ended_early Hrun Hlog Hin :=
  injection Hrun as _ <-; cbn [log] in Hlog; rewrite <- ?app_assoc in Hlog;
  apply app_inv_head in Hlog; subst; cbn in Hin; intuition discriminate.

(** X16.  The trigger check is reached only by a run in which the token was set
    up, the context was parsed and [checkWritePermissions] returned true. *)
Theorem trigger_check_needs_write_access s o s' new :
  run penv s = (o, s') ->
  log s' = log s ++ new ->
  In (Call CheckTriggerAction) new ->
  exists token w1 context w2 s3,
    setupGitHubToken (world s) = (Returned token, w1) /\
    parseGitHubContext w1 = (Returned context, w2) /\
    checkWritePermissions (baseOf context)
      (mkState w2 (log s ++ [Call SetupGitHubToken; Call ParseGitHubContext;
                             Call CheckWritePermissions])) = (Returned true, s3).
Proof.
  intros Hrun Hlog Hin.
  destruct (setupGitHubToken (world s)) as [[token|e|c] w1] eqn:Htok.
  2:{ exfalso.
      assert (Hbody : runBody penv s = (Thrown e, mkState w1 (log s ++ [Call SetupGitHubToken]))).
      { unfold runBody. apply bind_thrown. now apply call_thrown. }
      rewrite (run_reports penv _ _ _ Hbody) in Hrun. ended_early Hrun Hlog Hin. }
  2:{ exfalso.
      assert (Hbody : runBody penv s = (Exited c, mkState w1 (log s ++ [Call SetupGitHubToken]))).
      { unfold runBody. apply bind_exited. now apply call_exited. }
      rewrite (run_exits _ _ _ Hbody) in Hrun. ended_early Hrun Hlog Hin. }
  destruct (parseGitHubContext w1) as [[context|e|c] w2] eqn:Hctx.
  2:{ exfalso.
      assert (Hbody : runBody penv s =
                (Thrown e, mkState w2 ((log s ++ [Call SetupGitHubToken]) ++
                                       [Call ParseGitHubContext]))).
      { unfold runBody. erewrite bind_returned by (apply call_returned; exact Htok).
        apply bind_thrown. now apply call_thrown. }
      rewrite (run_reports penv _ _ _ Hbody) in Hrun. ended_early Hrun Hlog Hin. }
  2:{ exfalso.
      assert (Hbody : runBody penv s =
                (Exited c, mkState w2 ((log s ++ [Call SetupGitHubToken]) ++
                                       [Call ParseGitHubContext]))).
      { unfold runBody. erewrite bind_returned by (apply call_returned; exact Htok).
        apply bind_exited. now apply call_exited. }
      rewrite (run_exits _ _ _ Hbody) in Hrun. ended_early Hrun Hlog Hin. }
  set (s2 := mkState w2 (log s ++ [Call SetupGitHubToken; Call ParseGitHubContext;
                                   Call CheckWritePermissions])).
  assert (Hprefix : forall k : jsstring -> GitHubContext -> bool -> M unit,
    (githubToken <- call SetupGitHubToken setupGitHubToken ;;
     context <- call ParseGitHubContext parseGitHubContext ;;
     hasWritePermissions <-
       (emit (Call CheckWritePermissions) ;; checkWritePermissions (baseOf context)) ;;
     k githubToken context hasWritePermissions) s
    = bind (checkWritePermissions (baseOf context)) (k token context) s2).
  { intros k. erewrite bind_returned by (apply call_returned; exact Htok).
    erewrite bind_returned by (apply call_returned; exact Hctx).
    unfold bind at 1. unfold bind at 1. rewrite emit_returns.
    cbn [world log]. rewrite <- !app_assoc. reflexivity. }
  destruct (getRepo (owner (repository (baseOf context))) (repo (repository (baseOf context))) w2)
    as [[response|e] w3] eqn:Hrepo.
  - pose proof (checkWritePermissions_answered (baseOf context) s2 response w3 Hrepo) as Hperm.
    destruct (match permissions response with
              | Some perms => admin perms || push perms
              | None => true
              end) eqn:Hallowed.
    + exists token, w1, context, w2. eexists.
      split; [reflexivity|]. split; [first [exact Hctx | reflexivity]|]. exact Hperm.
    + exfalso.
      assert (Hbody : runBody penv s =
        (Thrown (newError (str "Actor does not have write permissions to the repository")),
         mkState w3 (log s2 ++ [GetRepo (owner (repository (baseOf context)))
                                        (repo (repository (baseOf context)))]))).
      { unfold runBody. rewrite Hprefix.
        erewrite bind_returned by exact Hperm. reflexivity. }
      rewrite (run_reports penv _ _ _ Hbody) in Hrun. ended_early Hrun Hlog Hin.
  - exfalso.
    pose proof (checkWritePermissions_unanswered (baseOf context) s2 e w3 Hrepo) as Hperm.
    assert (Hbody : exists error, runBody penv s =
      (Thrown error,
       mkState w3 (log s2 ++ [GetRepo (owner (repository (baseOf context)))
                                      (repo (repository (baseOf context)))]))).
    { eexists. unfold runBody. rewrite Hprefix. apply bind_thrown. exact Hperm. }
    destruct Hbody as [error Hbody].
    rewrite (run_reports penv _ _ _ Hbody) in Hrun. ended_early Hrun Hlog Hin.
Qed.

End TriggerGate.

Lemma run_without_trigger_stops_witness :
  Prepare.run (H0 := Cases.untriggered (Scenario.withPermissions Scenario.writer))
    Scenario.penv0 (Scenario.start (H := Scenario.withPermissions Scenario.writer) tt)
  = (Returned tt,
     mkState (H := Scenario.withPermissions Scenario.writer) tt
       ([Call SetupGitHubToken; Call ParseGitHubContext; Call CheckWritePermissions;
         GetRepo (str "o") (str "r")] ++
        [Call CheckTriggerAction; SetOutput (str "contains_trigger") (str "false");
         SetOutput (str "GITHUB_TOKEN") (str "t")])).
Proof.
  exact (run_without_trigger_stops
           (H0 := Cases.untriggered (Scenario.withPermissions Scenario.writer))
           Scenario.penv0 (Scenario.start (H := Scenario.withPermissions Scenario.writer) tt)
           (str "t") tt (EntityContext (Scenario.issueEvent None)) tt
           (mkState (H := Scenario.withPermissions Scenario.writer) tt
              [Call SetupGitHubToken; Call ParseGitHubContext; Call CheckWritePermissions;
               GetRepo (str "o") (str "r")])
           tt eq_refl eq_refl eq_refl eq_refl).
Defined.

Lemma scheduled_run :
  Prepare.run (H0 := Cases.scheduled Scenario.obliging) Scenario.penv0
    (Scenario.start (H := Scenario.obliging) tt)
  = (Returned tt,
     mkState (H := Scenario.obliging) tt
       [Call SetupGitHubToken; Call ParseGitHubContext; Call CheckWritePermissions;
        GetRepo (str "o") (str "r"); Call CheckTriggerAction;
        SetOutput (str "contains_trigger") (str "true");
        SetOutput (str "GITHUB_TOKEN") (str "t"); Call CheckHumanActor;
        SetOutput (str "BASE_BRANCH") (str "main"); Call CreatePrompt;
        Call PrepareMcpConfig; SetOutput (str "mcp_config") (str "{}")]).
Proof. vm_compute. reflexivity. Qed.

Lemma automation_run_is_headless_witness :
  exists new,
    log (mkState (H := Scenario.obliging) tt
       [Call SetupGitHubToken; Call ParseGitHubContext; Call CheckWritePermissions;
        GetRepo (str "o") (str "r"); Call CheckTriggerAction;
        SetOutput (str "contains_trigger") (str "true");
        SetOutput (str "GITHUB_TOKEN") (str "t"); Call CheckHumanActor;
        SetOutput (str "BASE_BRANCH") (str "main"); Call CreatePrompt;
        Call PrepareMcpConfig; SetOutput (str "mcp_config") (str "{}")])
    = log (Scenario.start (H := Scenario.obliging) tt) ++ new /\
    Forall Headless new.
Proof.
  exact (automation_run_is_headless (H0 := Cases.scheduled Scenario.obliging)
           Scenario.penv0 (Scenario.start (H := Scenario.obliging) tt)
           (str "t") tt Cases.nightly tt _ _ eq_refl eq_refl scheduled_run).
Defined.

Lemma untriggered_run :
  Prepare.run (H0 := Cases.untriggered (Scenario.withPermissions Scenario.writer))
    Scenario.penv0 (Scenario.start (H := Scenario.withPermissions Scenario.writer) tt)
  = (Returned tt,
     mkState (H := Scenario.withPermissions Scenario.writer) tt
       [Call SetupGitHubToken; Call ParseGitHubContext; Call CheckWritePermissions;
        GetRepo (str "o") (str "r"); Call CheckTriggerAction;
        SetOutput (str "contains_trigger") (str "false");
        SetOutput (str "GITHUB_TOKEN") (str "t")]).
Proof. vm_compute. reflexivity. Qed.

Lemma trigger_check_needs_write_access_witness :
  exists token w1 context w2 s3,
    Prepare.setupGitHubToken
      (Collaborators := Cases.untriggered (Scenario.withPermissions Scenario.writer))
      (world (Scenario.start (H := Scenario.withPermissions Scenario.writer) tt))
      = (Returned token, w1) /\
    Prepare.parseGitHubContext
      (Collaborators := Cases.untriggered (Scenario.withPermissions Scenario.writer)) w1
      = (Returned context, w2) /\
    checkWritePermissions (H := Scenario.withPermissions Scenario.writer) (baseOf context)
      (mkState (H := Scenario.withPermissions Scenario.writer) w2
         (log (Scenario.start (H := Scenario.withPermissions Scenario.writer) tt) ++
          [Call SetupGitHubToken; Call ParseGitHubContext; Call CheckWritePermissions]))
      = (Returned true, s3).
Proof.
  exact (trigger_check_needs_write_access
           (H0 := Cases.untriggered (Scenario.withPermissions Scenario.writer))
           Scenario.penv0 (Scenario.start (H := Scenario.withPermissions Scenario.writer) tt)
           _ _
           [Call SetupGitHubToken; Call ParseGitHubContext; Call CheckWritePermissions;
            GetRepo (str "o") (str "r"); Call CheckTriggerAction;
            SetOutput (str "contains_trigger") (str "false");
            SetOutput (str "GITHUB_TOKEN") (str "t")]
           untriggered_run eq_refl
           (or_intror (or_intror (or_intror (or_intror (or_introl eq_refl)))))).
Defined.


(* ================================================================== *)
(** * Trimming and splitting *)

Section TrimFacts.

Lemma trimStart_split s :
  exists blank, s = blank ++ trimStart s /\ Forall (fun c => isWhiteSpace c = true) blank.
Proof.
  induction s as [|c s IH]; simpl.
  - now exists [].
  - destruct (isWhiteSpace c) eqn:Hc.
    + destruct IH as [blank [Heq Hb]]. exists (c :: blank). split.
      * cbn. now rewrite <- Heq.
      * now constructor.
    + now exists [].
Qed.

Lemma trimStart_head s c rest : trimStart s = c :: rest -> isWhiteSpace c = false.
Proof.
  induction s as [|x s IH]; simpl; [discriminate|].
  destruct (isWhiteSpace x) eqn:Hx; [exact IH|].
  intros Heq. now injection Heq as <- _.
Qed.

Lemma trimEnd_split s :
  exists blank, s = trimEnd s ++ blank /\ Forall (fun c => isWhiteSpace c = true) blank.
Proof.
  unfold trimEnd. destruct (trimStart_split (rev s)) as [blank [Heq Hb]].
  exists (rev blank). split.
  - rewrite <- rev_app_distr, <- Heq. symmetry. apply rev_involutive.
  - now apply Forall_rev.
Qed.

Lemma trimEnd_last s c front : trimEnd s = front ++ [c] -> isWhiteSpace c = false.
Proof.
  unfold trimEnd. intros Heq.
  assert (Hrev : trimStart (rev s) = c :: rev front).
  { rewrite <- (rev_involutive (trimStart (rev s))), Heq, rev_app_distr. reflexivity. }
  exact (trimStart_head _ _ _ Hrev).
Qed.

Lemma trim_NoOuterSpace s : NoOuterSpace (trim s).
Proof.
  unfold trim. split.
  - intros c rest Heq.
    destruct (trimEnd_split (trimStart s)) as [blank [Hsplit _]].
    rewrite Heq in Hsplit. cbn in Hsplit.
    exact (trimStart_head _ _ _ Hsplit).
  - intros c front Heq. exact (trimEnd_last _ _ _ Heq).
Qed.

Lemma NoOuterSpace_trim s : NoOuterSpace s -> trim s = s.
Proof.
  intros [Hhead Hlast]. unfold trim.
  assert (Hstart : trimStart s = s).
  { destruct s as [|c rest]; [reflexivity|]. simpl. now rewrite (Hhead c rest eq_refl). }
  rewrite Hstart. unfold trimEnd.
  assert (Hend : trimStart (rev s) = rev s).
  { destruct (rev s) as [|c tser] eqn:Hr; [reflexivity|]. simpl.
    rewrite (Hlast c (rev tser)); [reflexivity|].
    rewrite <- (rev_involutive s), Hr. reflexivity. }
  rewrite Hend. apply rev_involutive.
Qed.

Lemma trim_In s c : In c (trim s) -> In c s.
Proof.
  unfold trim. intros Hin.
  destruct (trimEnd_split (trimStart s)) as [b2 [H2 _]].
  destruct (trimStart_split s) as [b1 [H1 _]].
  rewrite H1. apply in_or_app. right. rewrite H2. apply in_or_app. now left.
Qed.

Lemma trim_empty_blank s : trim s = [] -> Forall (fun c => isWhiteSpace c = true) s.
Proof.
  unfold trim. intros Heq.
  destruct (trimEnd_split (trimStart s)) as [b2 [H2 Hb2]].
  destruct (trimStart_split s) as [b1 [H1 Hb1]].
  rewrite Heq in H2. cbn in H2. rewrite H1, H2. apply Forall_app. now split.
Qed.

End TrimFacts.

Section SplitFacts.

Lemma splitOn_nonempty sep s : splitOn sep s <> [].
Proof.
  induction s as [|c s IH]; simpl; [discriminate|].
  destruct (c =? sep); [discriminate|]. destruct (splitOn sep s); discriminate.
Qed.

(** No piece of a split contains the separator. *)
Lemma splitOn_pieces sep s piece : In piece (splitOn sep s) -> ~ In sep piece.
Proof.
  revert piece. induction s as [|c s IH]; intros piece; simpl.
  - intros [<- | []]. tauto.
  - destruct (N.eqb_spec c sep) as [->|Hne].
    + intros [<- | Hin]; [tauto | now apply IH].
    + destruct (splitOn sep s) as [|p ps] eqn:Hs.
      * intros [<- | []]. intros [Heq | []]. congruence.
      * intros [<- | Hin].
        -- intros [Heq | Hin]; [congruence|]. apply (IH p); [now left | exact Hin].
        -- apply IH. now right.
Qed.

Lemma join_cons2 sep p q rest :
  join sep (p :: q :: rest) = p ++ sep ++ join sep (q :: rest).
Proof. reflexivity. Qed.

Lemma splitOn_sep sep s : splitOn sep (sep :: s) = [] :: splitOn sep s.
Proof. cbn [splitOn]. now rewrite N.eqb_refl. Qed.

(** Splitting what [join] put together gives the parts back. *)
Lemma splitOn_join sep parts :
  parts <> [] -> Forall (fun p => ~ In sep p) parts ->
  splitOn sep (join [sep] parts) = parts.
Proof.
  intros Hne Hclean. induction Hclean as [|p rest Hp Hrest IH]; [congruence|].
  assert (Hpiece : forall tail,
            splitOn sep (p ++ tail) =
            match splitOn sep tail with
            | piece :: pieces => (p ++ piece) :: pieces
            | [] => [p]
            end).
  { intros tail. clear IH Hne. induction p as [|c p IHp].
    - cbn. destruct (splitOn sep tail) eqn:Ht; [now elim (splitOn_nonempty sep tail)|reflexivity].
    - cbn [app splitOn]. destruct (N.eqb_spec c sep) as [->|Hc].
      + elim Hp. now left.
      + rewrite IHp by (intros Hin; apply Hp; now right).
        destruct (splitOn sep tail); reflexivity. }
  destruct rest as [|q rest].
  - cbn [join]. rewrite <- (app_nil_r p) at 1. rewrite Hpiece. cbn. now rewrite app_nil_r.
  - rewrite join_cons2, Hpiece. change ([sep] ++ join [sep] (q :: rest)) with
      (sep :: join [sep] (q :: rest)).
    rewrite splitOn_sep, IH by discriminate. now rewrite app_nil_r.
Qed.

End SplitFacts.

(* ================================================================== *)
(** * List inputs: actor filters and tool lists *)

Section ListInputs.

Lemma splitComma_splitOn s : splitComma s = splitOn 44 s.
Proof.
  induction s as [|c s IH]; [reflexivity|]. cbn [splitComma splitOn]. now rewrite IH.
Qed.

Lemma splitOn_chars sep s piece c : In piece (splitOn sep s) -> In c piece -> In c s.
Proof.
  revert piece. induction s as [|x s IH]; intros piece; simpl.
  - intros [<- | []] [].
  - destruct (x =? sep).
    + intros [<- | Hin] Hc; [destruct Hc | right; now apply (IH piece)].
    + destruct (splitOn sep s) as [|p ps] eqn:Hs.
      * intros [<- | []] [<- | []]. now left.
      * intros [<- | Hin] Hc.
        -- destruct Hc as [<- | Hc]; [now left | right]. apply (IH p); [now left | exact Hc].
        -- right. apply (IH piece); [now right | exact Hc].
Qed.

Lemma nonempty_length (s : jsstring) : (0 <? N.of_nat (List.length s)) = true <-> s <> [].
Proof.
  destruct s; cbn; split; congruence || discriminate || reflexivity.
Qed.

(** X17.  Every pattern [parseActorFilter] returns is non-empty, has no whitespace
    around it and contains no comma. *)
Theorem parseActorFilter_patterns_are_clean filterString pattern :
  In pattern (parseActorFilter filterString) ->
  pattern <> [] /\ NoOuterSpace pattern /\ ~ In 44 pattern.
Proof.
  unfold parseActorFilter.
  destruct (negb (truthy filterString) || JS.eqb (trim filterString) []); [intros []|].
  rewrite filter_In, in_map_iff, nonempty_length.
  intros [[piece [<- Hpiece]] Hne]. split; [exact Hne|]. split; [apply trim_NoOuterSpace|].
  intros Hin. apply trim_In in Hin. rewrite splitComma_splitOn in Hpiece.
  exact (splitOn_pieces _ _ _ Hpiece Hin).
Qed.

Lemma join_head sep p rest c tail :
  p = c :: tail -> exists more, join sep (p :: rest) = c :: more.
Proof. intros ->. destruct rest; cbn; eauto. Qed.

Lemma clean_list_unchanged (items : list jsstring) :
  Forall (fun p => p <> [] /\ NoOuterSpace p) items ->
  filter (fun p => 0 <? N.of_nat (List.length p)) (map trim items) = items.
Proof.
  induction 1 as [|p rest [Hne Hsp] _ IH]; [reflexivity|].
  cbn [map filter]. rewrite (NoOuterSpace_trim _ Hsp).
  rewrite (proj2 (nonempty_length p) Hne). now rewrite IH.
Qed.

Lemma join_not_blank sep p rest :
  p <> [] -> NoOuterSpace p ->
  truthy (join sep (p :: rest)) = true /\ trim (join sep (p :: rest)) <> [].
Proof.
  intros Hne [Hhead _]. destruct p as [|c tail]; [congruence|].
  destruct (join_head sep (c :: tail) rest c tail eq_refl) as [more Hj]. rewrite Hj.
  split; [reflexivity|]. intros Hblank. apply trim_empty_blank in Hblank.
  inversion Hblank as [|x xs Hc _]. rewrite (Hhead c tail eq_refl) in Hc. discriminate.
Qed.

(** X18.  Patterns that are non-empty, without whitespace around them and without
    a comma are read back from their comma-separated list as they were. *)
Theorem parseActorFilter_reads_back patterns :
  Forall (fun p => p <> [] /\ NoOuterSpace p /\ ~ In 44 p) patterns ->
  parseActorFilter (join (str ",") patterns) = patterns.
Proof.
  intros Hclean. destruct patterns as [|p rest]; [reflexivity|].
  unfold parseActorFilter.
  inversion Hclean as [|x xs [Hne [Hsp Hcomma]] Hrest]. subst.
  destruct (join_not_blank (str ",") p rest Hne Hsp) as [Htruthy Htrim].
  rewrite Htruthy. cbn [negb orb].
  destruct (JS.eqb (trim (join (str ",") (p :: rest))) []) eqn:Hb.
  { apply JS_eqb_eq in Hb. contradiction. }
  rewrite splitComma_splitOn. change (str ",") with [44].
  rewrite splitOn_join; [|discriminate|].
  - apply clean_list_unchanged. eapply Forall_impl; [|exact Hclean]. cbn. tauto.
  - eapply Forall_impl; [|exact Hclean]. cbn. tauto.
Qed.

Lemma splitItems_nonempty b s : splitItems b s <> [].
Proof.
  revert b. induction s as [|c s IH]; intros b; simpl; [discriminate|].
  destruct (isNewline c).
  - destruct b; [apply IH | discriminate].
  - destruct (c =? 44); [discriminate|]. destruct (splitItems false s); discriminate.
Qed.

(** The pieces of the split are made of characters of the input and hold
    no separator. *)
Lemma splitItems_pieces b s piece c :
  In piece (splitItems b s) -> In c piece ->
  In c s /\ c <> 44 /\ isNewline c = false.
Proof.
  revert b piece. induction s as [|x s IH]; intros b piece; simpl.
  - intros [<- | []] [].
  - destruct (isNewline x) eqn:Hx.
    + destruct b.
      * intros Hin Hc. destruct (IH _ _ Hin Hc) as [H1 H2]. split; [now right | exact H2].
      * intros [<- | Hin] Hc; [destruct Hc|].
        destruct (IH _ _ Hin Hc) as [H1 H2]. split; [now right | exact H2].
    + destruct (N.eqb_spec x 44) as [->|Hcomma].
      * intros [<- | Hin] Hc; [destruct Hc|].
        destruct (IH _ _ Hin Hc) as [H1 H2]. split; [now right | exact H2].
      * destruct (splitItems false s) as [|p ps] eqn:Hs.
        -- intros [<- | []] [<- | []]. repeat split; [now left | exact Hcomma | exact Hx].
        -- intros [<- | Hin] Hc.
           ++ destruct Hc as [<- | Hc]; [repeat split; [now left | exact Hcomma | exact Hx]|].
              destruct (IH false p ltac:(rewrite Hs; now left) Hc) as [H1 H2].
              split; [now right | exact H2].
           ++ destruct (IH false piece ltac:(rewrite Hs; now right) Hc) as [H1 H2].
              split; [now right | exact H2].
Qed.

Lemma stripComment_In tool c : In c (stripComment tool) -> In c tool.
Proof.
  induction tool as [|x tool IH]; simpl; [tauto|].
  destruct ((x =? 35) && truthy tool && forallb (fun y => negb (isLineTerminator y)) tool);
    [intros [] | intros [<- | Hin]; [now left | right; now apply IH]].
Qed.

Lemma stripComment_clean tool : ~ In 35 tool -> stripComment tool = tool.
Proof.
  induction tool as [|x tool IH]; simpl; [reflexivity|]. intros Hno.
  destruct (N.eqb_spec x 35) as [->|Hx]; [elim Hno; now left|].
  cbn [andb]. rewrite IH; [reflexivity|]. intros Hin. apply Hno. now right.
Qed.

(** X19.  Every entry [parseMultilineInput] returns is non-empty, has no
    whitespace around it and contains no comma, line feed or carriage
    return. *)
Theorem parseMultilineInput_entries_are_clean s tool :
  In tool (parseMultilineInput s) ->
  tool <> [] /\ NoOuterSpace tool /\ ~ In 44 tool /\ ~ In 10 tool /\ ~ In 13 tool.
Proof.
  unfold parseMultilineInput.
  rewrite filter_In, in_map_iff, nonempty_length.
  intros [[cut [<- Hcut]] Hne]. apply in_map_iff in Hcut. destruct Hcut as [piece [<- Hpiece]].
  split; [exact Hne|]. split; [apply trim_NoOuterSpace|].
  assert (Hsep : forall c, In c (trim (stripComment piece)) -> c <> 44 /\ isNewline c = false).
  { intros c Hc. apply trim_In, stripComment_In in Hc.
    exact (proj2 (splitItems_pieces _ _ _ _ Hpiece Hc)). }
  repeat split; intros Hin; destruct (Hsep _ Hin) as [H1 H2]; try congruence; discriminate.
Qed.

Lemma splitItems_join sep items b :
  sep = 44 \/ isNewline sep = true ->
  items <> [] ->
  Forall (fun p => p <> [] /\ ~ In 44 p /\ ~ In 10 p /\ ~ In 13 p) items ->
  splitItems b (join [sep] items) = items.
Proof.
  intros Hsep Hne Hclean. revert b.
  induction Hclean as [|p rest [Hp [H44 [H10 H13]]] Hrest IH]; [congruence|]. intros b.
  assert (Hplain : forall c, In c p -> isNewline c = false /\ (c =? 44) = false).
  { intros c Hc. unfold isNewline. split.
    - apply orb_false_iff. split; apply N.eqb_neq; intros ->; tauto.
    - apply N.eqb_neq. intros ->. tauto. }
  assert (Hpiece : forall tail b0, p <> [] ->
            splitItems b0 (p ++ tail) =
            match splitItems false tail with
            | piece :: pieces => (p ++ piece) :: pieces
            | [] => [p]
            end).
  { clear IH Hne Hp H44 H10 H13. induction p as [|c p IHp]; [congruence|]. intros tail b0 _.
    cbn [app splitItems]. destruct (Hplain c (or_introl eq_refl)) as [-> ->].
    destruct p as [|d p].
    - cbn [app]. destruct (splitItems false tail) eqn:Ht;
        [now elim (splitItems_nonempty false tail) | reflexivity].
    - rewrite IHp; [|intros x Hx; apply Hplain; now right | discriminate].
      destruct (splitItems false tail); reflexivity. }
  destruct rest as [|q rest].
  - cbn [join]. rewrite <- (app_nil_r p) at 1. rewrite Hpiece by exact Hp.
    cbn. now rewrite app_nil_r.
  - rewrite join_cons2, Hpiece by exact Hp.
    match goal with
    | |- match ?split with _ => _ end = _ => assert (Htail : split = [] :: q :: rest)
    end.
    { cbn [app splitItems]. destruct Hsep as [-> | Hnl].
      - cbn [isNewline N.eqb Pos.eqb orb]. rewrite IH by discriminate. reflexivity.
      - rewrite Hnl. rewrite IH by discriminate. reflexivity. }
    rewrite Htail. now rewrite app_nil_r.
Qed.

(** X20.  Entries that are clean (non-empty, no whitespace around them, no comma,
    line break or [#]) are read back as they were from a list separated by
    commas or by line breaks. *)
Theorem parseMultilineInput_reads_back sep items :
  sep = 44 \/ sep = 10 \/ sep = 13 ->
  Forall CleanItem items ->
  items <> [] ->
  parseMultilineInput (join [sep] items) = items.
Proof.
  intros Hsep Hclean Hne. unfold parseMultilineInput.
  rewrite splitItems_join; [| | exact Hne |].
  - assert (Hstrip : map stripComment items = items).
    { induction Hclean as [|p rest Hp _ IH]; [reflexivity|]. cbn [map].
      destruct rest as [|q rest].
      - f_equal. apply stripComment_clean. unfold CleanItem in Hp. tauto.
      - rewrite IH by discriminate. f_equal. apply stripComment_clean.
        unfold CleanItem in Hp. tauto. }
    rewrite Hstrip. apply clean_list_unchanged.
    eapply Forall_impl; [|exact Hclean]. unfold CleanItem. tauto.
  - destruct Hsep as [-> | [-> | ->]]; [now left | right; reflexivity | right; reflexivity].
  - eapply Forall_impl; [|exact Hclean]. unfold CleanItem. tauto.
Qed.

End ListInputs.

(* ================================================================== *)
(** * The permission map *)

Section PermissionMap.

Lemma noOuterSpaceb_spec s : noOuterSpaceb s = true -> NoOuterSpace s.
Proof.
  destruct s as [|c rest]; cbn [noOuterSpaceb].
  - intros _. split; intros x l Heq; [discriminate | now destruct l].
  - rewrite andb_true_iff, !negb_true_iff. intros [Hhead Hlast]. split.
    + intros x l Heq. now injection Heq as <- _.
    + intros x front Heq. rewrite Heq in Hlast. now rewrite last_last in Hlast.
Qed.

Lemma mapSet_In key value m a b :
  In (a, b) (mapSet key value m) -> (a = key /\ b = value) \/ In (a, b) m.
Proof.
  induction m as [|[k v] rest IH]; simpl.
  - intros [Heq | []]. left. now injection Heq as <- <-.
  - destruct (JS.eqb k key) eqn:Hk.
    + apply JS_eqb_eq in Hk. subst k.
      intros [Heq | Hin]; [left; now injection Heq as <- <- | right; now right].
    + intros [Heq | Hin]; [right; now left|].
      destruct (IH Hin) as [Hnew | Hold]; [now left | right; now right].
Qed.

Lemma mapSet_keys key value m :
  map fst (mapSet key value m) = map fst m \/
  (~ In key (map fst m) /\ mapSet key value m = m ++ [(key, value)]).
Proof.
  induction m as [|[k v] rest IH]; simpl.
  - right. split; [tauto | reflexivity].
  - destruct (JS.eqb k key) eqn:Hk.
    + now left.
    + destruct IH as [Hsame | [Hfresh Happ]].
      * left. cbn. now rewrite Hsame.
      * right. split.
        -- intros [Heq | Hin]; [|contradiction].
           subst k. rewrite JS_eqb_refl in Hk. discriminate.
        -- now rewrite Happ.
Qed.

Lemma mapSet_NoDup key value m :
  NoDup (map fst m) -> NoDup (map fst (mapSet key value m)).
Proof.
  intros Hm. destruct (mapSet_keys key value m) as [-> | [Hfresh ->]]; [exact Hm|].
  rewrite map_app. cbn. apply NoDup_app; [exact Hm | repeat constructor; tauto |].
  intros x Hx [<- | []]. contradiction.
Qed.

Lemma clean_piece line piece :
  ~ In 10 line ->
  In piece (splitOn 58 (trim line)) -> truthy (trim piece) = true ->
  CleanWord (trim piece).
Proof.
  intros Hline Hpiece Hne. repeat split.
  - destruct (trim piece); [discriminate | discriminate].
  - apply trim_NoOuterSpace.
  - apply trim_NoOuterSpace.
  - intros Hin. apply trim_In in Hin. exact (splitOn_pieces _ _ _ Hpiece Hin).
  - intros Hin. apply trim_In in Hin. apply Hline.
    apply trim_In. exact (splitOn_chars _ _ _ _ Hpiece Hin).
Qed.

Lemma addPermissionLine_keeps m line :
  ~ In 10 line -> WellFormed m -> WellFormed (addPermissionLine m line).
Proof.
  intros Hline Hm. unfold addPermissionLine.
  destruct (truthy (trim line)); [|exact Hm].
  destruct (splitOn 58 (trim line)) as [|p1 [|p2 more]] eqn:Hsplit; cbn [map]; try exact Hm.
  destruct (truthy (trim p1)) eqn:H1; [|exact Hm].
  destruct (truthy (trim p2)) eqn:H2; [|exact Hm]. cbn [andb].
  destruct Hm as [Hdup Hclean]. split; [now apply mapSet_NoDup|].
  intros key value Hin. apply mapSet_In in Hin. destruct Hin as [[-> ->] | Hold]; [|now apply Hclean].
  split; apply (clean_piece line); try assumption; rewrite Hsplit; cbn; tauto.
Qed.

Lemma fold_keeps lines m :
  Forall (fun line => ~ In 10 line) lines -> WellFormed m ->
  WellFormed (fold_left addPermissionLine lines m).
Proof.
  intros Hlines. revert m. induction Hlines as [|line rest Hline _ IH]; intros m Hm; cbn.
  - exact Hm.
  - apply IH. now apply addPermissionLine_keeps.
Qed.

(** X21.  The map [parseAdditionalPermissions] returns has every key once, and
    its keys and values are non-empty, without whitespace around them,
    without a colon and without a line feed; a blank input gives the empty
    map. *)
Theorem parseAdditionalPermissions_map_is_clean s :
  NoDup (map fst (parseAdditionalPermissions s)) /\
  (forall key value,
      In (key, value) (parseAdditionalPermissions s) -> CleanWord key /\ CleanWord value) /\
  (Forall (fun c => isWhiteSpace c = true) s -> parseAdditionalPermissions s = []).
Proof.
  assert (Hwf : WellFormed (parseAdditionalPermissions s)).
  { unfold parseAdditionalPermissions.
    destruct (negb (truthy s) || negb (truthy (trim s))).
    - split; [constructor | intros k v []].
    - apply fold_keeps; [|split; [constructor | intros k v []]].
      apply Forall_forall. intros line Hline. exact (splitOn_pieces _ _ _ Hline). }
  destruct Hwf as [Hdup Hclean]. split; [exact Hdup | split; [exact Hclean|]].
  intros Hblank. unfold parseAdditionalPermissions. rewrite (trim_blank _ Hblank).
  cbn. now rewrite orb_true_r.
Qed.

Lemma NoOuterSpace_around a mid b :
  a <> [] -> b <> [] -> NoOuterSpace a -> NoOuterSpace b -> NoOuterSpace (a ++ mid ++ b).
Proof.
  intros Ha Hb [Hhead _] [_ Hlast]. split.
  - intros c rest Heq. destruct a as [|x a]; [congruence|].
    injection Heq as <- _. now apply (Hhead x a).
  - intros c front Heq. destruct (exists_last Hb) as [b' [y Hy]]. subst b.
    rewrite !app_assoc in Heq. apply app_inj_tail in Heq. destruct Heq as [_ <-].
    now apply (Hlast y b').
Qed.

Lemma permissionLine_clean key value :
  CleanWord key -> CleanWord value ->
  permissionLine (key, value) <> [] /\ NoOuterSpace (permissionLine (key, value)) /\
  ~ In 10 (permissionLine (key, value)).
Proof.
  intros [Hk [Hks [_ Hk10]]] [Hv [Hvs [_ Hv10]]]. unfold permissionLine. cbn [fst snd].
  split; [destruct key; [congruence | discriminate]|]. split.
  - now apply NoOuterSpace_around.
  - intros Hin. apply in_app_or in Hin. destruct Hin as [Hin | Hin]; [contradiction|].
    apply in_app_or in Hin. destruct Hin as [[Heq | []] | Hin]; [discriminate | contradiction].
Qed.

Lemma join_lines_clean lines :
  lines <> [] ->
  Forall (fun l => l <> [] /\ NoOuterSpace l) lines ->
  join [10] lines <> [] /\ NoOuterSpace (join [10] lines).
Proof.
  intros Hne Hlines. induction Hlines as [|l rest [Hl Hls] Hrest IH]; [congruence|].
  destruct rest as [|l2 rest]; cbn [join]; [now split|].
  destruct (IH ltac:(discriminate)) as [Hj Hjs]. split.
  - destruct l; [congruence | discriminate].
  - now apply NoOuterSpace_around.
Qed.

Lemma addPermissionLine_fresh m key value :
  CleanWord key -> CleanWord value -> ~ In key (map fst m) ->
  addPermissionLine m (permissionLine (key, value)) = m ++ [(key, value)].
Proof.
  intros Hk Hv Hfresh.
  destruct (permissionLine_clean key value Hk Hv) as [Hne [Hsp _]].
  unfold addPermissionLine. rewrite (NoOuterSpace_trim _ Hsp).
  destruct (permissionLine (key, value)) as [|c l] eqn:Hline; [congruence|].
  cbn [truthy]. rewrite <- Hline.
  change (permissionLine (key, value)) with (join [58] [key; value]).
  destruct Hk as [Hk [Hks [Hk58 _]]]. destruct Hv as [Hv [Hvs [Hv58 _]]].
  rewrite splitOn_join; [|discriminate | repeat constructor; assumption].
  cbn [map]. rewrite (NoOuterSpace_trim _ Hks), (NoOuterSpace_trim _ Hvs).
  destruct key as [|k0 key]; [congruence|]. destruct value as [|v0 value]; [congruence|].
  cbn [truthy andb].
  destruct (mapSet_keys (k0 :: key) (v0 :: value) m) as [Hsame | [_ Happ]]; [|exact Happ].
  exfalso. clear - Hsame Hfresh.
  induction m as [|[k v] rest IH]; [discriminate|].
  cbn in Hsame, Hfresh. destruct (JS.eqb k (k0 :: key)) eqn:Hk.
  - apply JS_eqb_eq in Hk. tauto.
  - cbn in Hsame. injection Hsame as Hrest. apply IH; tauto.
Qed.

Lemma fold_fresh bindings m :
  Forall (fun b => CleanWord (fst b) /\ CleanWord (snd b)) bindings ->
  NoDup (map fst (m ++ bindings)) ->
  fold_left addPermissionLine (map permissionLine bindings) m = m ++ bindings.
Proof.
  intros Hclean. revert m. induction Hclean as [|[k v] rest [Hk Hv] _ IH]; intros m Hdup;
    cbn [map fold_left fst snd] in *.
  - now rewrite app_nil_r.
  - rewrite addPermissionLine_fresh; try assumption.
    + rewrite IH; rewrite <- app_assoc; [reflexivity | exact Hdup].
    + rewrite map_app in Hdup. cbn in Hdup. apply NoDup_remove_2 in Hdup.
      intros Hin. apply Hdup. apply in_or_app. now left.
Qed.

(** X22.  Bindings with distinct keys, written one [key:value] per line, are read
    back in order, provided each key and value is clean. *)
Theorem parseAdditionalPermissions_reads_back bindings :
  Forall (fun b => CleanWord (fst b) /\ CleanWord (snd b)) bindings ->
  NoDup (map fst bindings) ->
  parseAdditionalPermissions (join [10] (map permissionLine bindings)) = bindings.
Proof.
  intros Hclean Hdup. destruct bindings as [|b rest]; [reflexivity|].
  assert (Hlines : Forall (fun l => l <> [] /\ NoOuterSpace l /\ ~ In 10 l)
                          (map permissionLine (b :: rest))).
  { apply Forall_map. eapply Forall_impl; [|exact Hclean].
    intros [k v] [Hk Hv]. now apply permissionLine_clean. }
  destruct (join_lines_clean (map permissionLine (b :: rest))) as [Hne Hsp];
    [discriminate | eapply Forall_impl; [|exact Hlines]; cbn; tauto |].
  unfold parseAdditionalPermissions. rewrite (NoOuterSpace_trim _ Hsp).
  destruct (join [10] (map permissionLine (b :: rest))) as [|c l] eqn:Hj; [congruence|].
  cbn [truthy negb orb]. rewrite <- Hj.
  rewrite splitOn_join; [|discriminate | eapply Forall_impl; [|exact Hlines]; cbn; tauto].
  now apply (fold_fresh (b :: rest) []).
Qed.

End PermissionMap.

(* ================================================================== *)
(** * The parsers on sample inputs *)

Section ParserSamples.

(** Decides the side conditions on a concrete word. *)
Ltac concrete_word :=
  repeat match goal with
         | |- _ /\ _ => split
         | |- _ <> [] => discriminate
         | |- NoOuterSpace _ => apply noOuterSpaceb_spec; reflexivity
         | |- ~ In _ _ => cbn; intuition discriminate
         end.

(** Splits a statement about each item of a concrete list. *)
Ltac each_item :=
  repeat first [apply Forall_nil | apply Forall_cons];
  unfold CleanItem, CleanWord; cbn [fst snd]; cbv beta.

Lemma parseActorFilter_patterns_are_clean_witness :
  In (str "*[bot]") (parseActorFilter (str "alice, *[bot] ,")) /\
  str "*[bot]" <> [] /\ NoOuterSpace (str "*[bot]") /\ ~ In 44 (str "*[bot]").
Proof.
  assert (Hin : In (str "*[bot]") (parseActorFilter (str "alice, *[bot] ,"))).
  { vm_compute. right. left. reflexivity. }
  split; [exact Hin|].
  exact (parseActorFilter_patterns_are_clean (str "alice, *[bot] ,") (str "*[bot]") Hin).
Defined.

Lemma parseActorFilter_reads_back_witness :
  parseActorFilter (join (str ",") [str "alice"; str "*[bot]"]) = [str "alice"; str "*[bot]"].
Proof.
  apply (parseActorFilter_reads_back [str "alice"; str "*[bot]"]).
  each_item; concrete_word.
Defined.

Lemma parseMultilineInput_entries_are_clean_witness :
  In (str "Bash(git status)")
     (parseMultilineInput (str "Edit, Bash(git status) # read only" ++ [10; 13] ++ str "Read")) /\
  str "Bash(git status)" <> [] /\ NoOuterSpace (str "Bash(git status)") /\
  ~ In 44 (str "Bash(git status)") /\ ~ In 10 (str "Bash(git status)") /\
  ~ In 13 (str "Bash(git status)").
Proof.
  assert (Hin : In (str "Bash(git status)")
                   (parseMultilineInput
                      (str "Edit, Bash(git status) # read only" ++ [10; 13] ++ str "Read"))).
  { vm_compute. right. left. reflexivity. }
  split; [exact Hin|].
  exact (parseMultilineInput_entries_are_clean _ _ Hin).
Defined.

Lemma parseMultilineInput_reads_back_witness :
  parseMultilineInput (join [10] [str "Edit"; str "Bash(git status)"])
  = [str "Edit"; str "Bash(git status)"].
Proof.
  apply (parseMultilineInput_reads_back 10 [str "Edit"; str "Bash(git status)"]).
  - right. left. reflexivity.
  - each_item; concrete_word.
  - discriminate.
Defined.

Lemma parseAdditionalPermissions_reads_back_witness :
  parseAdditionalPermissions
    (join [10] (map permissionLine [(str "actions", str "read"); (str "checks", str "write")]))
  = [(str "actions", str "read"); (str "checks", str "write")].
Proof.
  apply (parseAdditionalPermissions_reads_back
           [(str "actions", str "read"); (str "checks", str "write")]).
  - each_item; concrete_word.
  - cbn [map fst]. repeat first [apply NoDup_nil | apply NoDup_cons]; cbn; intuition discriminate.
Defined.

End ParserSamples.

(* ================================================================== *)
(** * The parsed event context *)

Section ContextParsingFacts.
Import ContextParsing.
Variable DEFAULT_MODE : jsstring.
Variable isValidMode : jsstring -> bool.
Variable undefinedRead : jsstring.

Let parse := parseGitHubContext DEFAULT_MODE isValidMode undefinedRead.

(** Turns a successful string comparison into a substitution. *)
Ltac is_name E := apply JS_eqb_eq in E; subst.




(** X24.  The entity number and the pull-request flag of a returned entity
    context come from the payload: the number of its pull request for the
    three pull-request events, the number of its issue for the two issue
    events; the flag is set for the pull-request events and for a comment on
    an issue that carries a [pull_request] field, and for nothing else. *)
Theorem parsed_entity_comes_from_payload env context :
  match parse env context with
  | Normal (Parsed _ name p number pr) =>
      p = payload context /\
      if pr then
        (exists q, pull_request p = Some q /\ number = pull_number q /\
                   In name [str "pull_request"; str "pull_request_review";
                            str "pull_request_review_comment"]) \/
        (exists i links, issue p = Some i /\ number = issue_number i /\
                         issue_pull_request i = Some links /\ name = str "issue_comment")
      else
        exists i, issue p = Some i /\ number = issue_number i /\
                  (name = str "issues" \/
                   (name = str "issue_comment" /\ issue_pull_request i = None))
  | _ => True
  end.
Proof.
  unfold parse, parseGitHubContext.
  destruct (isValidMode (nullish (MODE env) DEFAULT_MODE)); cbn [negb]; [|exact I].
  destruct context as [evt p o r a]. cbn [ctx_eventName payload] in *.
  destruct (JS.eqb evt (str "issues")) eqn:E1.
  { is_name E1. destruct (issue p) as [i|] eqn:Hi; cbn [numberOf withNumber]; [|exact I].
    split; [reflexivity|]. cbn [issue pull_request] in *. exists i. rewrite ?Hl. intuition reflexivity. }
  destruct (JS.eqb evt (str "issue_comment")) eqn:E2.
  { is_name E2. destruct (issue p) as [i|] eqn:Hi; cbn [numberOf withNumber]; [|exact I].
    split; [reflexivity|]. cbn [issue pull_request] in *. destruct (issue_pull_request i) as [links|] eqn:Hl; cbn [Boolean].
    - right. exists i, links. rewrite ?Hl. intuition reflexivity.
    - exists i. rewrite ?Hl. intuition reflexivity. }
  destruct (JS.eqb evt (str "pull_request")) eqn:E3.
  { is_name E3. destruct (pull_request p) as [q|] eqn:Hq; cbn [numberOf withNumber]; [|exact I].
    split; [reflexivity|]. cbn [issue pull_request] in *. left. exists q. cbn. intuition reflexivity. }
  destruct (JS.eqb evt (str "pull_request_review")) eqn:E4.
  { is_name E4. destruct (pull_request p) as [q|] eqn:Hq; cbn [numberOf withNumber]; [|exact I].
    split; [reflexivity|]. cbn [issue pull_request] in *. left. exists q. cbn. intuition reflexivity. }
  destruct (JS.eqb evt (str "pull_request_review_comment")) eqn:E5.
  { is_name E5. destruct (pull_request p) as [q|] eqn:Hq; cbn [numberOf withNumber]; [|exact I].
    split; [reflexivity|]. cbn [issue pull_request] in *. left. exists q. cbn. intuition reflexivity. }
  destruct (JS.eqb evt (str "workflow_run")); [exact I|].
  destruct (JS.eqb evt (str "workflow_dispatch")); [exact I|].
  destruct (JS.eqb evt (str "schedule")); exact I.
Qed.

End ContextParsingFacts.

(* ================================================================== *)
(** * The tracking comment *)

Section InitialCommentFacts.
Import InitialComment.
Context `{GiteaApiClient}.
Variable createJobRunLink : jsstring -> jsstring -> jsstring -> jsstring.
Variable createCommentBody : jsstring -> jsstring.
Variable undefinedRead : jsstring.
Variable invalidPath : jsstring.

Let run := createInitialComment createJobRunLink createCommentBody undefinedRead invalidPath.

(** Opens the function up to the answers of the client. *)
Ltac open_run :=
  unfold run, createInitialComment, firstAttempt, fallback, appendOutput, catch, andThen,
    perform, raise, done; cbn [fst snd].

(** Splits on the answer of the next call. *)
Ltac next_answer :=
  match goal with
  | |- context [customRequest ?m ?p ?b ?w] =>
      destruct (customRequest m p b w) as [[?|?] ?] eqn:?
  | |- context [createIssueComment ?o ?r ?n ?b ?w] =>
      destruct (createIssueComment o r n b w) as [[?|?] ?] eqn:?
  | |- context [updateIssueComment ?o ?r ?i ?b ?w] =>
      destruct (updateIssueComment o r i b w) as [[?|?] ?] eqn:?
  | |- context [appendFileSync ?p ?d ?w] =>
      destruct (appendFileSync p d w) as [[?|?] ?] eqn:?
  end; cbn [fst snd].

(** Closes a goal on the calls of one path. *)
Ltac expected_calls :=
  eexists; split; [rewrite <- ?app_assoc; reflexivity|]; cbn [app filter creates List.length];
  split; [|lia];
  repeat first [apply Forall_nil | apply Forall_cons]; cbn [Expected];
  repeat match goal with
         | |- _ /\ _ => split
         | |- exists _, _ => eexists
         | |- _ = _ => reflexivity
         | |- _ = _ => assumption
         end.

(** X25.  Whatever the client answers, the calls [createInitialComment] makes
    are addressed to the repository and the entity of the context, at most
    two of them create a comment, the reply endpoint is used for a
    review-comment event only, and the file written to is [GITHUB_OUTPUT]. *)
Theorem createInitialComment_calls GITHUB_OUTPUT context comment s :
  exists calls,
    snd (snd (run GITHUB_OUTPUT context comment s)) = snd s ++ calls /\
    Forall (Expected GITHUB_OUTPUT context comment) calls /\
    (List.length (filter creates calls) <= 2)%nat.
Proof.
  destruct s as [w l]. open_run.
  destruct (JS.eqb (eventName (common context)) (str "pull_request_review_comment")) eqn:Hevent.
  - apply JS_eqb_eq in Hevent.
    destruct comment as [c|], GITHUB_OUTPUT as [path|]; cbn [fst snd];
      repeat next_answer; expected_calls.
  - destruct GITHUB_OUTPUT as [path|]; cbn [fst snd]; repeat next_answer; expected_calls.
Qed.

(** X26.  When [createInitialComment] returns an id, the client gave that id to
    a comment this call created, and the last three calls created that
    comment, edited it and appended [claude_comment_id=<id>] to the file
    named by [GITHUB_OUTPUT]. *)
Theorem createInitialComment_returned_id_is_recorded GITHUB_OUTPUT context comment s id s' :
  run GITHUB_OUTPUT context comment s = (Normal id, s') ->
  exists path before create response,
    GITHUB_OUTPUT = Some path /\
    snd s' = snd s ++ before ++
             [create;
              UpdateIssueComment (owner (repository (common context)))
                (repo (repository (common context))) id
                (createCommentBody
                   (createJobRunLink (owner (repository (common context)))
                      (repo (repository (common context))) (runId (common context))));
              AppendFileSync path (outputLine id)] /\
    id = data_id response /\ Created create response.
Proof.
  destruct s as [w l]. open_run.
  assert (Hfound : forall (all : list ApiCall) (P : list ApiCall -> ApiCall -> Prop),
            P (firstn (List.length all - 3) all)
              (nth (List.length all - 3) all (AppendFileSync [] [])) ->
            exists before create, P before create) by (intros; eauto).
  destruct (JS.eqb (eventName (common context)) (str "pull_request_review_comment"));
    destruct comment as [c|], GITHUB_OUTPUT as [path|]; cbn [fst snd];
    repeat next_answer; intros Hrun; try discriminate Hrun;
    injection Hrun as <- <-; cbn [snd]; rewrite <- ?app_assoc; cbn [app];
    exists path;
    match goal with
    | |- exists before create response, _ /\ l ++ ?all = _ /\ _ =>
        apply (Hfound all (fun before create => exists response,
                 _ /\ l ++ all = l ++ before ++ [create; _; _] /\ _ /\ Created create response))
    end; cbn [List.length Nat.sub firstn nth app];
    eexists; (split; [reflexivity|]); (split; [reflexivity|]); (split; [reflexivity|]);
    do 2 eexists; eassumption.
Qed.

(** X27.  Without [GITHUB_OUTPUT] the function never returns an id: it throws,
    whatever the client answers. *)
Theorem createInitialComment_needs_output_file context comment s :
  exists error, fst (run None context comment s) = Throws error.
Proof.
  destruct s as [w l]. open_run.
  destruct (JS.eqb (eventName (common context)) (str "pull_request_review_comment"));
    destruct comment as [c|]; cbn [fst snd]; repeat next_answer; eexists; reflexivity.
Qed.


End InitialCommentFacts.

Section InitialCommentSamples.
Import InitialComment.


Lemma flaky_run :
  createInitialComment (H := flaky) sampleLink sampleBody [] [] (Some (str "out")) (Scenario.issueEvent None) None (1, [])
  = (Normal 2,
     (3, [CreateIssueComment (str "o") (str "r") 7 PREVIEW_PLACEHOLDER;
          UpdateIssueComment (str "o") (str "r") 1 (str "Working: o/r#1");
          CreateIssueComment (str "o") (str "r") 7 PREVIEW_PLACEHOLDER;
          UpdateIssueComment (str "o") (str "r") 2 (str "Working: o/r#1");
          AppendFileSync (str "out") (outputLine 2)])).
Proof. vm_compute. reflexivity. Qed.

Lemma createInitialComment_returned_id_is_recorded_witness :
  exists path before create response,
    Some (str "out") = Some path /\
    [CreateIssueComment (str "o") (str "r") 7 PREVIEW_PLACEHOLDER;
     UpdateIssueComment (str "o") (str "r") 1 (str "Working: o/r#1");
     CreateIssueComment (str "o") (str "r") 7 PREVIEW_PLACEHOLDER;
     UpdateIssueComment (str "o") (str "r") 2 (str "Working: o/r#1");
     AppendFileSync (str "out") (outputLine 2)]
    = [] ++ before ++
      [create; UpdateIssueComment (str "o") (str "r") 2 (str "Working: o/r#1");
       AppendFileSync path (outputLine 2)] /\
    2 = data_id response /\ Created (H := flaky) create response.
Proof.
  exact (createInitialComment_returned_id_is_recorded (H := flaky) sampleLink sampleBody [] []
           (Some (str "out")) (Scenario.issueEvent None) None (1, []) 2 _ flaky_run).
Defined.


End InitialCommentSamples.

(* ================================================================== *)
(** * Fetching the entity data *)

Section FetcherFacts.
Import Fetcher.
Variable Number : Type.
Variable parseInt : jsstring -> Number.
Variable toUpperCase : jsstring -> jsstring.
Context `{RegExpEngine} `{GitHubClient Number}.

Let fetch := fetchGitHubData parseInt toUpperCase.

Lemma fetchComments_returns owner repo params w :
  exists w1,
    fetchComments parseInt owner repo params w
    = (Normal (keptComments parseInt owner repo params w), w1).
Proof.
  unfold fetchComments, keptComments, attempt, seq, pure, unit_.
  destruct (listIssueComments owner repo (parseInt (prNumber params)) w) as [[data|e] w1].
  - destruct (filterCommentsByActor _ _ _ _); eexists; reflexivity.
  - eexists; reflexivity.
Qed.

Lemma fetchFiles_returns owner repo params w :
  exists files w1, fetchFiles parseInt owner repo params w = (Normal files, w1).
Proof.
  unfold fetchFiles, attempt, seq, unit_.
  destruct (listPullRequestFiles owner repo (parseInt (prNumber params)) w) as [[data|e] w1];
    eexists; eexists; reflexivity.
Qed.

Lemma withSHA_returns f w :
  exists sha w1, withSHA f w = (Normal {| file := f; sha := sha |}, w1).
Proof.
  unfold withSHA, attempt, seq, unit_.
  destruct (hashObject (path f) w) as [[out|e] w1]; eexists; eexists; reflexivity.
Qed.

(** Every changed file gets an entry, in order, whether or not its hash
    could be computed. *)
Lemma mapFetch_withSHA files w :
  exists out w1, mapFetch (@withSHA Number _) files w = (Normal out, w1) /\ map file out = files.
Proof.
  revert w. induction files as [|f rest IH]; intros w; cbn [mapFetch].
  - exists [], w. split; reflexivity.
  - unfold seq at 1. destruct (withSHA_returns f w) as [sha [w1 ->]].
    unfold seq at 1. destruct (IH w1) as [out [w2 [-> Hout]]].
    eexists; eexists. split; [reflexivity|]. cbn. now rewrite Hout.
Qed.

(** What the outer [try] leaves behind. *)
Lemma fetchEntity_cases owner repo params w :
  (exists e w1,
      fetchEntity parseInt toUpperCase owner repo params w = (Throws e, w1) /\
      entityFetched parseInt owner repo params w = None) \/
  (exists c files reviews w1 w2,
      fetchEntity parseInt toUpperCase owner repo params w
      = (Normal (Some c, keptComments parseInt owner repo params w1, files, reviews), w2) /\
      entityFetched parseInt owner repo params w = Some w1).
Proof.
  unfold fetchEntity, entityFetched, seq. destruct (isPR params).
  - destruct (getPullRequest owner repo (parseInt (prNumber params)) w) as [[d|e] w1].
    + right. destruct (fetchComments_returns owner repo params w1) as [w2 ->].
      destruct (fetchFiles_returns owner repo params w2) as [files [w3 ->]].
      do 5 eexists. split; reflexivity.
    + left. do 2 eexists. split; reflexivity.
  - destruct (getIssue owner repo (parseInt (prNumber params)) w) as [[d|e] w1].
    + right. destruct (fetchComments_returns owner repo params w1) as [w2 ->].
      do 5 eexists. split; reflexivity.
    + left. do 2 eexists. split; reflexivity.
Qed.

(** X29.  The only errors [fetchGitHubData] throws: the repository is not of the
    form [owner/repo] (nothing has been asked then); the pull request or the
    issue itself could not be fetched (the message names the kind, not the
    cause); or the image downloader threw.  A failure to list the comments,
    to list the files or to hash a file never fails the call, and the final
    check for missing context data cannot fire. *)
Theorem fetchGitHubData_errors params w error w' :
  fetch params w = (Throws error, w') ->
  let owner := nth 0 (splitOn 47 (repository params)) [] in
  let repo := nth 1 (splitOn 47 (repository params)) [] in
  (error = newError (str "Invalid repository format. Expected 'owner/repo'.") /\
   w' = w /\ (owner = [] \/ repo = [])) \/
  (error = newError (str "Failed to fetch " ++ (if isPR params then str "PR" else str "issue")
                      ++ str " data") /\
   entityFetched parseInt owner repo params w = None) \/
  (exists allComments w0, downloadCommentImages owner repo allComments w0 = (Throws error, w')).
Proof.
  intros Hrun owner repo. unfold fetch, fetchGitHubData in Hrun. fold owner repo in Hrun.
  destruct (truthy owner) eqn:Howner; cbn [negb orb] in Hrun.
  2:{ left. unfold fail in Hrun. injection Hrun as <- <-.
      repeat split. left. now destruct owner. }
  destruct (truthy repo) eqn:Hrepo; cbn [negb orb] in Hrun.
  2:{ left. unfold fail in Hrun. injection Hrun as <- <-.
      repeat split. right. now destruct repo. }
  right. unfold seq at 1, attempt in Hrun.
  destruct (fetchEntity_cases owner repo params w)
    as [[e [w1 [Hentity Hnone]]] | [c [files [reviews [w1 [w2 [Hentity Hsome]]]]]]];
    rewrite Hentity in Hrun.
  - left. unfold fail in Hrun. injection Hrun as <- <-. split; [reflexivity | exact Hnone].
  - right. unfold seq at 1 in Hrun.
    set (hashed := if isPR params && (0 <? N.of_nat (List.length files))
                   then mapFetch (@withSHA Number _) files else unit_ []) in Hrun.
    assert (Hhashed : exists out w3, hashed w2 = (Normal out, w3)).
    { unfold hashed. destruct (isPR params && (0 <? N.of_nat (List.length files))).
      - destruct (mapFetch_withSHA files w2) as [out [w3 [Hout _]]]. eauto.
      - unfold unit_. eauto. }
    destruct Hhashed as [out [w3 Hhashed]]. rewrite Hhashed in Hrun.
    unfold seq in Hrun.
    match type of Hrun with
    | context [downloadCommentImages owner repo ?all w3] =>
        destruct (downloadCommentImages owner repo all w3) as [[images|e] w4] eqn:Himages
    end.
    + unfold unit_ in Hrun. discriminate Hrun.
    + injection Hrun as <- <-. eauto.
Qed.

(** X30.  The comments of a result are those listed for the entity that pass the
    actor filter; when the listing fails, or when the filter throws (a
    pattern that is no regular expression), the result has no comments and
    the call still returns. *)
Theorem fetchGitHubData_comments params w result w' :
  fetch params w = (Normal result, w') ->
  let owner := nth 0 (splitOn 47 (repository params)) [] in
  let repo := nth 1 (splitOn 47 (repository params)) [] in
  exists w1,
    entityFetched parseInt owner repo params w = Some w1 /\
    comments result = keptComments parseInt owner repo params w1 /\
    (forall e w2, listIssueComments owner repo (parseInt (prNumber params)) w1 = (Throws e, w2) ->
                  comments result = []) /\
    (forall data e w2,
        listIssueComments owner repo (parseInt (prNumber params)) w1 = (Normal data, w2) ->
        filterCommentsByActor (fun c => login (author c)) (map toComment data)
          (orEmpty (includeCommentsByActor params)) (orEmpty (excludeCommentsByActor params))
        = Throws e ->
        comments result = []).
Proof.
  intros Hrun owner repo. unfold fetch, fetchGitHubData in Hrun. fold owner repo in Hrun.
  destruct (negb (truthy owner) || negb (truthy repo)); [discriminate Hrun|].
  unfold seq at 1, attempt in Hrun.
  destruct (fetchEntity_cases owner repo params w)
    as [[e [w1 [Hentity Hnone]]] | [c [files [reviews [w1 [w2 [Hentity Hsome]]]]]]];
    rewrite Hentity in Hrun; [discriminate Hrun|].
  exists w1. split; [exact Hsome|].
  assert (Hkept : comments result = keptComments parseInt owner repo params w1).
  { unfold seq at 1 in Hrun.
    destruct ((if isPR params && (0 <? N.of_nat (List.length files))
               then mapFetch (@withSHA Number _) files else unit_ []) w2) as [[out|e] w3];
      [|discriminate Hrun].
    unfold seq in Hrun.
    match type of Hrun with
    | context [downloadCommentImages owner repo ?all w3] =>
        destruct (downloadCommentImages owner repo all w3) as [[images|e] w4]
    end; [|discriminate Hrun].
    unfold unit_ in Hrun. injection Hrun as <- _. reflexivity. }
  split; [exact Hkept|]. rewrite Hkept. unfold keptComments. split.
  - intros e w3 Hlist. now rewrite Hlist.
  - intros data e w3 Hlist Hfilter. now rewrite Hlist, Hfilter.
Qed.

End FetcherFacts.

Section FetcherSamples.
Import Fetcher.

Lemma unreadable_pull_request :
  fetchGitHubData (H := fragmentEngine) (H0 := sampleForge) (fun s => s) asciiUpper
    (sampleParams true []) tt
  = (Throws (newError (str "Failed to fetch PR data")), tt).
Proof. vm_compute. reflexivity. Qed.

Lemma fetchGitHubData_errors_witness :
  (newError (str "Failed to fetch PR data")
   = newError (str "Invalid repository format. Expected 'owner/repo'.") /\
   tt = tt /\ (str "o" = [] \/ str "r" = [])) \/
  (newError (str "Failed to fetch PR data")
   = newError (str "Failed to fetch " ++ str "PR" ++ str " data") /\
   entityFetched (H0 := sampleForge) (fun s => s) (str "o") (str "r") (sampleParams true []) tt
   = None) \/
  (exists allComments w0,
      downloadCommentImages (GitHubClient := sampleForge) (str "o") (str "r") allComments w0
      = (Throws (newError (str "Failed to fetch PR data")), tt)).
Proof.
  exact (fetchGitHubData_errors jsstring (fun s => s) asciiUpper
           (H := fragmentEngine) (H0 := sampleForge)
           (sampleParams true []) tt _ tt unreadable_pull_request).
Defined.

Lemma unusable_filter :
  fetchGitHubData (H := fragmentEngine) (H0 := sampleForge) (fun s => s) asciiUpper
    (sampleParams false (str "*[")) tt
  = (Normal sampleResult, tt).
Proof. vm_compute. reflexivity. Qed.

Lemma fetchGitHubData_comments_witness :
  comments sampleResult
  = keptComments (H := fragmentEngine) (H0 := sampleForge) (fun s => s) (str "o") (str "r")
      (sampleParams false (str "*[")) tt /\
  comments sampleResult = [].
Proof.
  destruct (fetchGitHubData_comments jsstring (fun s => s) asciiUpper
              (H := fragmentEngine) (H0 := sampleForge)
              (sampleParams false (str "*[")) tt sampleResult tt unusable_filter)
    as [[] [_ [Hkept [_ Hfilter]]]].
  split; [exact Hkept|].
  apply (Hfilter sampleComments
           (mkErr (str "SyntaxError") (str "Invalid regular expression: /^.*[$/")) tt);
    vm_compute; reflexivity.
Defined.

End FetcherSamples.

(* ================================================================== *)
(** * What the branch name validator accepts *)

Section ValidatorExact.

Ltac chars :=
  unfold isBranchChar, isForbiddenChar, isWhiteSpace, isAlnum, isLower, isUpper, isDigit in *;
  repeat rewrite ?orb_true_iff, ?andb_true_iff, ?orb_false_iff, ?andb_false_iff,
    ?N.leb_le, ?N.eqb_eq, ?N.leb_gt, ?N.eqb_neq in *;
  lia.

Lemma alnum_not_blank c : isAlnum c = true -> isWhiteSpace c = false.
Proof. intros Hc. chars. Qed.

Lemma alnum_branchChar c : isAlnum c = true -> isBranchChar c = true.
Proof. intros Hc. chars. Qed.

Lemma alnum_no_mark c : isAlnum c = true -> c <> 45 /\ c <> 46.
Proof. intros Hc. chars. Qed.

Lemma branchChar_not_forbidden c : isBranchChar c = true -> isForbiddenChar c = false.
Proof. intros Hc. chars. Qed.

Lemma branchChar_no_at c : isBranchChar c = true -> c <> 64.
Proof. intros Hc. chars. Qed.

Lemma refused b : b = false <-> ~ b = true.
Proof. destruct b; split; congruence. Qed.

(** A string on the whitelist passes the five checks that come before and
    right after the pattern, and has no [@{]. *)
Lemma whitelisted_passes s :
  validPattern s = true ->
  (negb (truthy s) || (N.of_nat (List.length (trim s)) =? 0)) = false /\
  startsWith (str "-") s = false /\
  hasForbiddenChar s = false /\
  startsWith (str ".") s = false /\
  includes (str "@{") s = false.
Proof.
  destruct s as [|c rest]; [discriminate|]. cbn [validPattern].
  rewrite andb_true_iff, forallb_forall. intros [Hc Hrest].
  assert (Hall : forall x, In x (c :: rest) -> isBranchChar x = true).
  { intros x [<- | Hx]; [now apply alnum_branchChar | now apply Hrest]. }
  destruct (alnum_no_mark c Hc) as [Hdash Hdot].
  repeat split.
  - cbn [truthy negb orb]. apply N.eqb_neq. intros Hlen.
    assert (Hblank : trim (c :: rest) = []).
    { destruct (trim (c :: rest)); [reflexivity | discriminate Hlen]. }
    apply trim_empty_blank in Hblank. inversion Hblank as [|x xs Hx _].
    rewrite (alnum_not_blank c Hc) in Hx. discriminate.
  - apply refused. rewrite startsWith_Prefix. intros [t Ht].
    injection Ht as Heq _. contradiction.
  - unfold hasForbiddenChar. apply refused. rewrite existsb_exists.
    intros [x [Hx Hbad]]. rewrite (branchChar_not_forbidden x (Hall x Hx)) in Hbad.
    discriminate.
  - apply refused. rewrite startsWith_Prefix. intros [t Ht].
    injection Ht as Heq _. contradiction.
  - apply refused. rewrite includes_Infix. intros Hinfix.
    apply (branchChar_no_at 64); [|reflexivity]. apply Hall.
    apply (Infix_In (str "@{") _ 64 Hinfix). now left.
Qed.

(** X14.  [validateBranchName] accepts exactly the strings that match the
    whitelist pattern (a letter or digit, then letters, digits and [/_.-])
    and that do not end with a period, a slash or [.lock] and contain
    neither [//] nor [..]; the checks for an empty name, a leading dash, a
    forbidden character, a leading period and [@{] never decide, they only
    choose the message. *)
Theorem validateBranchName_accepts_exactly s :
  Accepts s <->
  Whitelisted s /\ ~ Suffix (str ".") s /\ ~ Suffix (str "/") s /\
  ~ Infix (str "//") s /\ ~ Infix (str "..") s /\ ~ Suffix (str ".lock") s.
Proof.
  rewrite <- validPattern_Whitelisted, <- !endsWith_Suffix, <- !includes_Infix, <- !refused.
  unfold Accepts, validateBranchName. split.
  - intros Hrun.
    repeat match type of Hrun with
           | (if ?b then _ else _) = _ => destruct b eqn:?; [discriminate Hrun|]
           end.
    repeat match goal with
           | E : negb _ = false |- _ => apply negb_false_iff in E
           | E : _ || _ = false |- _ => apply orb_false_iff in E; destruct E
           end.
    repeat split; assumption.
  - intros (Hw & Hdot & Hslash & Hslashes & Hdots & Hlock).
    destruct (whitelisted_passes s Hw) as (-> & -> & -> & Hlead & ->).
    now rewrite Hw, Hlead, Hdot, Hslash, Hslashes, Hdots, Hlock.
Qed.

End ValidatorExact.
